(** * WATcher: the Issue entity and the IssueService reconciliation engine

    A shallow embedding of
      - src/app/core/models/issue.model.ts      (class Issue, IssuesFilter)
      - src/app/core/services/issue.service.ts  (class IssueService)
    followed by the properties the specification states about them.

    Conventions.
      - A JavaScript string is a [string]; one character stands for one code
        unit below 256.
      - A field that may hold [undefined] is an [option]; where the code tells
        [null] from [undefined] the value is a [Nullable].
      - A JavaScript exception is the [Throws] branch of [Result]; a method
        that mutates its receiver is a function of the state monad [M], which
        keeps the mutations made before a throw.
      - The local store [issues] (a JS object used as a map from issue number
        to Issue) is a [gmap N Issue.t]. *)

From Stdlib Require Import ZArith NArith Ascii String.
From stdpp Require Import base option list sorting strings gmap.

Local Open Scope Z_scope.

(** ** JavaScript values and primitives *)

Inductive JsError :=
  | TypeError      (* a property read on undefined or null *)
  | RemoteError.   (* an error notification of a GithubService observable *)

Inductive Result (A : Type) :=
  | Returns (a : A)
  | Throws (e : JsError).
Arguments Returns {A} a.
Arguments Throws {A} e.

Inductive Nullable (A : Type) :=
  | null
  | undefined
  | value (a : A).
Arguments null {A}.
Arguments undefined {A}.
Arguments value {A} a.

(** The state and exception monad of a method with receiver [S]. *)
Definition M (S A : Type) : Type := S → Result A * S.

Definition ret {S A} (a : A) : M S A := λ s, (Returns a, s).
Definition throw {S A} (e : JsError) : M S A := λ s, (Throws e, s).
Definition bind {S A B} (m : M S A) (k : A → M S B) : M S B :=
  λ s, match m s with
       | (Returns a, s') => k a s'
       | (Throws e, s') => (Throws e, s')
       end.
Definition get {S} : M S S := λ s, (Returns s, s).
Definition modify {S} (f : S → S) : M S unit := λ s, (Returns tt, f s).
Definition lift {S A} (r : Result A) : M S A := λ s, (r, s).
(** [try { m } catch (e) { h e }] *)
Definition try_catch {S A} (m : M S A) (h : JsError → M S A) : M S A :=
  λ s, match m s with
       | (Returns a, s') => (Returns a, s')
       | (Throws e, s') => h e s'
       end.

Declare Scope js_scope.
Delimit Scope js_scope with js.
Notation "'let*' x := m 'in' k" := (bind m (λ x, k))
  (at level 10, x name, m at level 100, k at level 200) : js_scope.
Notation "m >> k" := (bind m (λ _, k))
  (at level 100, right associativity) : js_scope.

Module Js.

(** [`${x}`]: an undefined value prints as the word undefined. *)
Definition template (x : option string) : string := default "undefined" x.

(** Truthiness of a string-valued field: undefined and the empty string are
    falsy. *)
Definition truthy (x : option string) : bool :=
  match x with
  | Some s => negb (String.eqb s "")
  | None => false
  end.

Definition code (c : ascii) : Z := Z.of_N (N_of_ascii c).

(** WhiteSpace and LineTerminator code units below 256: TAB, LF, VT, FF, CR,
    SP and NBSP. *)
Definition isWhiteSpace (c : ascii) : bool :=
  let n := code c in
  ((9 <=? n) && (n <=? 13)) || (n =? 32) || (n =? 160).

Fixpoint trimStart (s : string) : string :=
  match s with
  | EmptyString => EmptyString
  | String c s' => if isWhiteSpace c then trimStart s' else s
  end.

(** [s.trim()] *)
Definition trim (s : string) : string :=
  String.rev (trimStart (String.rev (trimStart s))).

(** [s.split(sep)] for a separator that matches exactly one code unit, given
    as the predicate [sep]: a plain one-character string or a character
    class. The result always has one more piece than there are separators. *)
Fixpoint split (sep : ascii → bool) (s : string) : list string :=
  match s with
  | EmptyString => [EmptyString]
  | String c s' =>
      if sep c then EmptyString :: split sep s'
      else match split sep s' with
           | [] => [String c EmptyString]
           | piece :: pieces => String c piece :: pieces
           end
  end.

(** *** The sign of [+s] (StringToNumber)

    The service only compares [+issue.pending] with zero, so a Number is
    represented by what that comparison can see. *)
Inductive NumberSign := NaN | Negative | Zero | Positive.

Definition negate (n : NumberSign) : NumberSign :=
  match n with
  | Negative => Positive
  | Positive => Negative
  | other => other
  end.

Definition digit (radix : Z) (c : ascii) : option Z :=
  let n := code c in
  let v := if (48 <=? n) && (n <=? 57) then n - 48
           else if (97 <=? n) && (n <=? 102) then n - 87
           else if (65 <=? n) && (n <=? 70) then n - 55
           else radix in
  if v <? radix then Some v else None.

(** The longest prefix of digits, as digit values, and what follows it. *)
Fixpoint digits (radix : Z) (l : list ascii) : list Z * list ascii :=
  match l with
  | [] => ([], [])
  | c :: l' =>
      match digit radix c with
      | Some d => let '(ds, rest) := digits radix l' in (d :: ds, rest)
      | None => ([], l)
      end
  end.

Definition mathematicalValue (ds : list Z) : Z :=
  fold_left (λ acc d, 10 * acc + d) ds 0.

(** ExponentPart, which must reach the end of the literal. *)
Definition exponent (l : list ascii) : option Z :=
  let signed (sign : Z) (l' : list ascii) :=
    match digits 10 l' with
    | (d :: ds, []) => Some (sign * mathematicalValue (d :: ds))
    | _ => None
    end in
  match l with
  | [] => Some 0
  | c :: l' =>
      if (code c =? 101) || (code c =? 69) then
        match l' with
        | s :: l'' =>
            if code s =? 43 then signed 1 l''
            else if code s =? 45 then signed (-1) l''
            else signed 1 l'
        | [] => None
        end
      else None
  end.

(** The sign of the double nearest to [m * 10^k] for [0 <= m]: anything at
    or below half the least subnormal, 2^-1075, rounds to zero. *)
Definition roundedSign (m k : Z) : NumberSign :=
  if m =? 0 then Zero
  else if 0 <=? k then Positive
  else if 10 ^ (- k) <? m * 2 ^ 1075 then Positive
  else Zero.

(** StrUnsignedDecimalLiteral *)
Definition unsignedDecimal (l : list ascii) : NumberSign :=
  if decide (l = list_ascii_of_string "Infinity") then Positive
  else
    let '(int, rest) := digits 10 l in
    let '(frac, rest') :=
      match rest with
      | c :: r => if code c =? 46 then digits 10 r else ([], rest)
      | [] => ([], [])
      end in
    match int ++ frac with
    | [] => NaN
    | ds =>
        match exponent rest' with
        | Some e => roundedSign (mathematicalValue ds) (e - Z.of_nat (length frac))
        | None => NaN
        end
    end.

(** NonDecimalIntegerLiteral digits after the 0x, 0o or 0b prefix. *)
Definition nonDecimal (radix : Z) (l : list ascii) : NumberSign :=
  match digits radix l with
  | (d :: ds, []) => if forallb (Z.eqb 0) (d :: ds) then Zero else Positive
  | _ => NaN
  end.

Definition ToNumberSign (s : string) : NumberSign :=
  match list_ascii_of_string (trim s) with
  | [] => Zero
  | c :: l =>
      let prefixed :=
        if code c =? 48 then
          match l with
          | p :: l' =>
              if (code p =? 120) || (code p =? 88) then Some (nonDecimal 16 l')
              else if (code p =? 111) || (code p =? 79) then Some (nonDecimal 8 l')
              else if (code p =? 98) || (code p =? 66) then Some (nonDecimal 2 l')
              else None
          | [] => None
          end
        else None in
      match prefixed with
      | Some n => n
      | None =>
          if code c =? 43 then unsignedDecimal l
          else if code c =? 45 then negate (unsignedDecimal l)
          else unsignedDecimal (c :: l)
      end
  end.

(** [+s > 0] *)
Definition isPositive (s : string) : bool :=
  match ToNumberSign s with
  | Positive => true
  | _ => false
  end.

(** [array.map((x, i) => f(x, i))] for a callback that may throw. *)
Fixpoint mapi_from {A B} (f : A → nat → Result B) (i : nat) (l : list A)
  : Result (list B) :=
  match l with
  | [] => Returns []
  | x :: l' =>
      match f x i with
      | Throws e => Throws e
      | Returns y =>
          match mapi_from f (S i) l' with
          | Throws e => Throws e
          | Returns ys => Returns (y :: ys)
          end
      end
  end.
Definition mapi {A B} (f : A → nat → Result B) (l : list A) : Result (list B) :=
  mapi_from f 0 l.

End Js.


(** ** The models the Issue entity is built from *)

(** Modelled from the spec: phase.model.ts is not among the sources. The only
    member the sources name is [Phase.issuesViewer], the phase whose issues are
    built by [createPhaseBugReportingIssue]; [unknownPhase] stands for any
    other value the configuration may hold, and an unset phase is [None]. *)
Inductive Phase :=
  | issuesViewer
  | unknownPhase (name : string).

Global Instance Phase_eq_dec : EqDecision Phase.
Proof. solve_decision. Defined.

(** Modelled from the spec: milestone.model.ts, comment.model.ts,
    tester-response.model.ts and the moment library are not among the sources.
    The specification keeps milestones, timestamp formatting and the payloads
    of comments, tester responses and disputes outside the core, as opaque
    value objects, so they are parameters here. *)
Class Collaborators := {
  RawMilestone : Type;
  Milestone : Type;
  Milestone_new : RawMilestone → Milestone;
  Milestone_DefaultMilestone : Milestone;
  (** [moment(t).format('lll')] *)
  moment_format_lll : option string → string;
  IssueComment : Type;
  TesterResponse : Type;
  DisputeDetails : Type;
}.

(** Modelled from the spec: team.model.ts is not among the sources; these are
    the three fields the service reads. *)
Module Team.
Record t := {
  id : string;
  tutorialClassId : string;
  teamId : string;
}.
End Team.

(** First occurrence of [needle] in [s]: what precedes it and what follows. *)
Fixpoint breakOn (needle s : string) : option (string * string) :=
  if String.prefix needle s
  then Some (EmptyString, String.substring (String.length needle)
                            (String.length s - String.length needle) s)
  else match s with
       | EmptyString => None
       | String c s' =>
           match breakOn needle s' with
           | Some (before, after) => Some (String c before, after)
           | None => None
           end
       end.

(** Modelled from the spec: github-label.model.ts is not among the sources. A
    label is a flat [namespace.value] string, or a bare token for a flag; the
    namespaces are the ones [createLabelsForIssue] writes. *)
Module GithubLabel.
Record t := { name : string }.

Module LABELS.
Definition severity := "severity".
Definition type := "type".
Definition response := "response".
Definition duplicated := "duplicate".
Definition status := "status".
Definition pending := "pending".
End LABELS.

Definition isCategorical (l : t) : bool := bool_decide (is_Some (breakOn "." (name l))).
Definition getCategory (l : t) : option string := fst <$> breakOn "." (name l).
Definition getValue (l : t) : string :=
  match breakOn "." (name l) with
  | Some (_, v) => v
  | None => name l
  end.
End GithubLabel.

(** Modelled from the spec: github-comment.model.ts is not among the sources;
    a comment has an id and a body text. *)
Module GithubComment.
Record t := { id : N; body : string }.
End GithubComment.

(** Modelled from the spec: hidden-data.model.ts is not among the sources. The
    codec appends one delimited block after the visible text, holding the
    entries [key:value] in insertion order, one per line; a text without a
    well-formed block at its end decodes to the text itself and no entries.
    The delimiters are those of an HTML comment. *)
Module HiddenData.
Record t := {
  originalStringWithoutHiddenData : string;
  data : list (string * string);
}.

Definition isLineFeed (c : ascii) : bool := Js.code c =? 10.

Definition block (m : list (string * string)) : string :=
  match m with
  | [] => ""
  | _ => "<!--" +:+
         foldr (λ line acc, if String.eqb acc "" then line else line +:+ String "010" acc)
               "" (map (λ kv, fst kv +:+ ":" +:+ snd kv) m)
         +:+ "-->"
  end.

Definition embedDataIntoString (visible : string) (m : list (string * string)) : string :=
  visible +:+ block m.

Definition entries (inner : string) : option (list (string * string)) :=
  mapM (breakOn ":") (Js.split isLineFeed inner).

Definition new (rawStr : string) : t :=
  let absent := {| originalStringWithoutHiddenData := rawStr; data := [] |} in
  match breakOn "<!--" rawStr with
  | Some (visible, rest) =>
      match breakOn "-->" rest with
      | Some (inner, EmptyString) =>
          match entries inner with
          | Some m => {| originalStringWithoutHiddenData := visible; data := m |}
          | None => absent
          end
      | _ => absent
      end
  | None => absent
  end.

Definition toString (hd : t) : string := block (data hd).
End HiddenData.


(** Modelled from the spec: github-issue.model.ts is not among the sources.
    The record has the fields the Issue constructor reads. [findLabel] is the
    decoding half of the label codec: for a namespace it yields the value of
    the first label [namespace.value] and nothing when the namespace is absent;
    for a flag (not categorical) it yields the bare token when a label of
    exactly that name is present. Labels of other namespaces are ignored. *)
Module GithubIssue.
Section with_collaborators.
Context `{Collaborators}.

Record t := {
  id : string;
  number : N;
  title : string;
  body : string;
  created_at : option string;
  updated_at : option string;
  closed_at : option string;
  milestone : option RawMilestone;
  state : string;
  issueOrPr : string;
  user_login : string;
  assignees : list string;   (* the login of each assignee *)
  labels : list GithubLabel.t;
  comments : list GithubComment.t;
}.

Definition findLabel (this : t) (name : string) (isCategorical : bool) : option string :=
  if isCategorical then
    GithubLabel.getValue <$>
      head (filter (λ l, GithubLabel.getCategory l = Some name) (labels this))
  else
    GithubLabel.getValue <$>
      head (filter (λ l, GithubLabel.isCategorical l = false
                         ∧ GithubLabel.getValue l = name) (labels this)).
End with_collaborators.
End GithubIssue.

(** Modelled from the spec: issue-dispute.model.ts is not among the sources. A
    dispute carries the description the positional rule copies; the rest of it
    (title, tutor response, done mark) is kept opaque. *)
Module IssueDispute.
Section with_collaborators.
Context `{Collaborators}.
Record t := { description : string; details : DisputeDetails }.
Definition set_description (d : string) (this : t) : t :=
  {| description := d; details := details this |}.
End with_collaborators.
End IssueDispute.

(** Modelled from the spec: the template classes are not among the sources. A
    parsed template has zero or more typed sections; these records have the
    sections the Issue reads, each possibly absent. *)
Module TemplateSection.
Record t := { content : string }.
End TemplateSection.

Module TutorModerationIssueTemplate.
Section with_collaborators.
Context `{Collaborators}.
Record DisputeSection := { disputes : list IssueDispute.t }.
Record t := {
  description : option TemplateSection.t;
  teamResponse : option TemplateSection.t;
  dispute : option DisputeSection;
}.
End with_collaborators.
End TutorModerationIssueTemplate.

Module TutorModerationTodoTemplate.
Section with_collaborators.
Context `{Collaborators}.
Record ModerationSection := { disputesToResolve : list IssueDispute.t }.
Record t := {
  moderation : option ModerationSection;
  comment : option IssueComment;
  parseFailure : bool;
}.
End with_collaborators.
End TutorModerationTodoTemplate.

(** Modelled from the spec: the template parsers, which the sources only
    call, are parameters: any function from the record, or from a list of
    comments, to a parsed template. *)
Class Templates `{Collaborators} := {
  TutorModerationIssueTemplate_new : GithubIssue.t → TutorModerationIssueTemplate.t;
  TutorModerationTodoTemplate_new : list GithubComment.t → TutorModerationTodoTemplate.t;
}.

(** Modelled from the spec: team-response-template.model.ts is not among the
    sources. The record has the sections [createPhaseTeamResponseIssue] reads;
    a missing issue number (undefined or null) is [None]. *)
Module TeamResponseTemplate.
Section with_collaborators.
Context `{Collaborators}.
Record DuplicateOfSection := { issueNumber : option N }.
Record t := {
  parseFailure : bool;
  comment : option IssueComment;
  teamResponse : option TemplateSection.t;
  duplicateOf : option DuplicateOfSection;
}.
End with_collaborators.
End TeamResponseTemplate.

(** Modelled from the spec: the team-response parser and two methods of
    classes that are not among the sources, [IssueDispute.isDone()] and the
    [description] of an [IssueComment], are parameters. *)
Class Responses `{Collaborators} := {
  TeamResponseTemplate_new : list GithubComment.t → TeamResponseTemplate.t;
  IssueDispute_isDone : IssueDispute.t → bool;
  IssueComment_description : IssueComment → string;
}.

(** ** issue.model.ts: class Issue *)
Module Issue.
Section with_collaborators.
Context `{Templates}.

Record t := {
  (** Basic Fields *)
  globalId : string;
  id : N;
  created_at : string;
  githubIssue : option GithubIssue.t;
  githubComments : option (list GithubComment.t);
  title : string;
  description : string;
  hiddenDataInDescription : HiddenData.t;
  updated_at : string;
  closed_at : string;
  milestone : Milestone;
  state : string;
  issueOrPr : string;
  author : string;
  (** Fields derived from Labels *)
  severity : option string;
  type : option string;
  responseTag : option string;
  duplicated : option bool;
  status : option string;
  pending : option string;
  unsure : option bool;
  teamAssigned : option Team.t;
  (** Assignees and labels of the record *)
  assignees : option (list string);
  labels : option (list string);
  githubLabels : option (list GithubLabel.t);
  (** Fields derived from parsing of Github's issue description *)
  duplicateOf : option N;
  teamResponse : option string;
  testerResponses : option (list TesterResponse);
  testerDisagree : option bool;
  issueComment : option IssueComment;
  issueDisputes : option (list IssueDispute.t);
  teamChosenSeverity : option string;
  teamChosenType : option string;
  teamAccepted : option bool;
  (** Fields for error messages during parsing *)
  teamResponseError : option bool;
  testerResponseError : option bool;
}.

(** Assignments [this.f = v]. *)
Definition set_githubComments (v : option (list GithubComment.t)) (this : t) : t :=
  {| globalId := globalId this; id := id this; created_at := created_at this;
     githubIssue := githubIssue this; githubComments := v; title := title this;
     description := description this;
     hiddenDataInDescription := hiddenDataInDescription this;
     updated_at := updated_at this; closed_at := closed_at this;
     milestone := milestone this; state := state this; issueOrPr := issueOrPr this;
     author := author this; severity := severity this; type := type this;
     responseTag := responseTag this; duplicated := duplicated this;
     status := status this; pending := pending this; unsure := unsure this;
     teamAssigned := teamAssigned this; assignees := assignees this;
     labels := labels this; githubLabels := githubLabels this;
     duplicateOf := duplicateOf this; teamResponse := teamResponse this;
     testerResponses := testerResponses this; testerDisagree := testerDisagree this;
     issueComment := issueComment this; issueDisputes := issueDisputes this;
     teamChosenSeverity := teamChosenSeverity this;
     teamChosenType := teamChosenType this; teamAccepted := teamAccepted this;
     teamResponseError := teamResponseError this;
     testerResponseError := testerResponseError this |}.
Definition set_description (v : string) (this : t) : t :=
  {| globalId := globalId this; id := id this; created_at := created_at this;
     githubIssue := githubIssue this; githubComments := githubComments this;
     title := title this; description := v;
     hiddenDataInDescription := hiddenDataInDescription this;
     updated_at := updated_at this; closed_at := closed_at this;
     milestone := milestone this; state := state this; issueOrPr := issueOrPr this;
     author := author this; severity := severity this; type := type this;
     responseTag := responseTag this; duplicated := duplicated this;
     status := status this; pending := pending this; unsure := unsure this;
     teamAssigned := teamAssigned this; assignees := assignees this;
     labels := labels this; githubLabels := githubLabels this;
     duplicateOf := duplicateOf this; teamResponse := teamResponse this;
     testerResponses := testerResponses this; testerDisagree := testerDisagree this;
     issueComment := issueComment this; issueDisputes := issueDisputes this;
     teamChosenSeverity := teamChosenSeverity this;
     teamChosenType := teamChosenType this; teamAccepted := teamAccepted this;
     teamResponseError := teamResponseError this;
     testerResponseError := testerResponseError this |}.
Definition set_teamAssigned (v : option Team.t) (this : t) : t :=
  {| globalId := globalId this; id := id this; created_at := created_at this;
     githubIssue := githubIssue this; githubComments := githubComments this;
     title := title this; description := description this;
     hiddenDataInDescription := hiddenDataInDescription this;
     updated_at := updated_at this; closed_at := closed_at this;
     milestone := milestone this; state := state this; issueOrPr := issueOrPr this;
     author := author this; severity := severity this; type := type this;
     responseTag := responseTag this; duplicated := duplicated this;
     status := status this; pending := pending this; unsure := unsure this;
     teamAssigned := v; assignees := assignees this; labels := labels this;
     githubLabels := githubLabels this; duplicateOf := duplicateOf this;
     teamResponse := teamResponse this; testerResponses := testerResponses this;
     testerDisagree := testerDisagree this; issueComment := issueComment this;
     issueDisputes := issueDisputes this; teamChosenSeverity := teamChosenSeverity this;
     teamChosenType := teamChosenType this; teamAccepted := teamAccepted this;
     teamResponseError := teamResponseError this;
     testerResponseError := testerResponseError this |}.
Definition set_teamResponse (v : option string) (this : t) : t :=
  {| globalId := globalId this; id := id this; created_at := created_at this;
     githubIssue := githubIssue this; githubComments := githubComments this;
     title := title this; description := description this;
     hiddenDataInDescription := hiddenDataInDescription this;
     updated_at := updated_at this; closed_at := closed_at this;
     milestone := milestone this; state := state this; issueOrPr := issueOrPr this;
     author := author this; severity := severity this; type := type this;
     responseTag := responseTag this; duplicated := duplicated this;
     status := status this; pending := pending this; unsure := unsure this;
     teamAssigned := teamAssigned this; assignees := assignees this;
     labels := labels this; githubLabels := githubLabels this;
     duplicateOf := duplicateOf this; teamResponse := v;
     testerResponses := testerResponses this; testerDisagree := testerDisagree this;
     issueComment := issueComment this; issueDisputes := issueDisputes this;
     teamChosenSeverity := teamChosenSeverity this;
     teamChosenType := teamChosenType this; teamAccepted := teamAccepted this;
     teamResponseError := teamResponseError this;
     testerResponseError := testerResponseError this |}.
Definition set_issueComment (v : option IssueComment) (this : t) : t :=
  {| globalId := globalId this; id := id this; created_at := created_at this;
     githubIssue := githubIssue this; githubComments := githubComments this;
     title := title this; description := description this;
     hiddenDataInDescription := hiddenDataInDescription this;
     updated_at := updated_at this; closed_at := closed_at this;
     milestone := milestone this; state := state this; issueOrPr := issueOrPr this;
     author := author this; severity := severity this; type := type this;
     responseTag := responseTag this; duplicated := duplicated this;
     status := status this; pending := pending this; unsure := unsure this;
     teamAssigned := teamAssigned this; assignees := assignees this;
     labels := labels this; githubLabels := githubLabels this;
     duplicateOf := duplicateOf this; teamResponse := teamResponse this;
     testerResponses := testerResponses this; testerDisagree := testerDisagree this;
     issueComment := v; issueDisputes := issueDisputes this;
     teamChosenSeverity := teamChosenSeverity this;
     teamChosenType := teamChosenType this; teamAccepted := teamAccepted this;
     teamResponseError := teamResponseError this;
     testerResponseError := testerResponseError this |}.
Definition set_issueDisputes (v : option (list IssueDispute.t)) (this : t) : t :=
  {| globalId := globalId this; id := id this; created_at := created_at this;
     githubIssue := githubIssue this; githubComments := githubComments this;
     title := title this; description := description this;
     hiddenDataInDescription := hiddenDataInDescription this;
     updated_at := updated_at this; closed_at := closed_at this;
     milestone := milestone this; state := state this; issueOrPr := issueOrPr this;
     author := author this; severity := severity this; type := type this;
     responseTag := responseTag this; duplicated := duplicated this;
     status := status this; pending := pending this; unsure := unsure this;
     teamAssigned := teamAssigned this; assignees := assignees this;
     labels := labels this; githubLabels := githubLabels this;
     duplicateOf := duplicateOf this; teamResponse := teamResponse this;
     testerResponses := testerResponses this; testerDisagree := testerDisagree this;
     issueComment := issueComment this; issueDisputes := v;
     teamChosenSeverity := teamChosenSeverity this;
     teamChosenType := teamChosenType this; teamAccepted := teamAccepted this;
     teamResponseError := teamResponseError this;
     testerResponseError := testerResponseError this |}.

(** [static formatText(text)] *)
Definition formatText (text : Nullable string) : Nullable string :=
  match text with
  | null => null
  | undefined => undefined
  | value text =>
      let newLines (c : ascii) := (Js.code c =? 10) || (Js.code c =? 13) in
      let textSplitArray := Js.split newLines text in
      if 0 <? Z.of_nat (length (filter (λ split, Js.trim split ≠ "") textSplitArray))
      then value (text +:+ String "010" (String "010" ""))
      else value text
  end.

(** [private static orDefaultString(stringA, def)] *)
Definition orDefaultString (stringA : Nullable string) (def : string) : string :=
  match stringA with
  | null | undefined => def
  | value stringA =>
      if String.eqb stringA "" then def
      else if negb (Z.of_nat (String.length stringA) =? 0) then stringA else def
  end.

(** [static updateDescription(description)] *)
Definition updateDescription (description : Nullable string) : string :=
  let defaultString := "No details provided by bug reporter." in
  orDefaultString (formatText description) defaultString.

(** [static updateTeamResponse(teamResponse)] *)
Definition updateTeamResponse (teamResponse : Nullable string) : string :=
  let defaultString := "No details provided by team." in
  orDefaultString (formatText teamResponse) defaultString.

(** The body of the constructor for a record that is there. The assignment
    of [this.githubIssue] is commented out in the source, so the field
    stays undefined, like every field the constructor does not assign. *)
Definition construct (githubIssue : GithubIssue.t) : t :=
  let hiddenData := HiddenData.new (GithubIssue.body githubIssue) in
  {| globalId := GithubIssue.id githubIssue;
     id := GithubIssue.number githubIssue;
     created_at := moment_format_lll (GithubIssue.created_at githubIssue);
     updated_at := moment_format_lll (GithubIssue.updated_at githubIssue);
     closed_at := moment_format_lll (GithubIssue.closed_at githubIssue);
     title := GithubIssue.title githubIssue;
     hiddenDataInDescription := hiddenData;
     description :=
       updateDescription (value (HiddenData.originalStringWithoutHiddenData hiddenData));
     milestone :=
       match GithubIssue.milestone githubIssue with
       | Some m => Milestone_new m
       | None => Milestone_DefaultMilestone
       end;
     state := GithubIssue.state githubIssue;
     issueOrPr := GithubIssue.issueOrPr githubIssue;
     author := GithubIssue.user_login githubIssue;
     githubIssue := None;
     assignees := Some (GithubIssue.assignees githubIssue);
     githubLabels := Some (GithubIssue.labels githubIssue);
     labels := Some (map GithubLabel.name (GithubIssue.labels githubIssue));
     severity := GithubIssue.findLabel githubIssue GithubLabel.LABELS.severity true;
     type := GithubIssue.findLabel githubIssue GithubLabel.LABELS.type true;
     responseTag := GithubIssue.findLabel githubIssue GithubLabel.LABELS.response true;
     duplicated :=
       Some (Js.truthy (GithubIssue.findLabel githubIssue GithubLabel.LABELS.duplicated false));
     status := GithubIssue.findLabel githubIssue GithubLabel.LABELS.status true;
     pending := GithubIssue.findLabel githubIssue GithubLabel.LABELS.pending true;
     githubComments := None; unsure := None; teamAssigned := None;
     duplicateOf := None; teamResponse := None; testerResponses := None;
     testerDisagree := None; issueComment := None; issueDisputes := None;
     teamChosenSeverity := None; teamChosenType := None; teamAccepted := None;
     teamResponseError := None; testerResponseError := None |}.

(** [protected constructor(githubIssue)]: reading [githubIssue.id] of an
    undefined argument throws. *)
Definition new (githubIssue : option GithubIssue.t) : Result t :=
  match githubIssue with
  | None => Throws TypeError
  | Some githubIssue => Returns (construct githubIssue)
  end.

(** [static createPhaseBugReportingIssue(githubIssue)] *)
Definition createPhaseBugReportingIssue (githubIssue : option GithubIssue.t) : Result t :=
  new githubIssue.

(** The callback of both [map] calls that zip disputes by position:
    [dispute.description = originals[i].description; return dispute]. *)
Definition copyDescription (originals : list IssueDispute.t)
    (dispute : IssueDispute.t) (i : nat) : Result IssueDispute.t :=
  match originals !! i with
  | None => Throws TypeError
  | Some original =>
      Returns (IssueDispute.set_description (IssueDispute.description original) dispute)
  end.

(** [static createPhaseModerationIssue(githubIssue, teamData)] *)
Definition createPhaseModerationIssue (githubIssue : GithubIssue.t)
    (teamData : option Team.t) : Result t :=
  match new (Some githubIssue) with
  | Throws e => Throws e
  | Returns issue =>
      let issueTemplate := TutorModerationIssueTemplate_new githubIssue in
      let todoTemplate :=
        TutorModerationTodoTemplate_new (GithubIssue.comments githubIssue) in
      let issue := set_githubComments (Some (GithubIssue.comments githubIssue)) issue in
      let issue := set_teamAssigned teamData issue in
      match TutorModerationIssueTemplate.description issueTemplate with
      | None => Throws TypeError
      | Some descriptionSection =>
          let issue := set_description (TemplateSection.content descriptionSection) issue in
          let issue :=
            set_teamResponse
              ((λ section, updateTeamResponse (value (TemplateSection.content section)))
                 <$> TutorModerationIssueTemplate.teamResponse issueTemplate) issue in
          match TutorModerationIssueTemplate.dispute issueTemplate with
          | None => Throws TypeError
          | Some disputeSection =>
              let originals := TutorModerationIssueTemplate.disputes disputeSection in
              let issue := set_issueDisputes (Some originals) issue in
              match TutorModerationTodoTemplate.moderation todoTemplate,
                    TutorModerationTodoTemplate.comment todoTemplate with
              | Some moderation, Some comment =>
                  match Js.mapi (copyDescription originals)
                          (TutorModerationTodoTemplate.disputesToResolve moderation) with
                  | Throws e => Throws e
                  | Returns resolved =>
                      Returns (set_issueComment (Some comment)
                                 (set_issueDisputes (Some resolved) issue))
                  end
              | _, _ => Returns issue
              end
          end
      end
  end.

(** [clone(phase)] *)
Definition clone (phase : option Phase) (this : t) : Result t :=
  match phase with
  | Some issuesViewer => createPhaseBugReportingIssue (githubIssue this)
  | _ => createPhaseBugReportingIssue (githubIssue this)
  end.

(** [retainResponses(phase, issue)] *)
Definition retainResponses (phase : option Phase) (issue : t) : M t unit :=
  (modify (set_issueComment (issueComment issue)) >>
   modify (set_githubComments (githubComments issue)) >>
   match phase with
   | Some issuesViewer => modify (set_description (description issue))
   | _ => ret tt
   end)%js.

(** [updateDispute(githubComment)]. Inside the callback [this.issueDisputes]
    is still the list from before the call; reading an index of an
    undefined list throws as reading a missing element's description
    does. *)
Definition updateDispute (githubComment : GithubComment.t) : M t unit :=
  (let todoTemplate := TutorModerationTodoTemplate_new [githubComment] in
   modify (set_issueComment (TutorModerationTodoTemplate.comment todoTemplate)) >>
   let* this := get in
   match TutorModerationTodoTemplate.moderation todoTemplate with
   | None => throw TypeError
   | Some moderation =>
       let* resolved :=
         lift (Js.mapi (copyDescription (default [] (issueDisputes this)))
                 (TutorModerationTodoTemplate.disputesToResolve moderation)) in
       modify (set_issueDisputes (Some resolved))
   end)%js.

(** [createGithubIssueDescription()] *)
Definition createGithubIssueDescription (this : t) : string :=
  description this +:+ String "010" (HiddenData.toString (hiddenDataInDescription this)).

(** *** The rest of the class *)
Context `{!Responses}.

Definition set_assignees (v : option (list string)) (this : t) : t :=
  {| globalId := globalId this; id := id this; created_at := created_at this;
     githubIssue := githubIssue this; githubComments := githubComments this;
     title := title this; description := description this;
     hiddenDataInDescription := hiddenDataInDescription this;
     updated_at := updated_at this; closed_at := closed_at this;
     milestone := milestone this; state := state this; issueOrPr := issueOrPr this;
     author := author this; severity := severity this; type := type this;
     responseTag := responseTag this; duplicated := duplicated this;
     status := status this; pending := pending this; unsure := unsure this;
     teamAssigned := teamAssigned this; assignees := v; labels := labels this;
     githubLabels := githubLabels this; duplicateOf := duplicateOf this;
     teamResponse := teamResponse this; testerResponses := testerResponses this;
     testerDisagree := testerDisagree this; issueComment := issueComment this;
     issueDisputes := issueDisputes this; teamChosenSeverity := teamChosenSeverity this;
     teamChosenType := teamChosenType this; teamAccepted := teamAccepted this;
     teamResponseError := teamResponseError this;
     testerResponseError := testerResponseError this |}.
Definition set_teamResponseError (v : option bool) (this : t) : t :=
  {| globalId := globalId this; id := id this; created_at := created_at this;
     githubIssue := githubIssue this; githubComments := githubComments this;
     title := title this; description := description this;
     hiddenDataInDescription := hiddenDataInDescription this;
     updated_at := updated_at this; closed_at := closed_at this;
     milestone := milestone this; state := state this; issueOrPr := issueOrPr this;
     author := author this; severity := severity this; type := type this;
     responseTag := responseTag this; duplicated := duplicated this;
     status := status this; pending := pending this; unsure := unsure this;
     teamAssigned := teamAssigned this; assignees := assignees this;
     labels := labels this; githubLabels := githubLabels this;
     duplicateOf := duplicateOf this; teamResponse := teamResponse this;
     testerResponses := testerResponses this; testerDisagree := testerDisagree this;
     issueComment := issueComment this; issueDisputes := issueDisputes this;
     teamChosenSeverity := teamChosenSeverity this;
     teamChosenType := teamChosenType this; teamAccepted := teamAccepted this;
     teamResponseError := v; testerResponseError := testerResponseError this |}.
Definition set_duplicateOf (v : option N) (this : t) : t :=
  {| globalId := globalId this; id := id this; created_at := created_at this;
     githubIssue := githubIssue this; githubComments := githubComments this;
     title := title this; description := description this;
     hiddenDataInDescription := hiddenDataInDescription this;
     updated_at := updated_at this; closed_at := closed_at this;
     milestone := milestone this; state := state this; issueOrPr := issueOrPr this;
     author := author this; severity := severity this; type := type this;
     responseTag := responseTag this; duplicated := duplicated this;
     status := status this; pending := pending this; unsure := unsure this;
     teamAssigned := teamAssigned this; assignees := assignees this;
     labels := labels this; githubLabels := githubLabels this; duplicateOf := v;
     teamResponse := teamResponse this; testerResponses := testerResponses this;
     testerDisagree := testerDisagree this; issueComment := issueComment this;
     issueDisputes := issueDisputes this; teamChosenSeverity := teamChosenSeverity this;
     teamChosenType := teamChosenType this; teamAccepted := teamAccepted this;
     teamResponseError := teamResponseError this;
     testerResponseError := testerResponseError this |}.
Definition set_duplicated (v : option bool) (this : t) : t :=
  {| globalId := globalId this; id := id this; created_at := created_at this;
     githubIssue := githubIssue this; githubComments := githubComments this;
     title := title this; description := description this;
     hiddenDataInDescription := hiddenDataInDescription this;
     updated_at := updated_at this; closed_at := closed_at this;
     milestone := milestone this; state := state this; issueOrPr := issueOrPr this;
     author := author this; severity := severity this; type := type this;
     responseTag := responseTag this; duplicated := v; status := status this;
     pending := pending this; unsure := unsure this; teamAssigned := teamAssigned this;
     assignees := assignees this; labels := labels this;
     githubLabels := githubLabels this; duplicateOf := duplicateOf this;
     teamResponse := teamResponse this; testerResponses := testerResponses this;
     testerDisagree := testerDisagree this; issueComment := issueComment this;
     issueDisputes := issueDisputes this; teamChosenSeverity := teamChosenSeverity this;
     teamChosenType := teamChosenType this; teamAccepted := teamAccepted this;
     teamResponseError := teamResponseError this;
     testerResponseError := testerResponseError this |}.
Definition set_status (v : option string) (this : t) : t :=
  {| globalId := globalId this; id := id this; created_at := created_at this;
     githubIssue := githubIssue this; githubComments := githubComments this;
     title := title this; description := description this;
     hiddenDataInDescription := hiddenDataInDescription this;
     updated_at := updated_at this; closed_at := closed_at this;
     milestone := milestone this; state := state this; issueOrPr := issueOrPr this;
     author := author this; severity := severity this; type := type this;
     responseTag := responseTag this; duplicated := duplicated this; status := v;
     pending := pending this; unsure := unsure this; teamAssigned := teamAssigned this;
     assignees := assignees this; labels := labels this;
     githubLabels := githubLabels this; duplicateOf := duplicateOf this;
     teamResponse := teamResponse this; testerResponses := testerResponses this;
     testerDisagree := testerDisagree this; issueComment := issueComment this;
     issueDisputes := issueDisputes this; teamChosenSeverity := teamChosenSeverity this;
     teamChosenType := teamChosenType this; teamAccepted := teamAccepted this;
     teamResponseError := teamResponseError this;
     testerResponseError := testerResponseError this |}.

(** [static createPhaseTeamResponseIssue(githubIssue, teamData)] *)
Definition createPhaseTeamResponseIssue (githubIssue : GithubIssue.t)
    (teamData : option Team.t) : Result t :=
  match new (Some githubIssue) with
  | Throws e => Throws e
  | Returns issue =>
      let template := TeamResponseTemplate_new (GithubIssue.comments githubIssue) in
      let issue := set_githubComments (Some (GithubIssue.comments githubIssue)) issue in
      let issue := set_teamAssigned teamData issue in
      let issue := set_assignees (Some (GithubIssue.assignees githubIssue)) issue in
      let issue := set_teamResponseError (Some (TeamResponseTemplate.parseFailure template)) issue in
      let issue := set_issueComment (TeamResponseTemplate.comment template) issue in
      let issue :=
        set_teamResponse
          ((λ section, updateTeamResponse (value (TemplateSection.content section)))
             <$> TeamResponseTemplate.teamResponse template) issue in
      let issue :=
        set_duplicateOf
          (match TeamResponseTemplate.duplicateOf template with
           | Some section => TeamResponseTemplate.issueNumber section
           | None => None
           end) issue in
      Returns (set_duplicated (Some (bool_decide (is_Some (duplicateOf issue)))) issue)
  end.

(** [numOfUnresolvedDisputes()]: an array, even an empty one, is truthy. *)
Definition numOfUnresolvedDisputes (this : t) : nat :=
  match issueDisputes this with
  | None => 0%nat
  | Some disputes =>
      fold_left (λ prev current, (prev + Nat.b2n (negb (IssueDispute_isDone current)))%nat)
        disputes 0%nat
  end.
End with_collaborators.
End Issue.

(** [IssuesFilter] of issue.model.ts: phase name, then role name. *)
Definition IssuesFilter (phase : option Phase) : option (string → option string) :=
  match phase with
  | Some issuesViewer =>
      Some (λ role, if decide (role = "Student" ∨ role = "Tutor" ∨ role = "Admin")
                    then Some "NO_FILTER" else None)
  | _ => None
  end.

(** ** issue.service.ts: class IssueService *)

(** Modelled from the spec: user.model.ts, user.service.ts and
    phase.service.ts are not among the sources; these are the fields the
    service reads from its two injected collaborators. *)
Module User.
Record t := {
  role : string;
  loginId : string;
  team : option Team.t;
  allocatedTeams : option (list Team.t);
}.
End User.

Module UserService.
Record t := { currentUser : option User.t }.
End UserService.

Module PhaseService.
Record t := { currentPhase : option Phase }.
End PhaseService.

(** [new RestGithubIssueFilter({...})] *)
Record RestGithubIssueFilter := { creator : option string }.

(** The calls of [GithubService] that fetch a batch of issues. *)
Inductive ApiCall :=
  | fetchIssuesGraphql (filter : RestGithubIssueFilter)
  | fetchIssuesGraphqlByTeam (tutorial team : string) (filter : RestGithubIssueFilter).

(** The subscription [startPollIssues] keeps: [timer(0, POLL_INTERVAL)] piped
    through [exhaustMap]. [inner] is the operator's inner subscription, named
    by the tick that started it; [closed] records that the stream has ended
    with an error. *)
Module Subscription.
Record t := { inner : option nat; closed : bool }.
End Subscription.

Module IssueService.
Section with_collaborators.
Context `{Templates}.

Definition POLL_INTERVAL : Z := 5000.

(** [interface Issues { [id: number]: Issue }] *)
Abbreviation Issues := (gmap N Issue.t).

Record t := {
  issues : option Issues;
  (** the current value of the BehaviorSubject [issues$] *)
  issues_ : list Issue.t;
  sessionId : option string;
  issueTeamFilter : string;
  issuesPollSubscription : option Subscription.t;
  (** the current value of the BehaviorSubject [isLoading] *)
  isLoading : bool;
  userService : UserService.t;
  phaseService : PhaseService.t;
}.

Definition set_issues (v : option Issues) (this : t) : t :=
  {| issues := v; issues_ := issues_ this; sessionId := sessionId this;
     issueTeamFilter := issueTeamFilter this;
     issuesPollSubscription := issuesPollSubscription this;
     isLoading := isLoading this; userService := userService this;
     phaseService := phaseService this |}.
Definition set_issues_ (v : list Issue.t) (this : t) : t :=
  {| issues := issues this; issues_ := v; sessionId := sessionId this;
     issueTeamFilter := issueTeamFilter this;
     issuesPollSubscription := issuesPollSubscription this;
     isLoading := isLoading this; userService := userService this;
     phaseService := phaseService this |}.
Definition set_sessionId (v : option string) (this : t) : t :=
  {| issues := issues this; issues_ := issues_ this; sessionId := v;
     issueTeamFilter := issueTeamFilter this;
     issuesPollSubscription := issuesPollSubscription this;
     isLoading := isLoading this; userService := userService this;
     phaseService := phaseService this |}.
Definition set_issuesPollSubscription (v : option Subscription.t) (this : t) : t :=
  {| issues := issues this; issues_ := issues_ this; sessionId := sessionId this;
     issueTeamFilter := issueTeamFilter this; issuesPollSubscription := v;
     isLoading := isLoading this; userService := userService this;
     phaseService := phaseService this |}.
Definition set_isLoading (v : bool) (this : t) : t :=
  {| issues := issues this; issues_ := issues_ this; sessionId := sessionId this;
     issueTeamFilter := issueTeamFilter this;
     issuesPollSubscription := issuesPollSubscription this;
     isLoading := v; userService := userService this;
     phaseService := phaseService this |}.

(** [Object.keys(issues).map((x) => +x)]: issue numbers are index-like
    keys, which a JS object enumerates in ascending order. That is so for
    the numbers below 2^32 - 1, which the numbers GitHub gives to issues are;
    a larger key would be enumerated after them, in the order of insertion,
    which the map does not keep. Only the order of the list depends on it. *)
Definition Object_keys (m : Issues) : list N :=
  merge_sort N.le (map_to_list m).*1.
(** [Object.values(issues)] *)
Definition Object_values (m : Issues) : list Issue.t :=
  omap (λ k, m !! k) (Object_keys m).

(** [private createLabel(prepend, value)] *)
Definition createLabel (prepend : string) (value : option string) : string :=
  prepend +:+ "." +:+ Js.template value.

(** [private createLabelsForIssue(issue)] *)
Definition createLabelsForIssue (this : t) (issue : Issue.t) : Result (list string) :=
  let hyphen (c : ascii) := Js.code c =? 45 in
  match
    (if decide (PhaseService.currentPhase (phaseService this) ≠ Some issuesViewer) then
       match Issue.teamAssigned issue with
       | None => Throws TypeError
       | Some teamAssigned =>
           let studentTeam := Js.split hyphen (Team.id teamAssigned) in
           Returns
             [createLabel "tutorial"
                (Some (Js.template (studentTeam !! 0%nat) +:+ "-"
                       +:+ Js.template (studentTeam !! 1%nat)));
              createLabel "team" (studentTeam !! 2%nat)]
       end
     else Returns [])
  with
  | Throws e => Throws e
  | Returns result =>
      let result :=
        if Js.truthy (Issue.severity issue)
        then result ++ [createLabel "severity" (Issue.severity issue)] else result in
      let result :=
        if Js.truthy (Issue.type issue)
        then result ++ [createLabel "type" (Issue.type issue)] else result in
      let result :=
        if Js.truthy (Issue.responseTag issue)
        then result ++ [createLabel "response" (Issue.responseTag issue)] else result in
      let result :=
        if default false (Issue.duplicated issue)
        then result ++ ["duplicate"] else result in
      let result :=
        if Js.truthy (Issue.status issue)
        then result ++ [createLabel "status" (Issue.status issue)] else result in
      let result :=
        if Js.truthy (Issue.pending issue) then
          if Js.isPositive (default "" (Issue.pending issue))
          then result ++ [createLabel "pending" (Issue.pending issue)] else result
        else result in
      let result :=
        if default false (Issue.unsure issue)
        then result ++ ["unsure"] else result in
      Returns result
  end.

(** [private createIssueModel(githubIssue)]: the [default] branch returns
    nothing, that is, undefined. *)
Definition createIssueModel (this : t) (githubIssue : GithubIssue.t)
  : Result (option Issue.t) :=
  match PhaseService.currentPhase (phaseService this) with
  | Some issuesViewer =>
      match Issue.createPhaseBugReportingIssue (Some githubIssue) with
      | Returns issue => Returns (Some issue)
      | Throws e => Throws e
      end
  | _ => Returns None
  end.

(** [updateLocalStore(issueToUpdate)]: spreading an undefined store gives
    the empty object; reading [id] of an undefined issue throws. *)
Definition updateLocalStore (issueToUpdate : option Issue.t) : M t unit :=
  match issueToUpdate with
  | None => throw TypeError
  | Some issueToUpdate =>
      (let* this := get in
       let store := <[Issue.id issueToUpdate := issueToUpdate]> (default ∅ (issues this)) in
       modify (set_issues (Some store)) >>
       modify (set_issues_ (Object_values store)))%js
  end.

(** [deleteFromLocalStore(issueToDelete)]: destructuring an undefined store
    throws, and so does reading [id] of an undefined issue. *)
Definition deleteFromLocalStore (issueToDelete : option Issue.t) : M t unit :=
  (let* this := get in
   match issues this, issueToDelete with
   | Some store, Some issueToDelete =>
       let withoutIssueToRemove := delete (Issue.id issueToDelete) store in
       modify (set_issues (Some withoutIssueToRemove)) >>
       modify (set_issues_ (Object_values withoutIssueToRemove))
   | _, _ => throw TypeError
   end)%js.

(** [private createAndSaveIssueModel(githubIssue)] *)
Definition createAndSaveIssueModel (githubIssue : GithubIssue.t) : M t bool :=
  (let* this := get in
   let* issue := lift (createIssueModel this githubIssue) in
   updateLocalStore issue >>
   ret true)%js.

(** The two shapes of [Observable<Issue>] that [getIssue] returns:
    [of(v)], which hands [v] to its subscriber at once and asks the remote
    nothing, and the pipe of [getLatestIssue], which on subscription sends
    [githubService.fetchIssueGraphql(id)] and runs its callbacks when the
    remote answers. *)
Inductive IssueObservable :=
  | of_ (v : option Issue.t)
  | fetchIssueGraphql_pipe (id : N).

(** The remote requests a subscription to the observable sends. *)
Definition requests (o : IssueObservable) : list N :=
  match o with
  | of_ _ => []
  | fetchIssueGraphql_pipe id => [id]
  end.

(** [getLatestIssue(id)] *)
Definition getLatestIssue (id : N) : IssueObservable := fetchIssueGraphql_pipe id.

(** [getIssue(id)] *)
Definition getIssue (this : t) (id : N) : IssueObservable :=
  match issues this with
  | None => getLatestIssue id
  | Some store => of_ (store !! id)
  end.

(** [this.issues[id]] *)
Definition issues_at (id : N) : M t (option Issue.t) :=
  (let* this := get in
   match issues this with
   | None => throw TypeError
   | Some store => ret (store !! id)
   end)%js.

(** What the pipe of [getLatestIssue(id)] does with the notification of
    the remote, in the state the service has when it arrives: [map] on a
    response, [catchError] on an error of the remote or of the [map]
    callback. The result is what the pipe emits, or the error it ends
    with. *)
Definition getLatestIssue_notified (id : N) (notification : Result GithubIssue.t)
  : M t (option Issue.t) :=
  try_catch
    (match notification with
     | Returns response => createAndSaveIssueModel response >> issues_at id
     | Throws err => throw err
     end)%js
    (λ err, issues_at id).

(** [private deleteIssuesFromLocalStore(ids)]. For [of(v)] the subscriber
    runs at once; an exception it throws is reported by RxJS out of band
    and does not reach the loop. The result lists the ids whose
    subscription went to the remote instead: their subscriber runs when
    the remote answers. *)
Fixpoint deleteIssuesFromLocalStore (ids : list N) : M t (list N) :=
  match ids with
  | [] => ret []
  | id :: ids' =>
      (let* this := get in
       match getIssue this id with
       | of_ issue =>
           try_catch (deleteFromLocalStore issue) (λ _, ret tt) >>
           deleteIssuesFromLocalStore ids'
       | fetchIssueGraphql_pipe id' =>
           let* deferred := deleteIssuesFromLocalStore ids' in
           ret (id' :: deferred)
       end)%js
  end.

(** [private getOutdatedIssueIds(fetchedIssueIds)] *)
Definition getOutdatedIssueIds (this : t) (fetchedIssueIds : list N) : list N :=
  match issues this with
  | None => []
  | Some store =>
      if decide (length fetchedIssueIds = 0%nat) then []
      else
        let fetchedIssueIdsSet : gset N := list_to_set fetchedIssueIds in
        filter (λ issueId, issueId ∉ fetchedIssueIdsSet) (Object_keys store)
  end.

(** The first half of [private initializeData()]: the requests the switch
    on [IssuesFilter[currentPhase][role]] collects. [None] is the early
    [return of([])] of the [NO_ACCESS] and [default] cases. *)
Definition initializeData_calls (this : t) : Result (option (list ApiCall)) :=
  match UserService.currentUser (userService this),
        IssuesFilter (PhaseService.currentPhase (phaseService this)) with
  | Some currentUser, Some byRole =>
      match byRole (User.role currentUser) with
      | Some "FILTER_BY_CREATOR" =>
          Returns (Some [fetchIssuesGraphql {| creator := Some (User.loginId currentUser) |}])
      | Some "FILTER_BY_TEAM" =>
          match User.team currentUser with
          | None => Throws TypeError
          | Some team =>
              Returns (Some [fetchIssuesGraphqlByTeam
                               (createLabel "tutorial" (Some (Team.tutorialClassId team)))
                               (createLabel "team" (Some (Team.teamId team)))
                               {| creator := None |}])
          end
      | Some "FILTER_BY_TEAM_ASSIGNED" =>
          match User.allocatedTeams currentUser with
          | None => Throws TypeError
          | Some allocatedTeams =>
              Returns (Some (map (λ team,
                               fetchIssuesGraphqlByTeam
                                 (createLabel "tutorial" (Some (Team.tutorialClassId team)))
                                 (createLabel "team" (Some (Team.teamId team)))
                                 {| creator := None |}) allocatedTeams))
          end
      | Some "NO_FILTER" => Returns (Some [fetchIssuesGraphql {| creator := None |}])
      | _ => Returns None
      end
  | _, _ => Throws TypeError
  end.

(** The inner loop of the merge, over the issues of one filter. *)
Fixpoint saveIssues (issues : list GithubIssue.t) (fetchedIssueIds : list N)
  : M t (list N) :=
  match issues with
  | [] => ret fetchedIssueIds
  | issue :: issues' =>
      (let* this := get in
       let* model := lift (createIssueModel this issue) in
       let* id := match model with
                  | None => throw TypeError
                  | Some model => ret (Issue.id model)
                  end in
       createAndSaveIssueModel issue >>
       saveIssues issues' (fetchedIssueIds ++ [id]))%js
  end.

(** The outer loop, over the results of the filters. *)
Fixpoint saveIssuesByFilter (issuesByFilter : list (list GithubIssue.t))
    (fetchedIssueIds : list N) : M t (list N) :=
  match issuesByFilter with
  | [] => ret fetchedIssueIds
  | issues :: issuesByFilter' =>
      (let* fetchedIssueIds := saveIssues issues fetchedIssueIds in
       saveIssuesByFilter issuesByFilter' fetchedIssueIds)%js
  end.

(** The second half of [initializeData()]: the [map] callback that merges
    what [forkJoin] delivers into the local store. *)
Definition initializeData_merge (issuesByFilter : list (list GithubIssue.t))
  : M t (list Issue.t) :=
  (let* fetchedIssueIds := saveIssuesByFilter issuesByFilter [] in
   let* this := get in
   let outdatedIssueIds := getOutdatedIssueIds this fetchedIssueIds in
   deleteIssuesFromLocalStore outdatedIssueIds >>
   let* this := get in
   match issues this with
   | None => throw TypeError
   | Some store => ret (Object_values store)
   end)%js.

(** [reloadAllIssues()] returns the observable of [initializeData()]; what
    is known of it when it is returned is the list of requests it is made
    of. *)
Definition reloadAllIssues (this : t) : Result (option (list ApiCall)) :=
  initializeData_calls this.

(** [stopPollIssues()]: unsubscribing also ends the inner subscription, and
    ending a cycle that is in flight runs the callback of its [finalize],
    which lowers the loading flag. *)
Definition stopPollIssues (this : t) : t :=
  match issuesPollSubscription this with
  | Some sub =>
      let this :=
        match Subscription.inner sub with
        | Some _ => set_isLoading false this
        | None => this
        end in
      set_issuesPollSubscription None this
  | None => this
  end.

(** [startPollIssues()]. The timer delivers its first tick later, as an
    event of its own. *)
Definition startPollIssues (this : t) : t :=
  match issuesPollSubscription this with
  | None =>
      let this :=
        if decide (length (issues_ this) = 0%nat) then set_isLoading true this else this in
      set_issuesPollSubscription
        (Some {| Subscription.inner := None; Subscription.closed := false |}) this
  | Some _ => this
  end.

(** [reset(resetSessionId)] *)
Definition reset (resetSessionId : bool) (this : t) : t :=
  let this := if resetSessionId then set_sessionId None this else this in
  let this := set_issues None this in
  let this := set_issues_ [] this in
  let this := stopPollIssues this in
  set_isLoading false this.

(** *** The poll as a machine driven by events

    What reaches the subscription of [startPollIssues]: the calls of
    [startPollIssues], [stopPollIssues] and [reset], a tick of the timer,
    and the answer of the remote to the requests of the cycle in flight
    ([forkJoin] emits the batches of all filters, or fails with the first
    error). JavaScript runs each handler to completion, so an event is one
    step. *)
Inductive Event :=
  | Start
  | Stop
  | Reset (resetSessionId : bool)
  | Tick
  | Answer (notification : Result (list (list GithubIssue.t))).

(** A run of the service, with a record of what the poll did: [clock]
    numbers the ticks, [started] lists the ticks whose cycle was started,
    [inFlight] the cycles whose requests are out and not cancelled, and
    [merged] the cycles whose merge has run. Only [service] exists in the
    program; the rest is bookkeeping for the statements below. *)
Record Run := {
  service : t;
  clock : nat;
  started : list nat;
  inFlight : list nat;
  merged : list nat;
}.

(** [finalize(() => this.isLoading.next(false))] and the end of the inner
    subscription. *)
Definition cycleEnded (sub : Subscription.t) (this : t) : t :=
  set_issuesPollSubscription
    (Some {| Subscription.inner := None; Subscription.closed := Subscription.closed sub |})
    (set_isLoading false this).

(** [exhaustMap] receiving a tick: with an inner subscription it ignores
    the tick; without one it calls the projection [reloadAllIssues()] and
    subscribes to what that returns. A projection that throws ends the
    whole stream with its error. *)
Definition onTick (r : Run) : Run :=
  let tick := clock r in
  let this := service r in
  let r' (this' : t) (started' inFlight' : list nat) :=
    {| service := this'; clock := S tick; started := started';
       inFlight := inFlight'; merged := merged r |} in
  match issuesPollSubscription this with
  | None => r' this (started r) (inFlight r)
  | Some sub =>
      if Subscription.closed sub then r' this (started r) (inFlight r)
      else
        match Subscription.inner sub with
        | Some _ => r' this (started r) (inFlight r)
        | None =>
            match reloadAllIssues this with
            | Throws _ =>
                r' (set_issuesPollSubscription
                      (Some {| Subscription.inner := None; Subscription.closed := true |})
                      this)
                   (started r) (inFlight r)
            | Returns None | Returns (Some []) =>
                r' (cycleEnded sub this) (tick :: started r) (inFlight r)
            | Returns (Some (_ :: _)) =>
                r' (set_issuesPollSubscription
                      (Some {| Subscription.inner := Some tick;
                               Subscription.closed := false |}) this)
                   (tick :: started r) (tick :: inFlight r)
            end
        end
  end.

(** The inner pipe receiving the answer of the remote: the merge on a
    batch, [catchError(() => EMPTY)] on any error, then [finalize]. *)
Definition onAnswer (notification : Result (list (list GithubIssue.t))) (r : Run) : Run :=
  let this := service r in
  match issuesPollSubscription this with
  | Some sub =>
      match Subscription.inner sub with
      | Some cycle =>
          let ended (this' : t) (merged' : list nat) :=
            {| service := cycleEnded sub this'; clock := clock r; started := started r;
               inFlight := filter (λ c, c ≠ cycle) (inFlight r); merged := merged' |} in
          match notification with
          | Returns issuesByFilter =>
              ended (snd (initializeData_merge issuesByFilter this)) (cycle :: merged r)
          | Throws _ => ended this (merged r)
          end
      | None => r
      end
  | None => r
  end.

Definition step (e : Event) (r : Run) : Run :=
  match e with
  | Start =>
      {| service := startPollIssues (service r); clock := clock r;
         started := started r; inFlight := inFlight r; merged := merged r |}
  | Stop =>
      {| service := stopPollIssues (service r); clock := clock r;
         started := started r; inFlight := []; merged := merged r |}
  | Reset resetSessionId =>
      {| service := reset resetSessionId (service r); clock := clock r;
         started := started r; inFlight := []; merged := merged r |}
  | Tick => onTick r
  | Answer notification => onAnswer notification r
  end.

Definition run (events : list Event) (r : Run) : Run :=
  fold_left (λ r e, step e r) events r.

(** A service on which nothing has been called yet. *)
Definition fresh (users : UserService.t) (phases : PhaseService.t) : Run :=
  {| service := {| issues := None; issues_ := []; sessionId := None;
                   issueTeamFilter := "All Teams"; issuesPollSubscription := None;
                   isLoading := false; userService := users; phaseService := phases |};
     clock := 0; started := []; inFlight := []; merged := [] |}.

(** *** The rest of the class *)
Context `{!Responses}.

Definition set_issueTeamFilter (v : string) (this : t) : t :=
  {| issues := issues this; issues_ := issues_ this; sessionId := sessionId this;
     issueTeamFilter := v;
     issuesPollSubscription := issuesPollSubscription this;
     isLoading := isLoading this; userService := userService this;
     phaseService := phaseService this |}.

(** What the inner pipe of [pollIssue(issueId)] does with the notification
    of the remote: [map] builds the Issue, saves it and emits it; on an error
    of the remote or of the [map] callback, [catchError] goes on with the
    observable [getIssue(issueId)]. The result is the observable the pipe
    continues as, [of(issue)] standing for the emitted Issue. *)
Definition pollIssue_notified (issueId : N) (notification : Result GithubIssue.t)
  : M t IssueObservable :=
  try_catch
    (match notification with
     | Returns response =>
         let* this := get in
         let* issue := lift (createIssueModel this response) in
         updateLocalStore issue >>
         ret (of_ issue)
     | Throws err => throw err
     end)%js
    (λ err, let* this := get in ret (getIssue this issueId))%js.

(** The [map] callback of [deleteIssue(id)], on the response of
    [githubService.closeIssue(id)]; nothing catches what it throws. *)
Definition deleteIssue_notified (response : GithubIssue.t) : M t (option Issue.t) :=
  (let* this := get in
   let* deletedIssue := lift (createIssueModel this response) in
   deleteFromLocalStore deletedIssue >>
   ret deletedIssue)%js.

(** [hasTeamResponse(issueId)] *)
Definition hasTeamResponse (this : t) (issueId : N) : Result bool :=
  match issues this with
  | None => Throws TypeError
  | Some store =>
      match store !! issueId with
      | None => Throws TypeError
      | Some issue => Returns (Js.truthy (Issue.teamResponse issue))
      end
  end.

(** [getDuplicateIssuesFor(parentIssue)]: what the pipe makes of a value
    [issues] of [issues$]. *)
Definition getDuplicateIssuesFor (parentIssue : Issue.t) (issues : list Issue.t)
  : list Issue.t :=
  filter (λ issue, Issue.duplicateOf issue = Some (Issue.id parentIssue)) issues.

(** The assignment in the callbacks of [updateIssueWithComment] and
    [createTeamResponse]:
    [issue.githubComments = [comment, ...issue.githubComments.filter((c) => c.id !== comment.id)]];
    calling [filter] on an undefined list throws. *)
Definition withComment (comment : GithubComment.t) (issue : Issue.t) : Result Issue.t :=
  match Issue.githubComments issue with
  | None => Throws TypeError
  | Some githubComments =>
      Returns (Issue.set_githubComments
                 (Some (comment :: filter (λ c, GithubComment.id c ≠ GithubComment.id comment)
                                     githubComments)) issue)
  end.

(** The calls of [GithubService] that write a comment. *)
Inductive CommentApiCall :=
  | updateIssueComment (issueComment : IssueComment)
  | createIssueComment (id : N) (description : string).

(** [updateTesterResponse(issue, issueComment)] up to the two observables it
    hands to [forkJoin]: the comment call, and [updateIssue] of the clone with
    its status set to [STATUS.Done]. An array of tester responses, even an
    empty one, is truthy. *)
Definition updateTesterResponse_calls (this : t) (issue : Issue.t)
    (issueComment : IssueComment) : Result (CommentApiCall * Issue.t) :=
  match issues this with
  | None => Throws TypeError
  | Some store =>
      match store !! Issue.id issue with
      | None => Throws TypeError
      | Some stored =>
          let isTesterResponseExist := Issue.testerResponses stored in
          let commentApiToCall :=
            match isTesterResponseExist with
            | Some _ => updateIssueComment issueComment
            | None =>
                createIssueComment (Issue.id issue) (IssueComment_description issueComment)
            end in
          match Issue.clone (PhaseService.currentPhase (phaseService this)) issue with
          | Throws e => Throws e
          | Returns issueClone =>
              Returns (commentApiToCall, Issue.set_status (Some "Done") issueClone)
          end
      end
  end.

(** [setIssueTeamFilter(filterValue)] *)
Definition setIssueTeamFilter (filterValue : option string) (this : t) : t :=
  if Js.truthy filterValue then set_issueTeamFilter (default "" filterValue) this else this.

(** [setSessionId(sessionId)] *)
Definition setSessionId (sessionId : option string) (this : t) : t :=
  set_sessionId sessionId this.

(** [getIssueTeamFilter()] *)
Definition getIssueTeamFilter (this : t) : string := issueTeamFilter this.

(** *** The service as a machine driven by everything that writes to it

    Besides the events of the poll: the notifications of the remote to the
    pipes of [getLatestIssue], [pollIssue] and [deleteIssue], and the calls of
    the two setters. *)
Inductive Action :=
  | polled (e : Event)
  | latestIssueNotified (id : N) (notification : Result GithubIssue.t)
  | issuePollNotified (issueId : N) (notification : Result GithubIssue.t)
  | issueDeleted (response : GithubIssue.t)
  | issueTeamFilterSet (filterValue : option string)
  | sessionIdSet (sessionId : option string).

Definition withService (this' : t) (r : Run) : Run :=
  {| service := this'; clock := clock r; started := started r;
     inFlight := inFlight r; merged := merged r |}.

Definition perform (a : Action) (r : Run) : Run :=
  match a with
  | polled e => step e r
  | latestIssueNotified id notification =>
      withService (snd (getLatestIssue_notified id notification (service r))) r
  | issuePollNotified issueId notification =>
      withService (snd (pollIssue_notified issueId notification (service r))) r
  | issueDeleted response =>
      withService (snd (deleteIssue_notified response (service r))) r
  | issueTeamFilterSet filterValue =>
      withService (setIssueTeamFilter filterValue (service r)) r
  | sessionIdSet sessionId =>
      withService (setSessionId sessionId (service r)) r
  end.

Definition performAll (actions : list Action) (r : Run) : Run :=
  fold_left (λ r a, perform a r) actions r.
End with_collaborators.
End IssueService.

(** ** Sample data: concrete collaborators, records and stores *)
Module Sample.
Definition collaborators : Collaborators :=
  {| RawMilestone := string;
     Milestone := string;
     Milestone_new := λ m, m;
     Milestone_DefaultMilestone := "Without a milestone";
     moment_format_lll := default "Invalid date";
     IssueComment := GithubComment.t;
     TesterResponse := string;
     DisputeDetails := string |}.
#[local] Existing Instance collaborators.

(** A stand-in for the moderation parsers: one dispute per line of text,
    the line being its details. What a run of the poll or a label needs of
    them is nothing; the dispute updates only need some parser to exist. *)
Definition disputesOf (text : string) : list (@IssueDispute.t collaborators) :=
  map (λ line : string, @IssueDispute.Build_t collaborators "" line)
    (filter (λ line, line ≠ "") (Js.split HiddenData.isLineFeed text)).

Definition templates : @Templates collaborators :=
  {| TutorModerationIssueTemplate_new := λ githubIssue,
       {| TutorModerationIssueTemplate.description :=
            Some {| TemplateSection.content := GithubIssue.body githubIssue |};
          TutorModerationIssueTemplate.teamResponse := None;
          TutorModerationIssueTemplate.dispute :=
            Some {| TutorModerationIssueTemplate.disputes :=
                      map (λ d, IssueDispute.set_description (IssueDispute.details d) d)
                        (disputesOf (GithubIssue.body githubIssue)) |} |};
     TutorModerationTodoTemplate_new := λ comments,
       match comments with
       | comment :: _ =>
           {| TutorModerationTodoTemplate.moderation :=
                match disputesOf (GithubComment.body comment) with
                | [] => None
                | ds => Some {| TutorModerationTodoTemplate.disputesToResolve := ds |}
                end;
              TutorModerationTodoTemplate.comment := Some comment;
              TutorModerationTodoTemplate.parseFailure := false |}
       | [] =>
           {| TutorModerationTodoTemplate.moderation := None;
              TutorModerationTodoTemplate.comment := None;
              TutorModerationTodoTemplate.parseFailure := true |}
       end |}.

Definition record (number : N) (body : string) (labels : list string)
  : @GithubIssue.t collaborators :=
  {| GithubIssue.id := "I_" ; GithubIssue.number := number;
     GithubIssue.title := "A title"; GithubIssue.body := body;
     GithubIssue.created_at := Some "2024-01-01T00:00:00Z";
     GithubIssue.updated_at := Some "2024-01-02T00:00:00Z";
     GithubIssue.closed_at := None; GithubIssue.milestone := None;
     GithubIssue.state := "OPEN"; GithubIssue.issueOrPr := "Issue";
     GithubIssue.user_login := "tester"; GithubIssue.assignees := [];
     GithubIssue.labels := map (λ name, {| GithubLabel.name := name |}) labels;
     GithubIssue.comments := [] |}.

(** The record of the end-to-end example of the specification. *)
Definition bugReport : @GithubIssue.t collaborators :=
  record 1 (HiddenData.embedDataIntoString "desc" [("session", "abc")])
    ["severity.High"; "type.FunctionalityBug"].

Definition issue (number : N) : @Issue.t collaborators :=
  Issue.construct (record number "text" []).

Definition student : User.t :=
  {| User.role := "Student"; User.loginId := "tester"; User.team := None;
     User.allocatedTeams := None |}.

(** A service in the given phase holding the given store. *)
Definition serviceWith (phase : option Phase)
    (store : option (gmap N (@Issue.t collaborators)))
  : @IssueService.t collaborators :=
  {| IssueService.issues := store;
     IssueService.issues_ := from_option IssueService.Object_values [] store;
     IssueService.sessionId := None;
     IssueService.issueTeamFilter := "All Teams";
     IssueService.issuesPollSubscription := None;
     IssueService.isLoading := false;
     IssueService.userService := {| UserService.currentUser := Some student |};
     IssueService.phaseService := {| PhaseService.currentPhase := phase |} |}.

(** The store {1, 2, 3}. *)
Definition store123 : gmap N (@Issue.t collaborators) :=
  <[1%N := issue 1]> (<[2%N := issue 2]> (<[3%N := issue 3]> ∅)).

Definition team : Team.t :=
  {| Team.id := "CS2103T-W12-3"; Team.tutorialClassId := "CS2103T-W12"; Team.teamId := "3" |}.

(** A stand-in for the team-response parser and the two methods: the first
    comment is the response, a duplicate of the issue whose number is the
    comment's id; a dispute is done when its details say so. *)
Definition responses : @Responses collaborators :=
  {| TeamResponseTemplate_new := λ comments,
       match comments with
       | comment :: _ =>
           {| TeamResponseTemplate.parseFailure := false;
              TeamResponseTemplate.comment := Some comment;
              TeamResponseTemplate.teamResponse :=
                Some {| TemplateSection.content := GithubComment.body comment |};
              TeamResponseTemplate.duplicateOf :=
                Some {| TeamResponseTemplate.issueNumber := Some (GithubComment.id comment) |} |}
       | [] =>
           {| TeamResponseTemplate.parseFailure := true;
              TeamResponseTemplate.comment := None;
              TeamResponseTemplate.teamResponse := None;
              TeamResponseTemplate.duplicateOf := None |}
       end;
     IssueDispute_isDone := λ d, bool_decide (@IssueDispute.details collaborators d = "Done");
     IssueComment_description := GithubComment.body |}.

Definition dispute (description details : string) : @IssueDispute.t collaborators :=
  @IssueDispute.Build_t collaborators description details.

(** An Issue with two disputes, and a comment that resolves both. *)
Definition disputed : @Issue.t collaborators :=
  Issue.set_issueDisputes (Some [dispute "Team says" ""; dispute "Tester says" ""]) (issue 1).

Definition resolution : GithubComment.t :=
  {| GithubComment.id := 9; GithubComment.body := "Done" +:+ String "010" "Rejected" |}.

(** A moderation-phase record: two disputes in the body, and the comment that
    resolves them. *)
Definition moderated : @GithubIssue.t collaborators :=
  {| GithubIssue.id := "I_" ; GithubIssue.number := 1;
     GithubIssue.title := "A title";
     GithubIssue.body := "Team says" +:+ String "010" "Tester says";
     GithubIssue.created_at := Some "2024-01-01T00:00:00Z";
     GithubIssue.updated_at := Some "2024-01-02T00:00:00Z";
     GithubIssue.closed_at := None; GithubIssue.milestone := None;
     GithubIssue.state := "OPEN"; GithubIssue.issueOrPr := "Issue";
     GithubIssue.user_login := "tester"; GithubIssue.assignees := [];
     GithubIssue.labels := [];
     GithubIssue.comments := [resolution] |}.

(** A poll started with no phase configured, before the first tick. *)
Definition unconfigured : @IssueService.Run collaborators :=
  IssueService.step IssueService.Start
    (IssueService.fresh {| UserService.currentUser := Some student |}
       {| PhaseService.currentPhase := None |}).

(** A poll in the phase issuesViewer whose first cycle is in flight. *)
Definition polling : @IssueService.Run collaborators :=
  IssueService.run [IssueService.Start; IssueService.Tick]
    (IssueService.fresh {| UserService.currentUser := Some student |}
       {| PhaseService.currentPhase := Some issuesViewer |}).
End Sample.

(** ** Vocabulary of the statements *)

(** An Issue that carries only the base fields: every field that only a phase
    template or a later update fills in is undefined. *)
Definition onlyBaseFields `{Collaborators} (this : Issue.t) : Prop :=
  Issue.githubComments this = None ∧ Issue.teamAssigned this = None
  ∧ Issue.duplicateOf this = None ∧ Issue.teamResponse this = None
  ∧ Issue.testerResponses this = None ∧ Issue.testerDisagree this = None
  ∧ Issue.issueComment this = None ∧ Issue.issueDisputes this = None
  ∧ Issue.teamChosenSeverity this = None ∧ Issue.teamChosenType this = None
  ∧ Issue.teamAccepted this = None ∧ Issue.teamResponseError this = None
  ∧ Issue.testerResponseError this = None.

(** Every entry of the store sits under its own id. The store starts
    undefined and only [updateLocalStore], [deleteFromLocalStore] and [reset]
    assign it, which keeps this true. *)
Definition keyedById `{Collaborators} (this : IssueService.t) : Prop :=
  ∀ store, IssueService.issues this = Some store →
    map_Forall (λ k issue, Issue.id issue = k) store.

Definition isHyphen (c : ascii) : bool := Js.code c =? 45.

(** No code unit of [s] is a separator. *)
Fixpoint freeOf (sep : ascii → bool) (s : string) : bool :=
  match s with
  | EmptyString => true
  | String c s' => negb (sep c) && freeOf sep s'
  end.

(** An attribute is present when it holds a non-empty string. *)
Definition present (attribute : option string) (v : string) : Prop :=
  attribute = Some v ∧ v ≠ "".

(** The label ["<namespace>.<value>"]. *)
Definition label (namespace v : string) : string := namespace +:+ "." +:+ v.

(** The labels the specification gives to the attributes of an Issue: one
    per present attribute, the bare tokens of the two flags, and the pending
    count when it is strictly positive. *)
Definition attributeLabel `{Collaborators} (issue : Issue.t) (l : string) : Prop :=
  (∃ v, present (Issue.severity issue) v ∧ l = label "severity" v)
  ∨ (∃ v, present (Issue.type issue) v ∧ l = label "type" v)
  ∨ (∃ v, present (Issue.responseTag issue) v ∧ l = label "response" v)
  ∨ (Issue.duplicated issue = Some true ∧ l = "duplicate")
  ∨ (∃ v, present (Issue.status issue) v ∧ l = label "status" v)
  ∨ (∃ v, present (Issue.pending issue) v ∧ Js.ToNumberSign v = Js.Positive
          ∧ l = label "pending" v)
  ∨ (Issue.unsure issue = Some true ∧ l = "unsure").

(** A label of the team assignment: namespace tutorial or team. *)
Definition isTeamLabel (l : string) : bool :=
  String.prefix "tutorial." l || String.prefix "team." l.

(** The store after the upserts of a batch: each record, in the order
    fetched, saved under its number. *)
Definition upsert `{Collaborators} (store : gmap N Issue.t) (batch : list GithubIssue.t)
  : gmap N Issue.t :=
  foldl (λ store githubIssue,
           <[GithubIssue.number githubIssue := Issue.construct githubIssue]> store)
    store batch.

(** The service after it has replaced its store and published the new one. *)
Definition published `{Collaborators} (store : gmap N Issue.t) (this : IssueService.t)
  : IssueService.t :=
  IssueService.set_issues_ (IssueService.Object_values store)
    (IssueService.set_issues (Some store) this).

(** The positional rule for disputes: the i-th resolution gets the description
    of the i-th original. *)
Definition zippedByPosition `{Collaborators}
    (originals resolutions resolved : list IssueDispute.t) : Prop :=
  length resolved = length resolutions
  ∧ ∀ (i : nat) r, resolutions !! i = Some r →
      ∃ original, originals !! i = Some original
        ∧ resolved !! i
          = Some (IssueDispute.set_description (IssueDispute.description original) r).

(** The cycle of the poll that is in flight, if any: the inner subscription
    of the subscription the service keeps. *)
Definition activeCycle `{Collaborators} (this : IssueService.t) : option nat :=
  match IssueService.issuesPollSubscription this with
  | Some sub => Subscription.inner sub
  | None => None
  end.

(** What holds of the bookkeeping in every run: the cycles in flight are the
    one the subscription holds, and every cycle that was started, or is in
    flight, or was merged, is a tick that has fired and was started. *)
Definition pollInvariant `{Templates} (r : IssueService.Run) : Prop :=
  IssueService.inFlight r = option_list (activeCycle (IssueService.service r))
  ∧ (∀ cycle, cycle ∈ IssueService.started r → (cycle < IssueService.clock r)%nat)
  ∧ (∀ cycle, cycle ∈ IssueService.inFlight r → cycle ∈ IssueService.started r)
  ∧ (∀ cycle, cycle ∈ IssueService.merged r → cycle ∈ IssueService.started r).

(** Every code unit of [s] is white space. *)
Fixpoint isBlank (s : string) : bool :=
  match s with
  | EmptyString => true
  | String c s' => Js.isWhiteSpace c && isBlank s'
  end.

(** The two line feeds [formatText] appends. *)
Definition lineFeeds : string := String "010" (String "010" "").

(** A text as the two cleaning methods of the Issue leave it: the default
    sentence for no text and for the empty text, a blank text as it is, any
    other text with two line feeds appended. *)
Definition cleaned (defaultString : string) (text : Nullable string) : string :=
  match text with
  | value text =>
      if decide (text = "") then defaultString
      else if isBlank text then text else text +:+ lineFeeds
  | _ => defaultString
  end.

(** An Issue as the constructor leaves it. *)
Definition constructed `{Collaborators} (issue : Issue.t) : Prop :=
  ∃ githubIssue, issue = Issue.construct githubIssue.

(** What holds of the service whatever is done to it: the store is keyed by
    id, its entries are Issues as the constructor leaves them, the value of
    [issues$] is the list of the store's issues, and the team filter is not
    empty. *)
Definition consistent `{Collaborators} (this : IssueService.t) : Prop :=
  keyedById this
  ∧ (∀ store k issue,
       IssueService.issues this = Some store → store !! k = Some issue → constructed issue)
  ∧ IssueService.issues_ this
    = from_option IssueService.Object_values [] (IssueService.issues this)
  ∧ IssueService.issueTeamFilter this ≠ "".

(** Unfolds the monad of a method down to its state function. *)
Ltac run_monad :=
  unfold bind, ret, get, modify, lift, throw, try_catch in *; simpl in *.

(** * Properties *)

(** The primitives and the codec on a few inputs. *)
Example ToNumberSign_samples :
  map Js.ToNumberSign ["3"; "0"; ""; " 12 "; "-1"; "abc"; "1e-400"; "0x10"; ".5"; "."; "1.5e3"; "+Infinity"; "0x"; "1e"]
  = [Js.Positive; Js.Zero; Js.Zero; Js.Positive; Js.Negative; Js.NaN; Js.Zero;
     Js.Positive; Js.Positive; Js.NaN; Js.Positive; Js.Positive; Js.NaN; Js.NaN].
Proof. vm_compute. reflexivity. Qed.

Example split_samples :
  Js.split (λ c, Js.code c =? 45) "CS2103T-W12-3" = ["CS2103T"; "W12"; "3"]
  ∧ Js.split (λ c, Js.code c =? 45) "" = [""]
  ∧ Js.split (λ c, Js.code c =? 45) "a--" = ["a"; ""; ""]
  ∧ Js.trim (String "009" "  a b " +:+ String "010" (String "013" " ")) = "a b".
Proof. vm_compute. auto. Qed.

Example HiddenData_samples :
  HiddenData.embedDataIntoString "desc" [("session", "abc")] = "desc<!--session:abc-->"
  ∧ HiddenData.new "desc<!--session:abc-->"
    = {| HiddenData.originalStringWithoutHiddenData := "desc";
         HiddenData.data := [("session", "abc")] |}
  ∧ HiddenData.new (HiddenData.embedDataIntoString "a: b" [("session", "abc"); ("Version", "Web v1")])
    = {| HiddenData.originalStringWithoutHiddenData := "a: b";
         HiddenData.data := [("session", "abc"); ("Version", "Web v1")] |}
  ∧ HiddenData.new "plain" = {| HiddenData.originalStringWithoutHiddenData := "plain";
                                HiddenData.data := [] |}
  ∧ HiddenData.new "x<!--broken" = {| HiddenData.originalStringWithoutHiddenData := "x<!--broken";
                                      HiddenData.data := [] |}.
Proof. vm_compute. auto 6. Qed.

Section issue_properties.
Context `{Templates}.

Lemma formatText_value (text : string) :
  Issue.formatText (value text) = value text
  ∨ Issue.formatText (value text) = value (text +:+ String "010" (String "010" "")).
Proof. unfold Issue.formatText. case_match; auto. Qed.

(** The issue built from a record never remembers the record. *)
Lemma construct_githubIssue (githubIssue : GithubIssue.t) :
  Issue.githubIssue (Issue.construct githubIssue) = None.
Proof. reflexivity. Qed.

Lemma construct_onlyBaseFields (githubIssue : GithubIssue.t) :
  onlyBaseFields (Issue.construct githubIssue).
Proof. repeat split. Qed.

Lemma clone_undefined_record (phase : option Phase) (issue : Issue.t) :
  Issue.githubIssue issue = None → Issue.clone phase issue = Throws TypeError.
Proof.
  intros Hnone. unfold Issue.clone, Issue.createPhaseBugReportingIssue, Issue.new.
  rewrite Hnone. destruct phase as [[|]|]; reflexivity.
Qed.

Lemma createPhaseModerationIssue_githubIssue githubIssue teamData issue :
  Issue.createPhaseModerationIssue githubIssue teamData = Returns issue →
  Issue.githubIssue issue = None.
Proof.
  unfold Issue.createPhaseModerationIssue. simpl.
  repeat case_match; intros; simplify_eq; reflexivity.
Qed.

(** C5 (as the code has it). [clone(phase)] reads [this.githubIssue], which
    the constructor never assigns: for every phase, cloning an Issue that
    was built from a record, by the bug-reporting factory or by the
    moderation factory, runs the constructor on undefined and throws a
    TypeError instead of producing a fresh Issue. *)
Theorem clone_of_constructed_issue_throws
    (phase : option Phase) (githubIssue : GithubIssue.t) (teamData : option Team.t) :
  Issue.createPhaseBugReportingIssue (Some githubIssue)
    = Returns (Issue.construct githubIssue)
  ∧ Issue.clone phase (Issue.construct githubIssue) = Throws TypeError
  ∧ match Issue.createPhaseModerationIssue githubIssue teamData with
    | Returns issue => Issue.clone phase issue = Throws TypeError
    | Throws _ => True
    end.
Proof.
  split; [reflexivity|]. split.
  - apply clone_undefined_record, construct_githubIssue.
  - destruct (Issue.createPhaseModerationIssue githubIssue teamData) as [issue|e] eqn:Hm;
      [|exact I].
    eapply clone_undefined_record, createPhaseModerationIssue_githubIssue, Hm.
Qed.
End issue_properties.

Section description_properties.
Context `{Templates}.

Lemma append_two_newlines_not_desc (text : string) :
  text +:+ String "010" (String "010" "") ≠ "desc".
Proof.
  destruct text as [|c1 [|c2 [|c3 [|c4 [|c5 text]]]]];
    unfold String.app; simpl; intros Heq; simplify_eq.
Qed.

(** Whatever the visible text of the body, the description is not the bare
    text "desc": a text with a non-blank line gets two line feeds appended. *)
Lemma updateDescription_not_desc (visible : Nullable string) :
  Issue.updateDescription visible ≠ "desc".
Proof.
  unfold Issue.updateDescription.
  destruct visible as [| |text]; [discriminate..|].
  destruct (formatText_value text) as [Hf | Hf]; rewrite Hf; unfold Issue.orDefaultString.
  - destruct (String.eqb text "") eqn:Hempty; [discriminate|].
    case_match; [|discriminate].
    intros ->. vm_compute in Hf. discriminate.
  - case_match; [discriminate|]. case_match; [|discriminate].
    apply append_two_newlines_not_desc.
Qed.
End description_properties.

Section construction_properties.
Context `{Templates}.

(** C7 (amended). For a bug-report-phase record whose body decodes to the
    visible text "desc" and the hidden data {session: "abc"}, and whose
    labels are "severity.High" and "type.FunctionalityBug", the constructed
    Issue has severity "High", type "FunctionalityBug", duplicated false,
    keeps the hidden data, and has as description the visible text followed
    by two line feeds, which [formatText] appends to every text with a
    non-blank line. *)
Theorem bug_report_issue_end_to_end (githubIssue : GithubIssue.t) :
  HiddenData.new (GithubIssue.body githubIssue)
    = {| HiddenData.originalStringWithoutHiddenData := "desc";
         HiddenData.data := [("session", "abc")] |} →
  map GithubLabel.name (GithubIssue.labels githubIssue)
    = ["severity.High"; "type.FunctionalityBug"] →
  ∃ issue,
    Issue.createPhaseBugReportingIssue (Some githubIssue) = Returns issue
    ∧ Issue.description issue = "desc" +:+ String "010" (String "010" "")
    ∧ Issue.hiddenDataInDescription issue
      = {| HiddenData.originalStringWithoutHiddenData := "desc";
           HiddenData.data := [("session", "abc")] |}
    ∧ Issue.severity issue = Some "High"
    ∧ Issue.type issue = Some "FunctionalityBug"
    ∧ Issue.duplicated issue = Some false.
Proof.
  intros Hbody Hlabels. eexists. split; [reflexivity|]. simpl.
  rewrite Hbody. simpl. unfold GithubIssue.findLabel.
  destruct (GithubIssue.labels githubIssue) as [|[n1] [|[n2] [|? ?]]];
    simplify_eq/=.
  repeat split.
Qed.

(** C6 (amended). [createIssueModel] builds an Issue only in the phase
    issuesViewer, where it is the Issue of [createPhaseBugReportingIssue],
    which carries the base fields and none of the phase-specific ones; for
    an unset phase and for any other phase it returns undefined, without an
    error. *)
Theorem createIssueModel_by_phase (this : IssueService.t) (githubIssue : GithubIssue.t) :
  IssueService.createIssueModel this githubIssue
    = (if decide (PhaseService.currentPhase (IssueService.phaseService this)
                  = Some issuesViewer)
       then Returns (Some (Issue.construct githubIssue))
       else Returns None)
  ∧ Issue.createPhaseBugReportingIssue (Some githubIssue)
    = Returns (Issue.construct githubIssue)
  ∧ onlyBaseFields (Issue.construct githubIssue).
Proof.
  split; [|split; [reflexivity | apply construct_onlyBaseFields]].
  unfold IssueService.createIssueModel.
  destruct (PhaseService.currentPhase (IssueService.phaseService this)) as [[|name]|];
    case_decide; simplify_eq; reflexivity.
Qed.
End construction_properties.

Section closed_construction.
#[local] Existing Instance Sample.collaborators.
#[local] Existing Instance Sample.templates.

Lemma bug_report_issue_end_to_end_witness :
  ∃ issue,
    Issue.createPhaseBugReportingIssue (Some Sample.bugReport) = Returns issue
    ∧ Issue.description issue = "desc" +:+ String "010" (String "010" "")
    ∧ Issue.hiddenDataInDescription issue
      = {| HiddenData.originalStringWithoutHiddenData := "desc";
           HiddenData.data := [("session", "abc")] |}
    ∧ Issue.severity issue = Some "High"
    ∧ Issue.type issue = Some "FunctionalityBug"
    ∧ Issue.duplicated issue = Some false.
Proof.
  apply (bug_report_issue_end_to_end Sample.bugReport); reflexivity.
Defined.

(** The end-to-end example of the specification fails on its first
    equation: the description of the Issue built from the sample record is
    not "desc". *)
Lemma bug_report_description_is_not_desc :
  ¬ ∃ issue,
      Issue.createPhaseBugReportingIssue (Some Sample.bugReport) = Returns issue
      ∧ Issue.description issue = "desc"
      ∧ Issue.severity issue = Some "High"
      ∧ Issue.type issue = Some "FunctionalityBug"
      ∧ Issue.duplicated issue = Some false.
Proof.
  intros (issue & Hissue & Hdescription & _).
  injection Hissue as <-. vm_compute in Hdescription. discriminate.
Qed.

(** With the phase unset, no Issue comes out of [createIssueModel] for the
    sample record, degraded or not. *)
Lemma createIssueModel_unset_phase_no_issue :
  ¬ ∃ issue,
      IssueService.createIssueModel (Sample.serviceWith None None) Sample.bugReport
        = Returns (Some issue)
      ∧ onlyBaseFields issue.
Proof. intros (issue & Hissue & _). discriminate. Qed.
End closed_construction.

Section label_properties.
Context `{Templates}.

Lemma split_free (sep : ascii → bool) (s : string) :
  freeOf sep s → Js.split sep s = [s].
Proof.
  induction s as [|c s IH]; simpl; [done|].
  intros [Hc Hs]%andb_prop_elim. destruct (sep c); [done|].
  rewrite IH; done.
Qed.

Lemma split_separator (sep : ascii → bool) (a : string) (c : ascii) (s : string) :
  freeOf sep a → sep c = true →
  Js.split sep (a +:+ String c s) = a :: Js.split sep s.
Proof.
  intros Ha Hc. induction a as [|c' a IH]; unfold String.app; simpl.
  - rewrite Hc. done.
  - simpl in Ha. apply andb_prop_elim in Ha as [Hc' Ha].
    destruct (sep c'); [done|]. unfold String.app in IH. rewrite (IH Ha). done.
Qed.

(** Splitting a team identifier of the form a-b-c. *)
Lemma split_team_id (a b c : string) :
  freeOf isHyphen a → freeOf isHyphen b → freeOf isHyphen c →
  Js.split isHyphen (a +:+ "-" +:+ b +:+ "-" +:+ c) = [a; b; c].
Proof.
  intros Ha Hb Hc.
  change (a +:+ "-" +:+ b +:+ "-" +:+ c) with (a +:+ String "-" (b +:+ String "-" c)).
  rewrite (split_separator isHyphen a "-" _ Ha eq_refl).
  rewrite (split_separator isHyphen b "-" _ Hb eq_refl).
  rewrite (split_free _ _ Hc). done.
Qed.

Lemma push_optional {A} (c : bool) (x : A) (result : list A) :
  (if c then result ++ [x] else result) = result ++ (if c then [x] else []).
Proof. destruct c; [done|]. by rewrite app_nil_r. Qed.

Lemma push_optional_nested {A} (c d : bool) (x : A) (result : list A) :
  (if c then if d then result ++ [x] else result else result)
  = result ++ (if c && d then [x] else []).
Proof. destruct c, d; simpl; by rewrite ?app_nil_r. Qed.

Lemma elem_of_optional (c : bool) (x l : string) :
  l ∈ (if c then [x] else []) ↔ c = true ∧ l = x.
Proof.
  destruct c.
  - rewrite list_elem_of_singleton. intuition.
  - rewrite elem_of_nil. intuition discriminate.
Qed.

Lemma truthy_present (attribute : option string) :
  Js.truthy attribute = true ↔ ∃ v, present attribute v.
Proof.
  unfold Js.truthy, present. destruct attribute as [v|].
  - destruct (String.eqb_spec v "") as [->|Hv]; simpl; split.
    + discriminate.
    + intros (v & [Hsome Hv]). congruence.
    + eauto.
    + done.
  - split; [discriminate|]. intros (v & [? _]). discriminate.
Qed.

Lemma attribute_label (namespace : string) (attribute : option string) (l : string) :
  Js.truthy attribute = true ∧ l = IssueService.createLabel namespace attribute
  ↔ ∃ v, present attribute v ∧ l = label namespace v.
Proof.
  rewrite truthy_present. unfold present, IssueService.createLabel, label.
  split.
  - intros [(v & -> & Hv) ->]. exists v. done.
  - intros (v & [-> Hv] & ->). split; [exists v|]; done.
Qed.

Lemma flag_label (flag : option bool) :
  default false flag = true ↔ flag = Some true.
Proof. destruct flag as [[|]|]; simpl; split; congruence. Qed.

Lemma attributeLabel_not_team (issue : Issue.t) (l : string) :
  attributeLabel issue l → isTeamLabel l = false.
Proof.
  unfold attributeLabel, label.
  intros [(v & _ & ->)|[(v & _ & ->)|[(v & _ & ->)|[[_ ->]|[(v & _ & ->)|
         [(v & _ & _ & ->)|[_ ->]]]]]]]; reflexivity.
Qed.

(** The labels of the attributes, as the service appends them to what it
    has collected so far. *)
Lemma attribute_labels_pushed (this : IssueService.t) (issue : Issue.t)
    (teamLabels : list string) :
  (if decide (PhaseService.currentPhase (IssueService.phaseService this) ≠ Some issuesViewer)
   then match Issue.teamAssigned issue with
        | None => Throws TypeError
        | Some teamAssigned =>
            let studentTeam := Js.split isHyphen (Team.id teamAssigned) in
            Returns
              [IssueService.createLabel "tutorial"
                 (Some (Js.template (studentTeam !! 0%nat) +:+ "-"
                        +:+ Js.template (studentTeam !! 1%nat)));
               IssueService.createLabel "team" (studentTeam !! 2%nat)]
        end
   else Returns []) = Returns teamLabels →
  ∃ result,
    IssueService.createLabelsForIssue this issue = Returns (teamLabels ++ result)
    ∧ ∀ l, l ∈ result ↔ attributeLabel issue l.
Proof.
  intros Hteam. unfold IssueService.createLabelsForIssue.
  cbv zeta in *. change (λ c : ascii, Js.code c =? 45) with isHyphen. rewrite Hteam.
  eexists (
    (if Js.truthy (Issue.severity issue)
     then [IssueService.createLabel "severity" (Issue.severity issue)] else [])
    ++ (if Js.truthy (Issue.type issue)
        then [IssueService.createLabel "type" (Issue.type issue)] else [])
    ++ (if Js.truthy (Issue.responseTag issue)
        then [IssueService.createLabel "response" (Issue.responseTag issue)] else [])
    ++ (if default false (Issue.duplicated issue) then ["duplicate"] else [])
    ++ (if Js.truthy (Issue.status issue)
        then [IssueService.createLabel "status" (Issue.status issue)] else [])
    ++ (if Js.truthy (Issue.pending issue) && Js.isPositive (default "" (Issue.pending issue))
        then [IssueService.createLabel "pending" (Issue.pending issue)] else [])
    ++ (if default false (Issue.unsure issue) then ["unsure"] else [])).
  split.
  - rewrite push_optional_nested, !push_optional, <- !app_assoc. reflexivity.
  - intros l. clear Hteam. unfold attributeLabel.
    rewrite !elem_of_app, !elem_of_optional.
    rewrite <- !attribute_label, <- !flag_label.
    assert (Hpending :
      (∃ v, present (Issue.pending issue) v ∧ Js.ToNumberSign v = Js.Positive
            ∧ l = label "pending" v)
      ↔ (Js.truthy (Issue.pending issue) && Js.isPositive (default "" (Issue.pending issue))
         = true ∧ l = IssueService.createLabel "pending" (Issue.pending issue))).
    { rewrite andb_true_iff, truthy_present.
      unfold present, Js.isPositive, IssueService.createLabel, label. split.
      - intros (v & [-> Hv] & Hpos & ->). simpl. rewrite Hpos. eauto.
      - intros [[(v & -> & Hv) Hpos] ->]. simpl in *. exists v.
        destruct (Js.ToNumberSign v); try discriminate. auto. }
    rewrite Hpending. reflexivity.
Qed.
End label_properties.

Section label_theorem.
Context `{Templates}.

(** C8 (amended). The labels of an Issue are: "<namespace>.<value>" for
    each present attribute among severity, type, response and status; the
    bare tokens "duplicate" and "unsure" for the two flags; the pending
    label only when the pending count is strictly positive; and the pair
    tutorial.<a>-<b>, team.<c> obtained by splitting the team identifier
    a-b-c at its hyphens, which comes first in every phase other than the
    bug-report phase (issuesViewer) and is skipped entirely in the
    bug-report phase. *)
Theorem createLabelsForIssue_labels (this : IssueService.t) (issue : Issue.t) :
  (PhaseService.currentPhase (IssueService.phaseService this) = Some issuesViewer →
   ∃ result,
     IssueService.createLabelsForIssue this issue = Returns result
     ∧ (∀ l, l ∈ result ↔ attributeLabel issue l)
     ∧ (∀ l, l ∈ result → isTeamLabel l = false))
  ∧ (PhaseService.currentPhase (IssueService.phaseService this) ≠ Some issuesViewer →
     ∀ team a b c,
       Issue.teamAssigned issue = Some team →
       Team.id team = a +:+ "-" +:+ b +:+ "-" +:+ c →
       freeOf isHyphen a → freeOf isHyphen b → freeOf isHyphen c →
       ∃ result,
         IssueService.createLabelsForIssue this issue
           = Returns (label "tutorial" (a +:+ "-" +:+ b) :: label "team" c :: result)
         ∧ (∀ l, l ∈ result ↔ attributeLabel issue l)).
Proof.
  split.
  - intros Hphase.
    destruct (attribute_labels_pushed this issue []) as (result & Hresult & Hlabels).
    { rewrite Hphase. case_decide; [congruence|reflexivity]. }
    exists result. split; [exact Hresult|]. split; [exact Hlabels|].
    intros l Hl. eapply attributeLabel_not_team, Hlabels, Hl.
  - intros Hphase team a b c Hteam Hid Ha Hb Hc.
    destruct (attribute_labels_pushed this issue
                [label "tutorial" (a +:+ "-" +:+ b); label "team" c])
      as (result & Hresult & Hlabels).
    { case_decide; [|congruence]. rewrite Hteam, Hid.
      cbv zeta. rewrite (split_team_id a b c Ha Hb Hc). reflexivity. }
    exists result. split; [exact Hresult | exact Hlabels].
Qed.
End label_theorem.

Section closed_labels.
#[local] Existing Instance Sample.collaborators.
#[local] Existing Instance Sample.templates.

Lemma createLabelsForIssue_labels_witness :
  (∃ result,
     IssueService.createLabelsForIssue (Sample.serviceWith (Some issuesViewer) None)
       (Issue.construct Sample.bugReport) = Returns result
     ∧ (∀ l, l ∈ result ↔ attributeLabel (Issue.construct Sample.bugReport) l)
     ∧ (∀ l, l ∈ result → isTeamLabel l = false))
  ∧ (∃ result,
       IssueService.createLabelsForIssue (Sample.serviceWith None None)
         (Issue.set_teamAssigned (Some Sample.team) (Issue.construct Sample.bugReport))
       = Returns (label "tutorial" ("CS2103T" +:+ "-" +:+ "W12") :: label "team" "3" :: result)
       ∧ (∀ l, l ∈ result
               ↔ attributeLabel
                   (Issue.set_teamAssigned (Some Sample.team)
                      (Issue.construct Sample.bugReport)) l)).
Proof.
  split.
  - apply (proj1 (createLabelsForIssue_labels (Sample.serviceWith (Some issuesViewer) None)
                    (Issue.construct Sample.bugReport))).
    reflexivity.
  - apply (proj2 (createLabelsForIssue_labels (Sample.serviceWith None None)
                    (Issue.set_teamAssigned (Some Sample.team)
                       (Issue.construct Sample.bugReport)))
             ltac:(discriminate) Sample.team "CS2103T" "W12" "3");
      reflexivity.
Defined.

(** Outside the bug-report phase the pair of team labels is not skipped: with
    the phase unset, and with a phase other than issuesViewer, it is what the
    labels of an Issue with a team start with. *)
Lemma team_labels_emitted_outside_bug_report_phase :
  IssueService.createLabelsForIssue (Sample.serviceWith None None)
    (Issue.set_teamAssigned (Some Sample.team) (Sample.issue 1))
  = Returns ["tutorial.CS2103T-W12"; "team.3"]
  ∧ IssueService.createLabelsForIssue
      (Sample.serviceWith (Some (unknownPhase "phaseTeamResponse")) None)
      (Issue.set_teamAssigned (Some Sample.team) (Sample.issue 1))
    = Returns ["tutorial.CS2103T-W12"; "team.3"].
Proof. split; vm_compute; reflexivity. Qed.

Example createLabelsForIssue_bug_report_phase :
  IssueService.createLabelsForIssue (Sample.serviceWith (Some issuesViewer) None)
    (Issue.set_teamAssigned (Some Sample.team) (Issue.construct Sample.bugReport))
  = Returns ["severity.High"; "type.FunctionalityBug"].
Proof. vm_compute. reflexivity. Qed.
End closed_labels.

Section dispute_properties.
Context `{Templates}.

Lemma mapi_from_copyDescription (originals resolutions : list IssueDispute.t) (i : nat) :
  (i + length resolutions ≤ length originals)%nat →
  ∃ resolved,
    Js.mapi_from (Issue.copyDescription originals) i resolutions = Returns resolved
    ∧ length resolved = length resolutions
    ∧ ∀ (j : nat) r, resolutions !! j = Some r →
        ∃ original, originals !! (i + j)%nat = Some original
          ∧ resolved !! j
            = Some (IssueDispute.set_description (IssueDispute.description original) r).
Proof.
  revert i. induction resolutions as [|r resolutions IH]; intros i Hlen; simpl in *.
  - exists []. split; [done|]. split; [done|]. intros j r' Hj. done.
  - destruct (lookup_lt_is_Some_2 originals i) as [original Horiginal]; [lia|].
    unfold Issue.copyDescription at 1. rewrite Horiginal.
    destruct (IH (S i)) as (resolved & -> & Hlength & Hzip); [lia|].
    eexists. split; [reflexivity|]. split; [simpl; lia|].
    intros [|j] r' Hj; simpl in *.
    + simplify_eq. exists original. by rewrite Nat.add_0_r.
    + destruct (Hzip j r' Hj) as (original' & Horiginal' & Hresolved).
      exists original'. by rewrite Nat.add_succ_r.
Qed.

Lemma mapi_copyDescription (originals resolutions : list IssueDispute.t) :
  (length resolutions ≤ length originals)%nat →
  ∃ resolved,
    Js.mapi (Issue.copyDescription originals) resolutions = Returns resolved
    ∧ zippedByPosition originals resolutions resolved.
Proof.
  intros Hlen.
  destruct (mapi_from_copyDescription originals resolutions 0) as (resolved & ? & ? & ?);
    [lia|].
  exists resolved. done.
Qed.
End dispute_properties.

Section dispute_theorem.
Context `{Templates}.

(** C9 (amended). For an Issue with a dispute list and a comment whose moderation
    template has a moderation section with no more resolutions than the
    Issue has disputes, [updateDispute(comment)] runs the template on
    exactly that comment, sets the Issue's comment to the template's, and
    replaces the dispute list by the parsed resolutions, the i-th of which
    gets the description of the i-th dispute the Issue had before (by
    position, nothing else changing). Moderation-phase construction applies
    the same rule to the disputes of the issue body and the resolutions of
    the comments, when the template of the comments has both a moderation
    section and a comment. *)
Theorem updateDispute_zips_by_position :
  (∀ (this : Issue.t) (githubComment : GithubComment.t) disputes moderation,
      Issue.issueDisputes this = Some disputes →
      TutorModerationTodoTemplate.moderation (TutorModerationTodoTemplate_new [githubComment])
        = Some moderation →
      (length (TutorModerationTodoTemplate.disputesToResolve moderation)
       ≤ length disputes)%nat →
      ∃ resolved,
        Issue.updateDispute githubComment this
          = (Returns tt,
             Issue.set_issueDisputes (Some resolved)
               (Issue.set_issueComment
                  (TutorModerationTodoTemplate.comment
                     (TutorModerationTodoTemplate_new [githubComment])) this))
        ∧ zippedByPosition disputes
            (TutorModerationTodoTemplate.disputesToResolve moderation) resolved)
  ∧ (∀ (githubIssue : GithubIssue.t) teamData descriptionSection disputeSection
       moderation comment,
      TutorModerationIssueTemplate.description (TutorModerationIssueTemplate_new githubIssue)
        = Some descriptionSection →
      TutorModerationIssueTemplate.dispute (TutorModerationIssueTemplate_new githubIssue)
        = Some disputeSection →
      TutorModerationTodoTemplate.moderation
        (TutorModerationTodoTemplate_new (GithubIssue.comments githubIssue))
        = Some moderation →
      TutorModerationTodoTemplate.comment
        (TutorModerationTodoTemplate_new (GithubIssue.comments githubIssue))
        = Some comment →
      (length (TutorModerationTodoTemplate.disputesToResolve moderation)
       ≤ length (TutorModerationIssueTemplate.disputes disputeSection))%nat →
      ∃ issue resolved,
        Issue.createPhaseModerationIssue githubIssue teamData = Returns issue
        ∧ Issue.issueDisputes issue = Some resolved
        ∧ Issue.issueComment issue = Some comment
        ∧ zippedByPosition (TutorModerationIssueTemplate.disputes disputeSection)
            (TutorModerationTodoTemplate.disputesToResolve moderation) resolved).
Proof.
  split.
  - intros this githubComment disputes moderation Hdisputes Hmoderation Hlength.
    destruct (mapi_copyDescription disputes _ Hlength) as (resolved & Hmap & Hzip).
    exists resolved. split; [|exact Hzip].
    unfold Issue.updateDispute. run_monad.
    rewrite Hmoderation, Hdisputes. simpl. rewrite Hmap. reflexivity.
  - intros githubIssue teamData descriptionSection disputeSection moderation comment
      Hdescription Hdispute Hmoderation Hcomment Hlength.
    destruct (mapi_copyDescription _ _ Hlength) as (resolved & Hmap & Hzip).
    unfold Issue.createPhaseModerationIssue. simpl.
    rewrite Hdescription, Hdispute, Hmoderation, Hcomment, Hmap.
    eexists _, resolved. split; [reflexivity|]. repeat split; apply Hzip.
Qed.
End dispute_theorem.

Section closed_disputes.
#[local] Existing Instance Sample.collaborators.
#[local] Existing Instance Sample.templates.

Lemma updateDispute_zips_by_position_witness :
  (∃ resolved,
     Issue.updateDispute Sample.resolution Sample.disputed
     = (Returns tt,
        Issue.set_issueDisputes (Some resolved)
          (Issue.set_issueComment (Some Sample.resolution) Sample.disputed))
     ∧ zippedByPosition
         [Sample.dispute "Team says" ""; Sample.dispute "Tester says" ""]
         [Sample.dispute "" "Done"; Sample.dispute "" "Rejected"]
         resolved)
  ∧ (∃ issue resolved,
       Issue.createPhaseModerationIssue Sample.moderated (Some Sample.team) = Returns issue
       ∧ Issue.issueDisputes issue = Some resolved
       ∧ Issue.issueComment issue = Some Sample.resolution
       ∧ zippedByPosition
           [Sample.dispute "Team says" "Team says"; Sample.dispute "Tester says" "Tester says"]
           [Sample.dispute "" "Done"; Sample.dispute "" "Rejected"]
           resolved).
Proof.
  split.
  - refine (proj1 updateDispute_zips_by_position Sample.disputed Sample.resolution
              [Sample.dispute "Team says" ""; Sample.dispute "Tester says" ""]
              {| TutorModerationTodoTemplate.disputesToResolve :=
                   [Sample.dispute "" "Done"; Sample.dispute "" "Rejected"] |} _ _ _).
    + reflexivity.
    + reflexivity.
    + simpl. lia.
  - refine (proj2 updateDispute_zips_by_position Sample.moderated (Some Sample.team)
              {| TemplateSection.content := "Team says" +:+ String "010" "Tester says" |}
              {| TutorModerationIssueTemplate.disputes :=
                   [Sample.dispute "Team says" "Team says";
                    Sample.dispute "Tester says" "Tester says"] |}
              {| TutorModerationTodoTemplate.disputesToResolve :=
                   [Sample.dispute "" "Done"; Sample.dispute "" "Rejected"] |}
              Sample.resolution _ _ _ _ _).
    + reflexivity.
    + reflexivity.
    + reflexivity.
    + reflexivity.
    + simpl. lia.
Defined.

(** The rule does not hold for every comment. For the Issue with two
    disputes, a comment without a moderation section makes [updateDispute]
    throw a TypeError once it has replaced the Issue's comment, and the two
    disputes stay as they were, nothing being zipped; and for an Issue with
    one dispute, the comment with two resolutions makes it throw in the
    callback of the second, the one dispute staying as it was. *)
Lemma updateDispute_not_for_every_comment :
  Issue.issueDisputes Sample.disputed
    = Some [Sample.dispute "Team says" ""; Sample.dispute "Tester says" ""]
  ∧ Issue.updateDispute {| GithubComment.id := 9; GithubComment.body := "" |} Sample.disputed
    = (Throws TypeError,
       Issue.set_issueComment (Some {| GithubComment.id := 9; GithubComment.body := "" |})
         Sample.disputed)
  ∧ Issue.issueDisputes
      (snd (Issue.updateDispute {| GithubComment.id := 9; GithubComment.body := "" |}
              Sample.disputed))
    = Some [Sample.dispute "Team says" ""; Sample.dispute "Tester says" ""]
  ∧ Issue.updateDispute Sample.resolution
      (Issue.set_issueDisputes (Some [Sample.dispute "Team says" ""]) (Sample.issue 1))
    = (Throws TypeError,
       Issue.set_issueComment (Some Sample.resolution)
         (Issue.set_issueDisputes (Some [Sample.dispute "Team says" ""]) (Sample.issue 1)))
  ∧ Issue.issueDisputes
      (snd (Issue.updateDispute Sample.resolution
              (Issue.set_issueDisputes (Some [Sample.dispute "Team says" ""])
                 (Sample.issue 1))))
    = Some [Sample.dispute "Team says" ""].
Proof. repeat split; vm_compute; reflexivity. Qed.

Example updateDispute_sample :
  Issue.issueDisputes (snd (Issue.updateDispute Sample.resolution Sample.disputed))
  = Some [Sample.dispute "Team says" "Done"; Sample.dispute "Tester says" "Rejected"].
Proof. vm_compute. reflexivity. Qed.

(** Outside those conditions the update throws: with a comment that has
    no moderation section, and with more resolutions than disputes. *)
Example updateDispute_throws :
  fst (Issue.updateDispute {| GithubComment.id := 9; GithubComment.body := "" |}
         Sample.disputed)
  = Throws TypeError
  ∧ fst (Issue.updateDispute Sample.resolution
           (Issue.set_issueDisputes (Some [Sample.dispute "Team says" ""]) (Sample.issue 1)))
    = Throws TypeError.
Proof. split; vm_compute; reflexivity. Qed.
End closed_disputes.

Section read_properties.
Context `{Templates}.


(** C10. With the local store defined and without an entry for [id],
    [getIssue(id)] is [of(undefined)]: it emits the missing entry, sends no
    request, and throws nothing. *)
Theorem getIssue_missing_id_emits_undefined
    (this : IssueService.t) (id : N) (store : gmap N Issue.t) :
  IssueService.issues this = Some store →
  store !! id = None →
  IssueService.getIssue this id = IssueService.of_ None
  ∧ IssueService.requests (IssueService.getIssue this id) = [].
Proof.
  intros Hstore Hmissing. unfold IssueService.getIssue.
  rewrite Hstore, Hmissing. done.
Qed.
End read_properties.

Section closed_reads.
#[local] Existing Instance Sample.collaborators.
#[local] Existing Instance Sample.templates.


Lemma getIssue_missing_id_emits_undefined_witness :
  IssueService.getIssue (Sample.serviceWith (Some issuesViewer) (Some Sample.store123)) 4
    = IssueService.of_ None
  ∧ IssueService.requests
      (IssueService.getIssue (Sample.serviceWith (Some issuesViewer) (Some Sample.store123)) 4)
    = [].
Proof.
  apply (getIssue_missing_id_emits_undefined
           (Sample.serviceWith (Some issuesViewer) (Some Sample.store123)) 4
           Sample.store123).
  - reflexivity.
  - vm_compute. reflexivity.
Defined.
End closed_reads.

Section store_properties.
Context `{Templates}.
Implicit Types (this : IssueService.t) (store : gmap N Issue.t)
  (batch : list GithubIssue.t) (ids : list N).

Lemma elem_of_Object_keys store k :
  k ∈ IssueService.Object_keys store ↔ is_Some (store !! k).
Proof.
  unfold IssueService.Object_keys. rewrite merge_sort_Permutation.
  rewrite list_elem_of_fmap. split.
  - intros ([k' issue] & -> & Hin). apply elem_of_map_to_list in Hin. eauto.
  - intros [issue Hissue]. exists (k, issue). split; [done|].
    by apply elem_of_map_to_list.
Qed.

Lemma NoDup_Object_keys store : NoDup (IssueService.Object_keys store).
Proof.
  unfold IssueService.Object_keys. rewrite merge_sort_Permutation.
  apply NoDup_fst_map_to_list.
Qed.

Lemma published_published store store' this :
  published store' (published store this) = published store' this.
Proof. reflexivity. Qed.

Lemma issues_published store this :
  IssueService.issues (published store this) = Some store.
Proof. reflexivity. Qed.

(** *** The upserts *)

Lemma upsert_app store batch batch' :
  upsert store (batch ++ batch') = upsert (upsert store batch) batch'.
Proof. apply foldl_app. Qed.

Lemma upsert_lookup_other store batch k :
  k ∉ GithubIssue.number <$> batch → upsert store batch !! k = store !! k.
Proof.
  revert store. induction batch as [|githubIssue batch IH]; intros store Hk; [done|].
  rewrite fmap_cons, not_elem_of_cons in Hk. destruct Hk as [Hne Hk].
  simpl. rewrite (IH _ Hk). by rewrite lookup_insert_ne.
Qed.

(** Last fetch wins: the entry of a fetched id does not depend on the store
    the batch was merged into. *)
Lemma upsert_lookup_fetched store store' batch k :
  k ∈ GithubIssue.number <$> batch →
  upsert store batch !! k = upsert store' batch !! k.
Proof.
  revert store store'.
  induction batch as [|githubIssue batch IH]; intros store store' Hk.
  { by apply elem_of_nil in Hk. }
  simpl. destruct (decide (k ∈ GithubIssue.number <$> batch)) as [Hin|Hout].
  - by apply IH.
  - rewrite fmap_cons, elem_of_cons in Hk. destruct Hk as [->|Hk]; [|done].
    rewrite !(upsert_lookup_other _ _ _ Hout). by rewrite !lookup_insert_eq.
Qed.

Lemma upsert_lookup_is_Some store batch k :
  is_Some (upsert store batch !! k)
  ↔ is_Some (store !! k) ∨ k ∈ GithubIssue.number <$> batch.
Proof.
  revert store. induction batch as [|githubIssue batch IH]; intros store.
  - rewrite fmap_nil, elem_of_nil. simpl. tauto.
  - rewrite fmap_cons, elem_of_cons. simpl. rewrite IH.
    destruct (decide (GithubIssue.number githubIssue = k)) as [<-|Hne].
    + rewrite lookup_insert_eq. split; [auto|]. intros _. left. eauto.
    + rewrite lookup_insert_ne by done. split; [tauto|].
      intros [?|[->|?]]; tauto.
Qed.

Lemma upsert_keyed store batch :
  map_Forall (λ k issue, Issue.id issue = k) store →
  map_Forall (λ k issue, Issue.id issue = k) (upsert store batch).
Proof.
  revert store. induction batch as [|githubIssue batch IH]; intros store Hkeyed; [done|].
  simpl. apply IH. by apply map_Forall_insert_2.
Qed.

(** In the phase issuesViewer the two loops save the whole batch and collect
    the numbers of its records. *)
Lemma saveIssues_run this batch fetchedIssueIds :
  PhaseService.currentPhase (IssueService.phaseService this) = Some issuesViewer →
  IssueService.saveIssues batch fetchedIssueIds this
  = (Returns (fetchedIssueIds ++ (GithubIssue.number <$> batch)),
     match batch with
     | [] => this
     | _ => published (upsert (default ∅ (IssueService.issues this)) batch) this
     end).
Proof.
  revert this fetchedIssueIds.
  induction batch as [|githubIssue batch IH]; intros this fetchedIssueIds Hphase.
  { simpl. unfold ret. by rewrite app_nil_r. }
  simpl. unfold IssueService.createAndSaveIssueModel, IssueService.updateLocalStore,
    IssueService.createIssueModel.
  run_monad. rewrite Hphase. simpl. rewrite Hphase. simpl.
  match goal with |- IssueService.saveIssues _ _ ?this' = _ =>
    rewrite (IH this' _ Hphase) end.
  rewrite <- app_assoc. f_equal. destruct batch; reflexivity.
Qed.

Lemma saveIssuesByFilter_run this (issuesByFilter : list (list GithubIssue.t))
    fetchedIssueIds :
  PhaseService.currentPhase (IssueService.phaseService this) = Some issuesViewer →
  IssueService.saveIssuesByFilter issuesByFilter fetchedIssueIds this
  = (Returns (fetchedIssueIds ++ (GithubIssue.number <$> concat issuesByFilter)),
     match concat issuesByFilter with
     | [] => this
     | batch => published (upsert (default ∅ (IssueService.issues this)) batch) this
     end).
Proof.
  revert this fetchedIssueIds.
  induction issuesByFilter as [|batch issuesByFilter IH]; intros this fetchedIssueIds Hphase.
  { simpl. unfold ret. by rewrite app_nil_r. }
  simpl. unfold bind. rewrite (saveIssues_run _ _ _ Hphase).
  destruct batch as [|githubIssue batch].
  - simpl. rewrite app_nil_r. by apply IH.
  - rewrite IH by done. rewrite fmap_app, app_assoc. f_equal.
    destruct (concat issuesByFilter) as [|githubIssue' batch'] eqn:Hrest.
    + by rewrite app_nil_r.
    + rewrite published_published, issues_published. simpl default.
      rewrite <- upsert_app. reflexivity.
Qed.
End store_properties.

Section eviction_properties.
Context `{Templates}.
Implicit Types (this : IssueService.t) (store : gmap N Issue.t)
  (batch : list GithubIssue.t) (ids : list N).

Lemma evicted_lookup store ids k :
  foldl (λ store id, delete id store) store ids !! k
  = if decide (k ∈ ids) then None else store !! k.
Proof.
  revert store. induction ids as [|id ids IH]; intros store; simpl.
  - done.
  - rewrite IH. destruct (decide (k = id)) as [->|Hne].
    + rewrite lookup_delete_eq.
      rewrite (decide_True (P := id ∈ id :: ids)) by apply list_elem_of_here.
      by case_decide.
    + rewrite lookup_delete_ne by done.
      apply decide_ext. rewrite elem_of_cons. tauto.
Qed.

(** Deleting ids that are keys of a store keyed by id removes exactly them,
    and sends nothing to the remote. *)
Lemma deleteIssuesFromLocalStore_run this store ids :
  IssueService.issues this = Some store →
  map_Forall (λ k issue, Issue.id issue = k) store →
  NoDup ids →
  (∀ id, id ∈ ids → is_Some (store !! id)) →
  IssueService.deleteIssuesFromLocalStore ids this
  = (Returns [],
     match ids with
     | [] => this
     | _ => published (foldl (λ store id, delete id store) store ids) this
     end).
Proof.
  revert this store.
  induction ids as [|id ids IH]; intros this store Hstore Hkeyed Hnodup Hin; [done|].
  apply NoDup_cons in Hnodup as [Hid Hnodup].
  destruct (Hin id) as [issue Hissue]; [set_solver|].
  pose proof (Hkeyed id issue Hissue) as Hkey. simpl in Hkey.
  simpl. unfold IssueService.getIssue, IssueService.deleteFromLocalStore.
  run_monad. rewrite Hstore, Hissue. simpl. rewrite Hstore. simpl. rewrite Hkey.
  fold (published (delete id store) this).
  rewrite (IH (published (delete id store) this) (delete id store)).
  - f_equal. destruct ids; reflexivity.
  - reflexivity.
  - by apply map_Forall_delete.
  - done.
  - intros id' Hid'. rewrite lookup_delete_ne by set_solver. apply Hin. set_solver.
Qed.

(** The ids the eviction step selects. *)
Lemma elem_of_getOutdatedIssueIds this fetchedIssueIds k :
  k ∈ IssueService.getOutdatedIssueIds this fetchedIssueIds
  ↔ fetchedIssueIds ≠ []
    ∧ is_Some (default ∅ (IssueService.issues this) !! k)
    ∧ k ∉ fetchedIssueIds.
Proof.
  unfold IssueService.getOutdatedIssueIds.
  destruct (IssueService.issues this) as [store|]; simpl.
  - case_decide as Hlen.
    + apply nil_length_inv in Hlen as ->. rewrite elem_of_nil. tauto.
    + rewrite list_elem_of_filter, elem_of_Object_keys, elem_of_list_to_set.
      split; [|tauto]. intros [? ?]. split; [|done]. by intros ->.
  - rewrite elem_of_nil, lookup_empty. split; [done|]. intros (_ & [? ?] & _). done.
Qed.

Lemma NoDup_getOutdatedIssueIds this fetchedIssueIds :
  NoDup (IssueService.getOutdatedIssueIds this fetchedIssueIds).
Proof.
  unfold IssueService.getOutdatedIssueIds.
  destruct (IssueService.issues this); [|constructor].
  case_decide; [constructor|]. apply NoDup_filter, NoDup_Object_keys.
Qed.

Lemma getOutdatedIssueIds_nil this :
  IssueService.getOutdatedIssueIds this [] = [].
Proof.
  unfold IssueService.getOutdatedIssueIds. destruct (IssueService.issues this); done.
Qed.

Lemma getOutdatedIssueIds_undefined this fetchedIssueIds :
  IssueService.issues this = None →
  IssueService.getOutdatedIssueIds this fetchedIssueIds = [].
Proof. unfold IssueService.getOutdatedIssueIds. by intros ->. Qed.

Lemma keyedById_published store this :
  map_Forall (λ k issue, Issue.id issue = k) store →
  keyedById (published store this).
Proof. intros Hkeyed store' Hstore'. rewrite issues_published in Hstore'. by simplify_eq. Qed.

Lemma keyedById_default this :
  keyedById this →
  map_Forall (λ k issue, Issue.id issue = k) (default ∅ (IssueService.issues this)).
Proof.
  intros Hkeyed. destruct (IssueService.issues this) as [store|] eqn:Hstore; simpl.
  - by apply Hkeyed.
  - apply map_Forall_empty.
Qed.

(** The merge as a whole, in the phase issuesViewer: the service after the
    two loops, the ids the eviction step selects there, and the service
    after the eviction. *)
Lemma initializeData_merge_run this (issuesByFilter : list (list GithubIssue.t)) :
  PhaseService.currentPhase (IssueService.phaseService this) = Some issuesViewer →
  keyedById this →
  let fetched := GithubIssue.number <$> concat issuesByFilter in
  let saved := snd (IssueService.saveIssuesByFilter issuesByFilter [] this) in
  let outdated := IssueService.getOutdatedIssueIds saved fetched in
  saved = match concat issuesByFilter with
          | [] => this
          | batch => published (upsert (default ∅ (IssueService.issues this)) batch) this
          end
  ∧ snd (IssueService.initializeData_merge issuesByFilter this)
    = match outdated with
      | [] => saved
      | _ => published
               (foldl (λ store id, delete id store)
                  (default ∅ (IssueService.issues saved)) outdated) saved
      end.
Proof.
  intros Hphase Hkeyed fetched saved outdated.
  assert (Hrun := saveIssuesByFilter_run this issuesByFilter [] Hphase).
  assert (Hsaved : saved = match concat issuesByFilter with
          | [] => this
          | batch => published (upsert (default ∅ (IssueService.issues this)) batch) this
          end) by (subst saved; by rewrite Hrun).
  split; [exact Hsaved|].
  unfold IssueService.initializeData_merge. unfold bind at 1. rewrite Hrun.
  rewrite <- Hsaved. simpl app. fold fetched.
  unfold bind at 1, get at 1. fold outdated.
  destruct (IssueService.issues saved) as [store|] eqn:Hstore.
  - unfold bind at 1.
    rewrite (deleteIssuesFromLocalStore_run saved store outdated Hstore).
    + simpl default. destruct outdated; run_monad.
      * rewrite Hstore. reflexivity.
      * reflexivity.
    + destruct (concat issuesByFilter) as [|githubIssue batch].
      * rewrite Hsaved in Hstore. by apply Hkeyed.
      * rewrite Hsaved, issues_published in Hstore. simplify_eq.
        apply upsert_keyed, keyedById_default, Hkeyed.
    + apply NoDup_getOutdatedIssueIds.
    + intros id Hid. apply elem_of_getOutdatedIssueIds in Hid as (_ & Hsome & _).
      by rewrite Hstore in Hsome.
  - subst outdated. rewrite (getOutdatedIssueIds_undefined _ _ Hstore).
    run_monad. rewrite Hstore. reflexivity.
Qed.
End eviction_properties.

Section merge_properties.
Context `{Templates}.
Implicit Types (this : IssueService.t) (store : gmap N Issue.t)
  (batch : list GithubIssue.t) (ids : list N).

Lemma evicted_keyed store ids :
  map_Forall (λ k issue, Issue.id issue = k) store →
  map_Forall (λ k issue, Issue.id issue = k) (foldl (λ store id, delete id store) store ids).
Proof.
  revert store. induction ids as [|id ids IH]; intros store Hkeyed; [done|].
  simpl. apply IH. by apply map_Forall_delete.
Qed.

Lemma evicted_service_lookup this ids k :
  default ∅ (IssueService.issues
               match ids with
               | [] => this
               | _ => published (foldl (λ store id, delete id store)
                                   (default ∅ (IssueService.issues this)) ids) this
               end) !! k
  = if decide (k ∈ ids) then None else default ∅ (IssueService.issues this) !! k.
Proof.
  destruct ids as [|id ids]; [done|].
  rewrite issues_published. apply evicted_lookup.
Qed.

(** A merge of a batch that is not empty leaves exactly the batch: every
    fetched id with the entry the upserts gave it, and no other id. *)
Lemma initializeData_merge_nonempty this (issuesByFilter : list (list GithubIssue.t)) :
  PhaseService.currentPhase (IssueService.phaseService this) = Some issuesViewer →
  keyedById this →
  concat issuesByFilter ≠ [] →
  ∃ store,
    snd (IssueService.initializeData_merge issuesByFilter this) = published store this
    ∧ map_Forall (λ k issue, Issue.id issue = k) store
    ∧ ∀ k, store !! k
           = if decide (k ∈ GithubIssue.number <$> concat issuesByFilter)
             then upsert (default ∅ (IssueService.issues this)) (concat issuesByFilter) !! k
             else None.
Proof.
  intros Hphase Hkeyed Hbatch.
  destruct (initializeData_merge_run this issuesByFilter Hphase Hkeyed) as [Hsaved Hmerged].
  cbv zeta in *.
  set (fetched := GithubIssue.number <$> concat issuesByFilter) in *.
  set (prior := default ∅ (IssueService.issues this)) in *.
  assert (Hsaved' : snd (IssueService.saveIssuesByFilter issuesByFilter [] this)
                    = published (upsert prior (concat issuesByFilter)) this).
  { rewrite Hsaved. by destruct (concat issuesByFilter). }
  rewrite Hsaved' in Hmerged. clear Hsaved Hsaved'.
  set (outdated := IssueService.getOutdatedIssueIds _ fetched) in *.
  assert (Hfetched : fetched ≠ []).
  { subst fetched. by destruct (concat issuesByFilter). }
  exists (foldl (λ store id, delete id store) (upsert prior (concat issuesByFilter)) outdated).
  split; [|split].
  - rewrite Hmerged. by destruct outdated.
  - apply evicted_keyed, upsert_keyed, keyedById_default, Hkeyed.
  - intros k. rewrite evicted_lookup.
    assert (Hout : k ∈ outdated ↔ is_Some (prior !! k) ∧ k ∉ fetched).
    { subst outdated. rewrite elem_of_getOutdatedIssueIds, issues_published.
      simpl default. rewrite upsert_lookup_is_Some. fold fetched. tauto. }
    destruct (decide (k ∈ fetched)) as [Hin|Hnotin].
    + rewrite decide_False; [done|]. rewrite Hout. tauto.
    + case_decide as Hk; [done|].
      rewrite upsert_lookup_other by done.
      destruct (prior !! k) eqn:Hprior; [|done].
      exfalso. apply Hk, Hout. eauto.
Qed.

(** A merge of an empty batch changes nothing. *)
Lemma initializeData_merge_empty this (issuesByFilter : list (list GithubIssue.t)) :
  PhaseService.currentPhase (IssueService.phaseService this) = Some issuesViewer →
  keyedById this →
  concat issuesByFilter = [] →
  snd (IssueService.saveIssuesByFilter issuesByFilter [] this) = this
  ∧ snd (IssueService.initializeData_merge issuesByFilter this) = this.
Proof.
  intros Hphase Hkeyed Hbatch.
  destruct (initializeData_merge_run this issuesByFilter Hphase Hkeyed) as [Hsaved Hmerged].
  rewrite Hbatch in *. rewrite Hsaved in *.
  by rewrite fmap_nil, getOutdatedIssueIds_nil in Hmerged.
Qed.

(** Outside the phase issuesViewer no Issue is built: the merge stops at
    the first record, before it has touched the store. *)
Lemma saveIssues_other_phase this batch fetchedIssueIds :
  PhaseService.currentPhase (IssueService.phaseService this) ≠ Some issuesViewer →
  IssueService.saveIssues batch fetchedIssueIds this
  = (match batch with [] => Returns fetchedIssueIds | _ => Throws TypeError end, this).
Proof.
  intros Hphase. destruct batch as [|githubIssue batch]; [done|].
  simpl. unfold IssueService.createIssueModel. run_monad.
  destruct (PhaseService.currentPhase (IssueService.phaseService this)) as [[|name]|];
    done.
Qed.

Lemma initializeData_merge_other_phase this (issuesByFilter : list (list GithubIssue.t)) :
  PhaseService.currentPhase (IssueService.phaseService this) ≠ Some issuesViewer →
  snd (IssueService.initializeData_merge issuesByFilter this) = this.
Proof.
  intros Hphase. unfold IssueService.initializeData_merge.
  assert (Hloops : ∀ fetchedIssueIds,
    IssueService.saveIssuesByFilter issuesByFilter fetchedIssueIds this
    = (match concat issuesByFilter with
       | [] => Returns fetchedIssueIds
       | _ => Throws TypeError
       end, this)).
  { induction issuesByFilter as [|batch issuesByFilter IH]; intros fetchedIssueIds; [done|].
    simpl. unfold bind. rewrite (saveIssues_other_phase _ _ _ Hphase).
    destruct batch; [apply IH | done]. }
  unfold bind at 1. rewrite Hloops.
  destruct (concat issuesByFilter); [|done].
  run_monad. rewrite getOutdatedIssueIds_nil. simpl.
  by destruct (IssueService.issues this).
Qed.
End merge_properties.

Section merge_theorems.
Context `{Templates}.

(** C1. A merge first upserts every fetched record under its id and then
    evicts exactly the ids that the prior store had and the fetch batch
    does not have, so that after a merge of a batch that is not empty the
    ids of the store are exactly the fetched ids (store {1,2,3} and batch
    {1,2} leave {1,2}). When the fetch batch is empty, or the prior store
    is undefined, the eviction step selects no id and leaves the store as
    the upserts left it; an empty batch leaves the service as it was. (In
    the phase issuesViewer, for a store whose entries sit under their own
    ids.) *)
Theorem merge_evicts_exactly_the_missing
    (this : IssueService.t) (issuesByFilter : list (list GithubIssue.t)) :
  PhaseService.currentPhase (IssueService.phaseService this) = Some issuesViewer →
  keyedById this →
  let prior := default ∅ (IssueService.issues this) in
  let fetched := GithubIssue.number <$> concat issuesByFilter in
  let saved := snd (IssueService.saveIssuesByFilter issuesByFilter [] this) in
  let outdated := IssueService.getOutdatedIssueIds saved fetched in
  let merged := snd (IssueService.initializeData_merge issuesByFilter this) in
  (∀ k, default ∅ (IssueService.issues saved) !! k
        = upsert prior (concat issuesByFilter) !! k)
  ∧ (∀ k, k ∈ outdated ↔ fetched ≠ [] ∧ is_Some (prior !! k) ∧ k ∉ fetched)
  ∧ (∀ k, default ∅ (IssueService.issues merged) !! k
          = if decide (k ∈ outdated) then None
            else default ∅ (IssueService.issues saved) !! k)
  ∧ (fetched ≠ [] →
     ∃ store, IssueService.issues merged = Some store
              ∧ dom store = list_to_set fetched)
  ∧ (fetched = [] ∨ IssueService.issues this = None → outdated = [] ∧ merged = saved)
  ∧ (fetched = [] → merged = this).
Proof.
  intros Hphase Hkeyed prior fetched saved outdated merged.
  destruct (initializeData_merge_run this issuesByFilter Hphase Hkeyed) as [Hsaved Hmerged].
  fold fetched saved in Hsaved, Hmerged. fold outdated merged in Hmerged. fold prior in Hsaved.
  assert (Hupserts : ∀ k, default ∅ (IssueService.issues saved) !! k
                          = upsert prior (concat issuesByFilter) !! k).
  { intros k. rewrite Hsaved. by destruct (concat issuesByFilter). }
  assert (Houtdated : ∀ k, k ∈ outdated ↔ fetched ≠ [] ∧ is_Some (prior !! k) ∧ k ∉ fetched).
  { intros k. unfold outdated. rewrite elem_of_getOutdatedIssueIds, Hupserts.
    rewrite upsert_lookup_is_Some. fold fetched. tauto. }
  assert (Hnone : fetched = [] ∨ IssueService.issues this = None → outdated = []).
  { intros Hcase. apply elem_of_nil_inv. intros k [Hfetched [[issue Hk] _]]%Houtdated.
    destruct Hcase as [Hempty|Hundefined]; [done|].
    unfold prior in Hk. by rewrite Hundefined in Hk. }
  split; [exact Hupserts|]. split; [exact Houtdated|]. split; [|split; [|split]].
  - intros k. rewrite Hmerged. apply evicted_service_lookup.
  - intros Hfetched.
    destruct (initializeData_merge_nonempty this issuesByFilter Hphase Hkeyed)
      as (store & Hstore & _ & Hlookup).
    { intros Hbatch. apply Hfetched. unfold fetched. by rewrite Hbatch. }
    exists store. split; [unfold merged; by rewrite Hstore|].
    apply set_eq. intros k. rewrite elem_of_dom, elem_of_list_to_set, Hlookup.
    fold fetched. case_decide as Hk.
    + split; [done|]. intros _.
      apply upsert_lookup_is_Some. by right.
    + split; [by intros [? ?] | done].
  - intros Hcase. split; [by apply Hnone|]. rewrite Hmerged. by rewrite (Hnone Hcase).
  - intros Hfetched. apply fmap_nil_inv in Hfetched.
    by apply initializeData_merge_empty.
Qed.

(** C4. Merging the same fetch batch a second time leaves the service,
    and so the store with all its entries, exactly as the first merge left
    it, and the eviction step of the second merge selects no id. *)
Theorem merge_twice_same_as_once
    (this : IssueService.t) (issuesByFilter : list (list GithubIssue.t)) :
  keyedById this →
  let fetched := GithubIssue.number <$> concat issuesByFilter in
  let once := snd (IssueService.initializeData_merge issuesByFilter this) in
  let twice := snd (IssueService.initializeData_merge issuesByFilter once) in
  twice = once
  ∧ IssueService.issues twice = IssueService.issues once
  ∧ (PhaseService.currentPhase (IssueService.phaseService this) = Some issuesViewer →
     IssueService.getOutdatedIssueIds
       (snd (IssueService.saveIssuesByFilter issuesByFilter [] once)) fetched = []).
Proof.
  intros Hkeyed fetched once twice.
  assert (Hgoal : twice = once
    ∧ (PhaseService.currentPhase (IssueService.phaseService this) = Some issuesViewer →
       IssueService.getOutdatedIssueIds
         (snd (IssueService.saveIssuesByFilter issuesByFilter [] once)) fetched = []));
    [|by destruct Hgoal as [-> ?]].
  destruct (decide (PhaseService.currentPhase (IssueService.phaseService this)
                    = Some issuesViewer)) as [Hphase|Hphase].
  2:{ assert (Honce : once = this) by by apply initializeData_merge_other_phase.
      unfold twice. rewrite Honce. split; [|done].
      by apply initializeData_merge_other_phase. }
  destruct (decide (concat issuesByFilter = [])) as [Hbatch|Hbatch].
  { destruct (initializeData_merge_empty this issuesByFilter Hphase Hkeyed Hbatch)
      as [Hsaved Honce].
    unfold twice. fold once in Honce. rewrite Honce. fold once. rewrite Honce.
    split; [done|]. intros _. rewrite Hsaved. unfold fetched.
    rewrite Hbatch. apply getOutdatedIssueIds_nil. }
  destruct (initializeData_merge_nonempty this issuesByFilter Hphase Hkeyed Hbatch)
    as (store & Honce & Hstorekeyed & Hstore).
  fold once fetched in Honce, Hstore.
  assert (Hphase' : PhaseService.currentPhase (IssueService.phaseService once)
                    = Some issuesViewer) by by rewrite Honce.
  assert (Hkeyed' : keyedById once)
    by (rewrite Honce; by apply keyedById_published).
  assert (Hsame : upsert store (concat issuesByFilter) = store).
  { apply map_eq. intros k. rewrite (Hstore k). case_decide as Hk.
    - by apply upsert_lookup_fetched.
    - rewrite upsert_lookup_other by done. rewrite Hstore. by rewrite decide_False. }
  destruct (initializeData_merge_run once issuesByFilter Hphase' Hkeyed')
    as [Hsaved Hmerged].
  fold fetched twice in Hmerged.
  assert (Hsaved' : snd (IssueService.saveIssuesByFilter issuesByFilter [] once) = once).
  { rewrite Hsaved. destruct (concat issuesByFilter) as [|githubIssue batch] eqn:Hconcat;
      [done|].
    rewrite Honce at 1 2. rewrite issues_published. simpl default.
    rewrite Hsame. by rewrite published_published. }
  rewrite Hsaved' in Hmerged |- *.
  assert (Hnone : IssueService.getOutdatedIssueIds once fetched = []).
  { apply elem_of_nil_inv. intros k (_ & [issue Hk] & Hnotin)%elem_of_getOutdatedIssueIds.
    rewrite Honce, issues_published in Hk. simpl in Hk.
    rewrite Hstore, decide_False in Hk; done. }
  rewrite Hnone in Hmerged. done.
Qed.

(** The invariant of the store is kept by a merge, and holds of a service
    that was never touched. *)
Lemma initializeData_merge_keyed
    (this : IssueService.t) (issuesByFilter : list (list GithubIssue.t)) :
  keyedById this →
  keyedById (snd (IssueService.initializeData_merge issuesByFilter this)).
Proof.
  intros Hkeyed.
  destruct (decide (PhaseService.currentPhase (IssueService.phaseService this)
                    = Some issuesViewer)) as [Hphase|Hphase].
  2:{ by rewrite initializeData_merge_other_phase. }
  destruct (decide (concat issuesByFilter = [])) as [Hbatch|Hbatch].
  - by rewrite (proj2 (initializeData_merge_empty this issuesByFilter Hphase Hkeyed Hbatch)).
  - destruct (initializeData_merge_nonempty this issuesByFilter Hphase Hkeyed Hbatch)
      as (store & -> & Hstorekeyed & _).
    by apply keyedById_published.
Qed.
End merge_theorems.

Section closed_merges.
#[local] Existing Instance Sample.collaborators.
#[local] Existing Instance Sample.templates.

Lemma merge_evicts_exactly_the_missing_witness :
  ∃ store,
    IssueService.issues
      (snd (IssueService.initializeData_merge
              [[Sample.record 1 "text" []; Sample.record 2 "text" []]]
              (Sample.serviceWith (Some issuesViewer) (Some Sample.store123))))
    = Some store
    ∧ dom store = list_to_set [1%N; 2%N].
Proof.
  refine (proj1 (proj2 (proj2 (proj2
    (merge_evicts_exactly_the_missing
       (Sample.serviceWith (Some issuesViewer) (Some Sample.store123))
       [[Sample.record 1 "text" []; Sample.record 2 "text" []]] eq_refl _)))) _).
  - intros store Hstore. injection Hstore as <-.
    apply (bool_decide_unpack _). vm_compute. exact I.
  - discriminate.
Defined.

Lemma merge_twice_same_as_once_witness :
  snd (IssueService.initializeData_merge
         [[Sample.record 1 "text" []; Sample.record 2 "text" []]]
         (snd (IssueService.initializeData_merge
                 [[Sample.record 1 "text" []; Sample.record 2 "text" []]]
                 (Sample.serviceWith (Some issuesViewer) (Some Sample.store123)))))
  = snd (IssueService.initializeData_merge
           [[Sample.record 1 "text" []; Sample.record 2 "text" []]]
           (Sample.serviceWith (Some issuesViewer) (Some Sample.store123))).
Proof.
  refine (proj1 (merge_twice_same_as_once
                   (Sample.serviceWith (Some issuesViewer) (Some Sample.store123))
                   [[Sample.record 1 "text" []; Sample.record 2 "text" []]] _)).
  intros store Hstore. injection Hstore as <-.
  apply (bool_decide_unpack _). vm_compute. exact I.
Defined.

(** The example of the specification, by running the merge: store {1,2,3}
    and batch {1,2} leave the store {1,2}, and publish its two issues; an
    empty batch leaves {1,2,3}; a first fetch into an undefined store keeps
    all it fetched. *)
Example merge_samples :
  IssueService.Object_keys
    <$> IssueService.issues
          (snd (IssueService.initializeData_merge
                  [[Sample.record 1 "text" []; Sample.record 2 "text" []]]
                  (Sample.serviceWith (Some issuesViewer) (Some Sample.store123))))
  = Some [1%N; 2%N]
  ∧ fst (IssueService.initializeData_merge
           [[Sample.record 1 "text" []; Sample.record 2 "text" []]]
           (Sample.serviceWith (Some issuesViewer) (Some Sample.store123)))
    = Returns [Sample.issue 1; Sample.issue 2]
  ∧ IssueService.Object_keys
      <$> IssueService.issues
            (snd (IssueService.initializeData_merge [[]]
                    (Sample.serviceWith (Some issuesViewer) (Some Sample.store123))))
    = Some [1%N; 2%N; 3%N]
  ∧ IssueService.Object_keys
      <$> IssueService.issues
            (snd (IssueService.initializeData_merge
                    [[Sample.record 5 "text" []]; [Sample.record 4 "text" []]]
                    (Sample.serviceWith (Some issuesViewer) None)))
    = Some [4%N; 5%N]
  ∧ fst (IssueService.initializeData_merge [[]]
           (Sample.serviceWith (Some issuesViewer) None))
    = Throws TypeError.
Proof. vm_compute. repeat split. Qed.
End closed_merges.

Section poll_properties.
Context `{Templates}.
Implicit Types (r : IssueService.Run) (e : IssueService.Event)
  (events : list IssueService.Event).

Lemma pollInvariant_fresh users phases : pollInvariant (IssueService.fresh users phases).
Proof. repeat split; intros cycle Hin; by apply elem_of_nil in Hin. Qed.

Lemma clock_step e r : (IssueService.clock r ≤ IssueService.clock (IssueService.step e r))%nat.
Proof.
  destruct e; simpl; try lia.
  - unfold IssueService.onTick. repeat case_match; simpl; lia.
  - unfold IssueService.onAnswer. repeat case_match; simpl; lia.
Qed.

(** A step starts at most the cycle of the tick it handles. *)
Lemma started_step e r cycle :
  cycle ∈ IssueService.started (IssueService.step e r) →
  cycle ∈ IssueService.started r ∨ (e = IssueService.Tick ∧ cycle = IssueService.clock r).
Proof.
  destruct e; simpl; auto.
  - unfold IssueService.onTick. repeat case_match; simpl; auto;
      rewrite elem_of_cons; intros [->|?]; auto.
  - unfold IssueService.onAnswer. repeat case_match; simpl; auto.
Qed.

Lemma started_run events r cycle :
  cycle ∈ IssueService.started (IssueService.run events r) →
  cycle ∈ IssueService.started r ∨ (IssueService.clock r ≤ cycle)%nat.
Proof.
  revert r. induction events as [|e events IH]; intros r Hin; [by left|].
  apply IH in Hin as [Hin|Hle].
  - apply started_step in Hin as [Hin|[_ ->]]; auto.
  - right. pose proof (clock_step e r). lia.
Qed.

Lemma pollInvariant_step e r : pollInvariant r → pollInvariant (IssueService.step e r).
Proof.
  intros (Hflight & Hclock & Hflightstarted & Hmerged).
  unfold pollInvariant, activeCycle in *.
  destruct e as [| |resetSessionId| |notification]; simpl.
  - (* Start *)
    unfold IssueService.startPollIssues.
    destruct (IssueService.issuesPollSubscription (IssueService.service r)) as [sub|] eqn:Hsub;
      simpl; [by rewrite Hsub|].
    repeat split; done.
  - (* Stop *)
    unfold IssueService.stopPollIssues.
    destruct (IssueService.issuesPollSubscription (IssueService.service r)) as [sub|] eqn:Hsub;
      simpl.
    + repeat split; try done. intros cycle Hin. by apply elem_of_nil in Hin.
    + rewrite Hsub. repeat split; try done. intros cycle Hin. by apply elem_of_nil in Hin.
  - (* Reset *)
    unfold IssueService.reset, IssueService.stopPollIssues. simpl.
    destruct (IssueService.issuesPollSubscription (IssueService.service r)) as [sub|] eqn:Hsub;
      destruct resetSessionId;
      unfold IssueService.set_isLoading, IssueService.set_issuesPollSubscription,
        IssueService.set_issues_, IssueService.set_issues, IssueService.set_sessionId;
      simpl; rewrite ?Hsub;
      repeat split; try done; try (intros cycle Hin; by apply elem_of_nil in Hin).
  - (* Tick *)
    unfold IssueService.onTick.
    assert (Hlater : ∀ cycle, cycle ∈ IssueService.started r →
              (cycle < S (IssueService.clock r))%nat)
      by (intros cycle Hin; specialize (Hclock cycle Hin); lia).
    assert (Hnew : ∀ cycle, cycle ∈ IssueService.clock r :: IssueService.started r →
              (cycle < S (IssueService.clock r))%nat)
      by (intros cycle [->|Hin]%elem_of_cons; [lia | by apply Hlater]).
    destruct (IssueService.issuesPollSubscription (IssueService.service r)) as [sub|] eqn:Hsub;
      simpl; [|by rewrite Hsub].
    destruct (Subscription.closed sub) eqn:Hclosed; simpl; [by rewrite Hsub|].
    simpl in Hflight.
    destruct (Subscription.inner sub) as [cycle|] eqn:Hinner; simpl.
    { rewrite Hsub, Hinner. done. }
    rewrite Hflight. simpl.
    destruct (IssueService.reloadAllIssues (IssueService.service r)) as [[[|call calls]|]|];
      simpl; repeat split; try done;
      try (intros cycle Hin; by apply elem_of_nil in Hin);
      try (intros cycle Hin; apply elem_of_cons; right; by apply Hmerged).
    intros cycle Hin. apply list_elem_of_singleton in Hin as ->. apply list_elem_of_here.
  - (* Answer *)
    unfold IssueService.onAnswer.
    destruct (IssueService.issuesPollSubscription (IssueService.service r)) as [sub|] eqn:Hsub;
      simpl; [|by rewrite Hsub].
    simpl in Hflight.
    destruct (Subscription.inner sub) as [cycle|] eqn:Hinner; simpl;
      [|by rewrite Hsub, Hinner].
    assert (Hcycle : cycle ∈ IssueService.started r).
    { apply Hflightstarted. rewrite Hflight. apply list_elem_of_here. }
    assert (Hended : filter (λ c, c ≠ cycle) (IssueService.inFlight r) = []).
    { rewrite Hflight. change (option_list (Some cycle)) with [cycle].
      rewrite filter_cons_False; [done|]. intros Hne. by apply Hne. }
    destruct notification as [issuesByFilter|err]; simpl; rewrite Hended;
      repeat split; try done;
      try (intros c Hin; by apply elem_of_nil in Hin).
    intros c [->|Hin]%elem_of_cons; [done | by apply Hmerged].
Qed.

Lemma pollInvariant_run events r : pollInvariant r → pollInvariant (IssueService.run events r).
Proof.
  revert r. induction events as [|e events IH]; intros r Hr; [done|].
  apply IH, pollInvariant_step, Hr.
Qed.

Lemma keyedById_issues (this this' : IssueService.t) :
  IssueService.issues this' = IssueService.issues this →
  keyedById this → keyedById this'.
Proof. unfold keyedById. by intros ->. Qed.

(** The store of every run is keyed by id. *)
Lemma keyedById_step e r :
  keyedById (IssueService.service r) →
  keyedById (IssueService.service (IssueService.step e r)).
Proof.
  intros Hkeyed. destruct e as [| |resetSessionId| |notification]; simpl.
  - eapply keyedById_issues; [|exact Hkeyed]. unfold IssueService.startPollIssues.
    repeat case_match; reflexivity.
  - eapply keyedById_issues; [|exact Hkeyed]. unfold IssueService.stopPollIssues.
    repeat case_match; reflexivity.
  - intros store Hstore. unfold IssueService.reset, IssueService.stopPollIssues in Hstore.
    repeat case_match; discriminate.
  - eapply keyedById_issues; [|exact Hkeyed]. unfold IssueService.onTick.
    repeat case_match; reflexivity.
  - unfold IssueService.onAnswer. repeat case_match; simpl; try done.
    eapply keyedById_issues; [|by apply initializeData_merge_keyed]. reflexivity.
Qed.

Lemma keyedById_run events users phases :
  keyedById (IssueService.service (IssueService.run events (IssueService.fresh users phases))).
Proof.
  assert (Hgen : ∀ r, keyedById (IssueService.service r) →
                      keyedById (IssueService.service (IssueService.run events r))).
  { induction events as [|e events IH]; intros r Hr; [done|].
    apply IH, keyedById_step, Hr. }
  apply Hgen. intros store Hstore. discriminate.
Qed.
End poll_properties.

Section poll_theorem.
Context `{Templates}.

(** C2. In every run of the poll, whatever the ticks, answers, starts and
    stops that make it: at most one cycle is in flight; a tick that fires
    while a cycle is in flight changes nothing but the count of ticks (no
    request, no merge, no change of the service), and its own cycle is
    never started by anything that happens later, so it is not queued; and
    a step runs a merge only as the one step that ends the only cycle in
    flight, so that merges of two cycles never overlap. *)
Theorem poll_drops_ticks_while_busy
    (users : UserService.t) (phases : PhaseService.t)
    (events : list IssueService.Event) :
  let r := IssueService.run events (IssueService.fresh users phases) in
  (length (IssueService.inFlight r) ≤ 1)%nat
  ∧ (∀ cycle,
       activeCycle (IssueService.service r) = Some cycle →
       IssueService.inFlight r = [cycle]
       ∧ IssueService.step IssueService.Tick r
         = {| IssueService.service := IssueService.service r;
              IssueService.clock := S (IssueService.clock r);
              IssueService.started := IssueService.started r;
              IssueService.inFlight := IssueService.inFlight r;
              IssueService.merged := IssueService.merged r |}
       ∧ ∀ later,
           IssueService.clock r
           ∉ IssueService.started
               (IssueService.run later (IssueService.step IssueService.Tick r)))
  ∧ (∀ e,
       IssueService.merged (IssueService.step e r) = IssueService.merged r
       ∨ ∃ cycle issuesByFilter,
           e = IssueService.Answer (Returns issuesByFilter)
           ∧ IssueService.inFlight r = [cycle]
           ∧ IssueService.merged (IssueService.step e r) = cycle :: IssueService.merged r
           ∧ IssueService.inFlight (IssueService.step e r) = []).
Proof.
  intros r.
  assert (Hr : pollInvariant r) by apply pollInvariant_run, pollInvariant_fresh.
  destruct Hr as (Hflight & Hclock & Hflightstarted & Hmerged).
  split; [|split].
  - rewrite Hflight. destruct (activeCycle (IssueService.service r)); simpl; lia.
  - intros cycle Hactive. rewrite Hactive in Hflight. split; [exact Hflight|].
    assert (Hdropped : IssueService.step IssueService.Tick r
         = {| IssueService.service := IssueService.service r;
              IssueService.clock := S (IssueService.clock r);
              IssueService.started := IssueService.started r;
              IssueService.inFlight := IssueService.inFlight r;
              IssueService.merged := IssueService.merged r |}).
    { unfold activeCycle in Hactive. simpl. unfold IssueService.onTick.
      destruct (IssueService.issuesPollSubscription (IssueService.service r)) as [sub|];
        [|done].
      rewrite Hactive. by destruct (Subscription.closed sub). }
    split; [exact Hdropped|].
    intros later Hin. apply started_run in Hin. rewrite Hdropped in Hin. simpl in Hin.
    destruct Hin as [Hin|Hle]; [|lia].
    specialize (Hclock _ Hin). lia.
  - intros e. destruct e as [| |resetSessionId| |[issuesByFilter|err]]; simpl; auto.
    + unfold IssueService.onTick. repeat case_match; simpl; auto.
    + unfold IssueService.onAnswer.
      destruct (IssueService.issuesPollSubscription (IssueService.service r)) as [sub|] eqn:Hsub;
        [|by left].
      destruct (Subscription.inner sub) as [cycle|] eqn:Hinner; [|by left].
      right. exists cycle, issuesByFilter.
      assert (Hcycle : IssueService.inFlight r = [cycle]).
      { rewrite Hflight. unfold activeCycle. by rewrite Hsub, Hinner. }
      split; [done|]. split; [done|]. split; [done|]. simpl. rewrite Hcycle.
      rewrite filter_cons_False; [done|]. intros Hne. by apply Hne.
    + unfold IssueService.onAnswer. repeat case_match; simpl; auto.
Qed.
End poll_theorem.

Section closed_polls.
#[local] Existing Instance Sample.collaborators.
#[local] Existing Instance Sample.templates.

Lemma poll_drops_ticks_while_busy_witness :
  1%nat ∉ IssueService.started
    (IssueService.run
       [IssueService.Answer (Returns [[Sample.record 1 "text" []]]); IssueService.Tick]
       (IssueService.step IssueService.Tick
          (IssueService.run [IssueService.Start; IssueService.Tick]
             (IssueService.fresh {| UserService.currentUser := Some Sample.student |}
                {| PhaseService.currentPhase := Some issuesViewer |})))).
Proof.
  refine (proj2 (proj2 (proj1 (proj2
    (poll_drops_ticks_while_busy
       {| UserService.currentUser := Some Sample.student |}
       {| PhaseService.currentPhase := Some issuesViewer |}
       [IssueService.Start; IssueService.Tick])) 0%nat _))
    [IssueService.Answer (Returns [[Sample.record 1 "text" []]]); IssueService.Tick]).
  reflexivity.
Defined.

(** A run of the poll: tick 0 starts a cycle, ticks 1 and 2 fire while it
    is in flight and are dropped, the answer is merged, and tick 3 starts
    the next cycle. *)
Example poll_sample :
  let r :=
    IssueService.run
      [IssueService.Start; IssueService.Tick; IssueService.Tick; IssueService.Tick;
       IssueService.Answer (Returns [[Sample.record 1 "text" []]]); IssueService.Tick]
      (IssueService.fresh {| UserService.currentUser := Some Sample.student |}
         {| PhaseService.currentPhase := Some issuesViewer |}) in
  IssueService.started r = [3%nat; 0%nat]
  ∧ IssueService.merged r = [0%nat]
  ∧ IssueService.inFlight r = [3%nat]
  ∧ IssueService.Object_keys <$> IssueService.issues (IssueService.service r)
    = Some [1%N].
Proof. vm_compute. repeat split. Qed.
End closed_polls.


(** * More of the two classes *)

Section text_properties.
Context `{Templates}.

Lemma isBlank_rev_app (s1 s2 : string) :
  isBlank (String.rev_app s1 s2) = isBlank s1 && isBlank s2.
Proof.
  revert s2. induction s1 as [|c s1 IH]; intros s2; simpl; [done|].
  rewrite IH. simpl. destruct (Js.isWhiteSpace c), (isBlank s1); done.
Qed.

Lemma rev_app_empty (s1 s2 : string) :
  String.rev_app s1 s2 = "" → s1 = "" ∧ s2 = "".
Proof.
  revert s2. induction s1 as [|c s1 IH]; intros s2; simpl; [done|].
  intros [_ Hs2]%IH. discriminate.
Qed.

Lemma isBlank_trimStart (s : string) : isBlank (Js.trimStart s) = isBlank s.
Proof.
  induction s as [|c s IH]; simpl; [done|].
  destruct (Js.isWhiteSpace c) eqn:Hc; simpl; [done|]. by rewrite Hc.
Qed.

Lemma trimStart_empty (s : string) : Js.trimStart s = "" ↔ isBlank s.
Proof.
  induction s as [|c s IH]; simpl; [done|].
  destruct (Js.isWhiteSpace c); simpl; [done|]. split; [discriminate | done].
Qed.

(** A string trims to nothing exactly when it is blank. *)
Lemma trim_empty (s : string) : Js.trim s = "" ↔ isBlank s.
Proof.
  unfold Js.trim, String.rev. split.
  - intros [Hrev _]%rev_app_empty. apply trimStart_empty in Hrev.
    rewrite isBlank_rev_app, andb_true_r, isBlank_trimStart in Hrev. exact Hrev.
  - intros Hblank. apply trimStart_empty in Hblank. rewrite Hblank. reflexivity.
Qed.

(** Splitting at white space: all the pieces are blank exactly when the
    whole is. *)
Lemma split_blank (sep : ascii → bool) (s : string) :
  (∀ c, sep c = true → Js.isWhiteSpace c = true) →
  Forall (λ piece, isBlank piece) (Js.split sep s) ↔ isBlank s.
Proof.
  intros Hsep. induction s as [|c s IH]; simpl.
  - split; [done|]. intros _. by constructor.
  - destruct (sep c) eqn:Hc.
    + rewrite (Hsep c Hc). simpl. rewrite Forall_cons. simpl. tauto.
    + destruct (Js.split sep s) as [|piece pieces].
      * rewrite Forall_nil in IH. rewrite Forall_singleton. simpl.
        rewrite !andb_True. tauto.
      * rewrite !Forall_cons in *. simpl. rewrite !andb_True. tauto.
Qed.

Lemma filter_not_blank_length (pieces : list string) :
  (0 <? Z.of_nat (length (filter (λ piece, Js.trim piece ≠ "") pieces))) = true
  ↔ ¬ Forall (λ piece, isBlank piece) pieces.
Proof.
  induction pieces as [|piece pieces IH].
  - simpl. split; [done|]. intros Hnot. destruct Hnot. constructor.
  - rewrite Forall_cons. destruct (decide (Js.trim piece ≠ "")) as [Hpiece|Hpiece].
    + rewrite filter_cons_True by done. simpl length.
      split; [|intros _; apply Z.ltb_lt; lia].
      intros _ [Hblank _]. by apply Hpiece, trim_empty.
    + rewrite filter_cons_False by done. rewrite IH.
      assert (Hblank : isBlank piece) by (apply trim_empty; by destruct (decide (Js.trim piece = ""))).
      tauto.
Qed.

Lemma formatText_value_cases (text : string) :
  Issue.formatText (value text) = value (if isBlank text then text else text +:+ lineFeeds).
Proof.
  unfold Issue.formatText.
  set (pieces := Js.split _ text).
  assert (Hpieces : Forall (λ piece, isBlank piece) pieces ↔ isBlank text).
  { apply split_blank. intros c. unfold Js.isWhiteSpace.
    intros [Hc|Hc]%orb_true_iff; apply Z.eqb_eq in Hc; rewrite Hc; reflexivity. }
  destruct (0 <? Z.of_nat (length (filter (λ split, Js.trim split ≠ "") pieces))) eqn:Hlen.
  - apply filter_not_blank_length in Hlen. rewrite Hpieces in Hlen.
    by destruct (isBlank text).
  - assert (Hblank : isBlank text).
    { apply Hpieces. destruct (decide (Forall (λ piece, isBlank piece) pieces)) as [|Hnot];
        [done|]. apply filter_not_blank_length in Hnot. congruence. }
    by destruct (isBlank text).
Qed.

(** X1. [formatText] keeps null and undefined, returns a text made of white
    space only (the empty text too) as it is, and appends two line feeds to
    every other text. *)
Theorem formatText_appends_unless_blank :
  Issue.formatText null = null
  ∧ Issue.formatText undefined = undefined
  ∧ ∀ text, Issue.formatText (value text)
            = value (if isBlank text then text else text +:+ lineFeeds).
Proof. split; [done|]. split; [done|]. apply formatText_value_cases. Qed.

Lemma append_lineFeeds_not_empty (text : string) : text +:+ lineFeeds ≠ "".
Proof. by destruct text. Qed.

Lemma orDefaultString_formatText (defaultString : string) (text : Nullable string) :
  Issue.orDefaultString (Issue.formatText text) defaultString = cleaned defaultString text.
Proof.
  destruct text as [| |text]; [done..|].
  rewrite formatText_value_cases.
  unfold Issue.orDefaultString, cleaned. case_decide as Htext.
  - subst text. reflexivity.
  - destruct (isBlank text).
    + destruct (String.eqb_spec text ""); [done|].
      destruct text; [done|]. reflexivity.
    + pose proof (append_lineFeeds_not_empty text) as Hne.
      destruct (String.eqb_spec (text +:+ lineFeeds) ""); [done|].
      destruct (text +:+ lineFeeds); [done|]. reflexivity.
Qed.

Lemma cleaned_not_empty (defaultString : string) (text : Nullable string) :
  defaultString ≠ "" → cleaned defaultString text ≠ "".
Proof.
  intros Hdefault. destruct text as [| |text]; simpl; [done..|].
  case_decide as Htext; [done|].
  destruct (isBlank text); [done|]. apply append_lineFeeds_not_empty.
Qed.

(** X2. [updateDescription] and [updateTeamResponse] never return the empty
    string: for null, undefined and the empty text they return their default
    sentence, a blank text that is not empty is kept as it is, and any other
    text gets two line feeds appended. *)
Theorem updateDescription_defaults_only_the_empty (text : Nullable string) :
  Issue.updateDescription text = cleaned "No details provided by bug reporter." text
  ∧ Issue.updateTeamResponse text = cleaned "No details provided by team." text
  ∧ Issue.updateDescription text ≠ ""
  ∧ Issue.updateTeamResponse text ≠ "".
Proof.
  unfold Issue.updateDescription, Issue.updateTeamResponse.
  rewrite !orDefaultString_formatText.
  repeat split; try apply cleaned_not_empty; discriminate.
Qed.
End text_properties.

Section store_operations.
Context `{Templates}.
Implicit Types (this : IssueService.t) (store : gmap N Issue.t) (issue : Issue.t).

Lemma updateLocalStore_run this issue :
  IssueService.updateLocalStore (Some issue) this
  = (Returns tt,
     published (<[Issue.id issue := issue]> (default ∅ (IssueService.issues this))) this).
Proof. reflexivity. Qed.

Lemma deleteFromLocalStore_run this store issue :
  IssueService.issues this = Some store →
  IssueService.deleteFromLocalStore (Some issue) this
  = (Returns tt, published (delete (Issue.id issue) store) this).
Proof.
  intros Hstore. unfold IssueService.deleteFromLocalStore. run_monad.
  rewrite Hstore. reflexivity.
Qed.

Lemma deleteFromLocalStore_undefined this (issue : option Issue.t) :
  IssueService.issues this = None ∨ issue = None →
  IssueService.deleteFromLocalStore issue this = (Throws TypeError, this).
Proof.
  intros Hcase. unfold IssueService.deleteFromLocalStore. run_monad.
  destruct (IssueService.issues this), issue; destruct Hcase; done.
Qed.

Lemma createIssueModel_viewer this (githubIssue : GithubIssue.t) :
  PhaseService.currentPhase (IssueService.phaseService this) = Some issuesViewer →
  IssueService.createIssueModel this githubIssue = Returns (Some (Issue.construct githubIssue)).
Proof. intros Hphase. unfold IssueService.createIssueModel. by rewrite Hphase. Qed.

Lemma createIssueModel_other this (githubIssue : GithubIssue.t) :
  PhaseService.currentPhase (IssueService.phaseService this) ≠ Some issuesViewer →
  IssueService.createIssueModel this githubIssue = Returns None.
Proof.
  intros Hphase. unfold IssueService.createIssueModel.
  by destruct (PhaseService.currentPhase (IssueService.phaseService this)) as [[|name]|].
Qed.

(** What the pipe of [getLatestIssue] does, case by case. *)
Lemma getLatestIssue_notified_run (id : N) (notification : Result GithubIssue.t) this :
  IssueService.getLatestIssue_notified id notification this
  = match notification with
    | Returns response =>
        if decide (PhaseService.currentPhase (IssueService.phaseService this)
                   = Some issuesViewer)
        then
          let store := <[GithubIssue.number response := Issue.construct response]>
                         (default ∅ (IssueService.issues this)) in
          (Returns (store !! id), published store this)
        else
          match IssueService.issues this with
          | Some store => (Returns (store !! id), this)
          | None => (Throws TypeError, this)
          end
    | Throws _ =>
        match IssueService.issues this with
        | Some store => (Returns (store !! id), this)
        | None => (Throws TypeError, this)
        end
    end.
Proof.
  unfold IssueService.getLatestIssue_notified, IssueService.createAndSaveIssueModel,
    IssueService.issues_at.
  destruct notification as [response|err].
  - case_decide as Hphase.
    + run_monad. rewrite (createIssueModel_viewer _ _ Hphase). reflexivity.
    + run_monad. rewrite (createIssueModel_other _ _ Hphase). simpl.
      by destruct (IssueService.issues this).
  - run_monad. by destruct (IssueService.issues this).
Qed.

(** X3. The pipe of [getLatestIssue(id)] never ends with the error of the
    remote. It emits the entry the store has for [id] when the notification
    has been handled, and it ends with a TypeError exactly when the store is
    then still undefined, which leaves the service as it was. An error of the
    remote, and any notification outside the phase issuesViewer, leaves the
    service as it was. *)
Theorem getLatestIssue_never_ends_with_remote_error
    (id : N) (notification : Result GithubIssue.t) (this : IssueService.t) :
  match IssueService.getLatestIssue_notified id notification this with
  | (Returns emitted, this') =>
      ∃ store, IssueService.issues this' = Some store ∧ emitted = store !! id
  | (Throws e, this') => e = TypeError ∧ IssueService.issues this = None ∧ this' = this
  end
  ∧ (∀ e, notification = Throws e →
          snd (IssueService.getLatestIssue_notified id notification this) = this)
  ∧ (PhaseService.currentPhase (IssueService.phaseService this) ≠ Some issuesViewer →
     snd (IssueService.getLatestIssue_notified id notification this) = this).
Proof.
  rewrite getLatestIssue_notified_run. split; [|split].
  - destruct notification as [response|err]; [case_decide|];
      simpl; eauto; destruct (IssueService.issues this) eqn:Hstore; eauto.
  - intros e ->. by destruct (IssueService.issues this).
  - intros Hphase. destruct notification as [response|err];
      [rewrite decide_False by done|]; by destruct (IssueService.issues this).
Qed.

Lemma pollIssue_notified_run (issueId : N) (notification : Result GithubIssue.t) this :
  IssueService.pollIssue_notified issueId notification this
  = match notification with
    | Returns response =>
        if decide (PhaseService.currentPhase (IssueService.phaseService this)
                   = Some issuesViewer)
        then
          (Returns (IssueService.of_ (Some (Issue.construct response))),
           published (<[GithubIssue.number response := Issue.construct response]>
                        (default ∅ (IssueService.issues this))) this)
        else (Returns (IssueService.getIssue this issueId), this)
    | Throws _ => (Returns (IssueService.getIssue this issueId), this)
    end.
Proof.
  unfold IssueService.pollIssue_notified.
  destruct notification as [response|err]; [|reflexivity].
  case_decide as Hphase.
  - run_monad. rewrite (createIssueModel_viewer _ _ Hphase). reflexivity.
  - run_monad. rewrite (createIssueModel_other _ _ Hphase). reflexivity.
Qed.

(** X4. On a response, in the phase issuesViewer, the inner pipe of
    [pollIssue(issueId)] saves the Issue built from the response under the
    Issue's own number and emits that Issue, whether or not its number is
    [issueId]. On an error of the remote, and outside the phase issuesViewer,
    [catchError] leaves the service as it was and the pipe goes on as
    [getIssue(issueId)]. With the store defined that emits the cached entry
    and sends no request. With the store undefined it is the pipe of
    [getLatestIssue(issueId)], one more request, and the inner pipe ends as
    that pipe does: with a TypeError, the service still as it was, when the
    second answer is an error too or the phase is not issuesViewer; with the
    entry of [issueId] in the store that holds just the Issue of the second
    response otherwise. *)
Theorem pollIssue_falls_back_to_getIssue
    (issueId : N) (notification : Result GithubIssue.t) (this : IssueService.t) :
  (∀ response,
     notification = Returns response →
     PhaseService.currentPhase (IssueService.phaseService this) = Some issuesViewer →
     IssueService.pollIssue_notified issueId notification this
     = (Returns (IssueService.of_ (Some (Issue.construct response))),
        published (<[GithubIssue.number response := Issue.construct response]>
                     (default ∅ (IssueService.issues this))) this))
  ∧ ((∃ e, notification = Throws e)
     ∨ PhaseService.currentPhase (IssueService.phaseService this) ≠ Some issuesViewer →
     IssueService.pollIssue_notified issueId notification this
     = (Returns (IssueService.getIssue this issueId), this)
     ∧ (∀ store,
          IssueService.issues this = Some store →
          IssueService.getIssue this issueId = IssueService.of_ (store !! issueId)
          ∧ IssueService.requests (IssueService.getIssue this issueId) = [])
     ∧ (IssueService.issues this = None →
        IssueService.getIssue this issueId = IssueService.getLatestIssue issueId
        ∧ IssueService.requests (IssueService.getIssue this issueId) = [issueId]
        ∧ (∀ second,
             (∃ e, second = Throws e)
             ∨ PhaseService.currentPhase (IssueService.phaseService this)
               ≠ Some issuesViewer →
             IssueService.getLatestIssue_notified issueId second this
             = (Throws TypeError, this))
        ∧ (∀ response,
             PhaseService.currentPhase (IssueService.phaseService this)
               = Some issuesViewer →
             IssueService.getLatestIssue_notified issueId (Returns response) this
             = (Returns
                  (({[GithubIssue.number response := Issue.construct response]}
                      : gmap N Issue.t) !! issueId),
                published {[GithubIssue.number response := Issue.construct response]}
                  this)))).
Proof.
  rewrite pollIssue_notified_run. split.
  - intros response -> Hphase. by rewrite decide_True.
  - intros Hcase. split; [|split].
    + destruct notification as [response|err]; [|done].
      destruct Hcase as [[e ?]|Hphase]; [done|]. by rewrite decide_False.
    + intros store Hstore. unfold IssueService.getIssue. by rewrite Hstore.
    + intros Hstore. unfold IssueService.getIssue. rewrite Hstore.
      split; [done|]. split; [done|]. split.
      * intros second Hsecond. rewrite getLatestIssue_notified_run, Hstore.
        destruct second as [response|err]; [|done].
        destruct Hsecond as [[e ?]|Hphase]; [done|]. by rewrite decide_False.
      * intros response Hphase. rewrite getLatestIssue_notified_run, Hstore.
        rewrite decide_True by done. reflexivity.
Qed.

Lemma deleteIssue_notified_run (response : GithubIssue.t) this :
  IssueService.deleteIssue_notified response this
  = match IssueService.issues this with
    | Some store =>
        if decide (PhaseService.currentPhase (IssueService.phaseService this)
                   = Some issuesViewer)
        then (Returns (Some (Issue.construct response)),
              published (delete (GithubIssue.number response) store) this)
        else (Throws TypeError, this)
    | None => (Throws TypeError, this)
    end.
Proof.
  unfold IssueService.deleteIssue_notified, IssueService.deleteFromLocalStore.
  destruct (decide (PhaseService.currentPhase (IssueService.phaseService this)
                    = Some issuesViewer)) as [Hphase|Hphase].
  - run_monad. rewrite (createIssueModel_viewer _ _ Hphase). simpl.
    by destruct (IssueService.issues this).
  - run_monad. rewrite (createIssueModel_other _ _ Hphase). simpl.
    by destruct (IssueService.issues this).
Qed.

(** X5. The callback of [deleteIssue], in the phase issuesViewer and with the
    store defined, returns the Issue built from the response and removes the
    entry under its number, leaving every other entry; afterwards
    [getIssue] of that number emits undefined and sends no request. With the
    store undefined, or outside the phase issuesViewer, the callback throws a
    TypeError and the service stays as it was. *)
Theorem deleteIssue_removes_the_closed_issue
    (response : GithubIssue.t) (this : IssueService.t) :
  (∀ store,
     IssueService.issues this = Some store →
     PhaseService.currentPhase (IssueService.phaseService this) = Some issuesViewer →
     ∃ this',
       IssueService.deleteIssue_notified response this
         = (Returns (Some (Issue.construct response)), this')
       ∧ IssueService.issues this' = Some (delete (GithubIssue.number response) store)
       ∧ IssueService.issues_ this'
         = IssueService.Object_values (delete (GithubIssue.number response) store)
       ∧ (∀ k, k ≠ GithubIssue.number response →
               IssueService.getIssue this' k = IssueService.getIssue this k)
       ∧ IssueService.getIssue this' (GithubIssue.number response) = IssueService.of_ None)
  ∧ (IssueService.issues this = None
     ∨ PhaseService.currentPhase (IssueService.phaseService this) ≠ Some issuesViewer →
     IssueService.deleteIssue_notified response this = (Throws TypeError, this)).
Proof.
  rewrite deleteIssue_notified_run. split.
  - intros store Hstore Hphase. rewrite Hstore, decide_True by done.
    eexists. split; [reflexivity|]. split; [reflexivity|]. split; [reflexivity|].
    unfold IssueService.getIssue. rewrite Hstore, issues_published. split.
    + intros k Hk. by rewrite lookup_delete_ne.
    + by rewrite lookup_delete_eq.
  - intros [Hstore|Hphase].
    + by rewrite Hstore.
    + destruct (IssueService.issues this); [|done]. by rewrite decide_False.
Qed.

(** X6. Saving and deleting compose as insertion and deletion in a map:
    after [updateLocalStore(issue)], [getIssue] emits [issue] for its id and
    what the store had before for any other id, without a request; saving the
    same Issue again changes nothing; and [deleteFromLocalStore(issue)] then
    leaves the prior store without the id, which is the prior store itself
    when that was defined and had no entry for the id. *)
Theorem updateLocalStore_then_read_and_delete (issue : Issue.t) (this : IssueService.t) :
  let prior := default ∅ (IssueService.issues this) in
  let saved := snd (IssueService.updateLocalStore (Some issue) this) in
  let deleted := snd (IssueService.deleteFromLocalStore (Some issue) saved) in
  IssueService.getIssue saved (Issue.id issue) = IssueService.of_ (Some issue)
  ∧ (∀ k, k ≠ Issue.id issue →
          IssueService.getIssue saved k = IssueService.of_ (prior !! k))
  ∧ snd (IssueService.updateLocalStore (Some issue) saved) = saved
  ∧ IssueService.issues deleted = Some (delete (Issue.id issue) prior)
  ∧ (∀ store, IssueService.issues this = Some store → store !! Issue.id issue = None →
              IssueService.issues deleted = IssueService.issues this).
Proof.
  intros prior saved deleted. subst saved deleted.
  rewrite updateLocalStore_run. simpl. fold prior.
  unfold IssueService.getIssue. rewrite !issues_published.
  split; [by rewrite lookup_insert_eq|]. split; [|split; [|split]].
  - intros k Hk. by rewrite lookup_insert_ne.
  - rewrite insert_insert_eq. reflexivity.
  - by rewrite delete_insert_eq.
  - intros store Hstore Hmissing. rewrite delete_insert_eq.
    subst prior. rewrite Hstore. simpl. by rewrite delete_id.
Qed.
End store_operations.

Section service_invariant.
Context `{Templates}.
Implicit Types (this : IssueService.t) (store : gmap N Issue.t)
  (r : IssueService.Run) (a : IssueService.Action) (actions : list IssueService.Action).

Lemma consistent_fields this this' :
  IssueService.issues this' = IssueService.issues this →
  IssueService.issues_ this' = IssueService.issues_ this →
  IssueService.issueTeamFilter this' = IssueService.issueTeamFilter this →
  consistent this → consistent this'.
Proof.
  intros Hissues Hvalues Hfilter. unfold consistent, keyedById.
  by rewrite Hissues, Hvalues, Hfilter.
Qed.

Lemma consistent_published store this :
  map_Forall (λ k issue, Issue.id issue = k ∧ constructed issue) store →
  IssueService.issueTeamFilter this ≠ "" →
  consistent (published store this).
Proof.
  intros Hstore Hfilter. split; [|split; [|split]].
  - intros store' Hstore'. rewrite issues_published in Hstore'. simplify_eq.
    intros k issue Hk. by destruct (Hstore k issue Hk).
  - intros store' k issue Hstore' Hk. rewrite issues_published in Hstore'. simplify_eq.
    by destruct (Hstore k issue Hk).
  - reflexivity.
  - exact Hfilter.
Qed.

Lemma consistent_default this :
  consistent this →
  map_Forall (λ k issue, Issue.id issue = k ∧ constructed issue)
    (default ∅ (IssueService.issues this)).
Proof.
  intros (Hkeyed & Hconstructed & _).
  destruct (IssueService.issues this) as [store|] eqn:Hstore; simpl.
  - intros k issue Hk. split; [by apply (Hkeyed store) | by eapply Hconstructed].
  - apply map_Forall_empty.
Qed.

Lemma constructed_insert store (githubIssue : GithubIssue.t) :
  map_Forall (λ k issue, Issue.id issue = k ∧ constructed issue) store →
  map_Forall (λ k issue, Issue.id issue = k ∧ constructed issue)
    (<[GithubIssue.number githubIssue := Issue.construct githubIssue]> store).
Proof.
  intros Hstore. apply map_Forall_insert_2; [|done].
  split; [reflexivity | by exists githubIssue].
Qed.

Lemma constructed_upsert store (batch : list GithubIssue.t) :
  map_Forall (λ k issue, Issue.id issue = k ∧ constructed issue) store →
  map_Forall (λ k issue, Issue.id issue = k ∧ constructed issue) (upsert store batch).
Proof.
  revert store. induction batch as [|githubIssue batch IH]; intros store Hstore; [done|].
  apply IH, constructed_insert, Hstore.
Qed.

Lemma constructed_evicted store (ids : list N) :
  map_Forall (λ k issue, Issue.id issue = k ∧ constructed issue) store →
  map_Forall (λ k issue, Issue.id issue = k ∧ constructed issue)
    (foldl (λ store id, delete id store) store ids).
Proof.
  revert store. induction ids as [|id ids IH]; intros store Hstore; [done|].
  simpl. apply IH. by apply map_Forall_delete.
Qed.

Lemma consistent_merge this (issuesByFilter : list (list GithubIssue.t)) :
  consistent this →
  consistent (snd (IssueService.initializeData_merge issuesByFilter this)).
Proof.
  intros Hthis.
  destruct (decide (PhaseService.currentPhase (IssueService.phaseService this)
                    = Some issuesViewer)) as [Hphase|Hphase].
  - destruct (initializeData_merge_run this issuesByFilter Hphase (proj1 Hthis))
      as [Hsaved Hmerged].
    cbv zeta in *.
    assert (Hconsistent :
      consistent (snd (IssueService.saveIssuesByFilter issuesByFilter [] this))).
    { rewrite Hsaved. destruct (concat issuesByFilter); [done|].
      apply consistent_published; [|apply Hthis].
      apply constructed_upsert, consistent_default, Hthis. }
    rewrite Hmerged. destruct (IssueService.getOutdatedIssueIds _ _); [done|].
    apply consistent_published; [|apply Hconsistent].
    apply constructed_evicted, consistent_default, Hconsistent.
  - by rewrite initializeData_merge_other_phase.
Qed.

Lemma consistent_step (e : IssueService.Event) r :
  consistent (IssueService.service r) →
  consistent (IssueService.service (IssueService.step e r)).
Proof.
  intros Hr. destruct e as [| |resetSessionId| |notification]; simpl.
  - eapply consistent_fields; [| | |exact Hr]; unfold IssueService.startPollIssues;
      repeat case_match; reflexivity.
  - eapply consistent_fields; [| | |exact Hr]; unfold IssueService.stopPollIssues;
      repeat case_match; reflexivity.
  - destruct Hr as (_ & _ & _ & Hfilter).
    destruct r as [[issues values sessionId filterValue [[[cycle|] closed]|] loading
                      users phases] clock started inFlight merged];
      destruct resetSessionId; (split; [|split; [|split]]); done.
  - eapply consistent_fields; [| | |exact Hr]; unfold IssueService.onTick;
      repeat case_match; reflexivity.
  - unfold IssueService.onAnswer. repeat case_match; simpl; try done.
    eapply consistent_fields; [| | |by apply consistent_merge]; reflexivity.
Qed.

Lemma consistent_perform a r :
  consistent (IssueService.service r) →
  consistent (IssueService.service (IssueService.perform a r)).
Proof.
  intros Hr.
  assert (Hsaved : ∀ response,
    consistent (published (<[GithubIssue.number response := Issue.construct response]>
                             (default ∅ (IssueService.issues (IssueService.service r))))
                  (IssueService.service r))).
  { intros response. apply consistent_published; [|apply Hr].
    apply constructed_insert, consistent_default, Hr. }
  destruct a as [e|id notification|issueId notification|response|filterValue|sessionId];
    simpl.
  - by apply consistent_step.
  - rewrite getLatestIssue_notified_run.
    destruct notification; [case_decide|];
      destruct (IssueService.issues (IssueService.service r)) eqn:Hstore; simpl;
      first [done | rewrite <- ?Hstore; apply Hsaved].
  - rewrite pollIssue_notified_run.
    destruct notification; [case_decide|]; simpl; first [done | apply Hsaved].
  - rewrite deleteIssue_notified_run.
    destruct (IssueService.issues (IssueService.service r)) as [store|] eqn:Hstore;
      [case_decide|]; simpl; try done.
    apply consistent_published; [|apply Hr].
    apply map_Forall_delete. pose proof (consistent_default _ Hr) as Hdefault.
    by rewrite Hstore in Hdefault.
  - unfold IssueService.setIssueTeamFilter.
    destruct filterValue as [v|]; simpl; [|done].
    destruct (String.eqb v "") eqn:Hv; simpl; [done|].
    destruct Hr as (Hkeyed & Hconstructed & Hvalues & _).
    split; [|split; [|split]]; try done.
    simpl. intros ->. discriminate.
  - eapply consistent_fields; [| | |exact Hr]; reflexivity.
Qed.

Lemma consistent_performAll actions r :
  consistent (IssueService.service r) →
  consistent (IssueService.service (IssueService.performAll actions r)).
Proof.
  revert r. induction actions as [|a actions IH]; intros r Hr; [done|].
  apply IH, consistent_perform, Hr.
Qed.

Lemma consistent_fresh users phases :
  consistent (IssueService.service (IssueService.fresh users phases)).
Proof. split; [|split; [|split]]; try done. Qed.

Lemma elem_of_Object_values store (issue : Issue.t) :
  issue ∈ IssueService.Object_values store → ∃ k, store !! k = Some issue.
Proof.
  unfold IssueService.Object_values. rewrite list_elem_of_omap.
  intros (k & _ & Hk). by exists k.
Qed.

Lemma consistent_values this (issue : Issue.t) :
  consistent this → issue ∈ IssueService.issues_ this → constructed issue.
Proof.
  intros (_ & Hconstructed & Hvalues & _) Hin. rewrite Hvalues in Hin.
  destruct (IssueService.issues this) as [store|] eqn:Hstore; simpl in Hin.
  - apply elem_of_Object_values in Hin as [k Hk]. by eapply Hconstructed.
  - by apply elem_of_nil in Hin.
Qed.

Lemma filter_none {A} (P : A → Prop) `{!∀ x, Decision (P x)} (l : list A) :
  (∀ x, x ∈ l → ¬ P x) → filter P l = [].
Proof.
  induction l as [|x l IH]; intros Hl; [done|].
  rewrite filter_cons_False by (apply Hl, list_elem_of_here).
  apply IH. intros y Hy. apply Hl. by apply list_elem_of_further.
Qed.

(** X7. Whatever reaches the service, in whatever order (the calls and
    events of the poll, the notifications of the remote to the pipes of
    [getLatestIssue], [pollIssue] and [deleteIssue], and the calls of
    [setIssueTeamFilter] and [setSessionId]), starting from a service on which
    nothing has been called, and as long as no other code writes to the store
    or to an Issue it holds: every entry of the store sits under its own id
    and is an Issue as the constructor leaves it, the value of [issues$] is
    [Object.values] of the store (the empty list while the store is
    undefined), and the team filter is not the empty string. *)
Theorem service_consistent_in_every_run
    (actions : list IssueService.Action) (users : UserService.t) (phases : PhaseService.t) :
  consistent
    (IssueService.service (IssueService.performAll actions (IssueService.fresh users phases))).
Proof. apply consistent_performAll, consistent_fresh. Qed.

(** X8. In every such run the list that [getDuplicateIssuesFor(parentIssue)]
    makes of the current value of [issues$] is empty, for every parent: the
    constructor leaves [duplicateOf] undefined, and nothing that saves an
    Issue sets it. *)
Theorem getDuplicateIssuesFor_finds_none
    (actions : list IssueService.Action) (users : UserService.t) (phases : PhaseService.t)
    (parentIssue : Issue.t) :
  IssueService.getDuplicateIssuesFor parentIssue
    (IssueService.issues_
       (IssueService.service (IssueService.performAll actions (IssueService.fresh users phases))))
  = [].
Proof.
  apply filter_none. intros issue Hin.
  eapply consistent_values in Hin as [githubIssue ->];
    [|apply consistent_performAll, consistent_fresh].
  discriminate.
Qed.

(** X9. In every such run [hasTeamResponse(issueId)] never returns true: it
    returns false for an id the store holds, and throws a TypeError for any
    other id and while the store is undefined. *)
Theorem hasTeamResponse_never_true
    (actions : list IssueService.Action) (users : UserService.t) (phases : PhaseService.t)
    (issueId : N) :
  let this :=
    IssueService.service (IssueService.performAll actions (IssueService.fresh users phases)) in
  IssueService.hasTeamResponse this issueId
  = match IssueService.issues this with
    | Some store =>
        match store !! issueId with
        | Some _ => Returns false
        | None => Throws TypeError
        end
    | None => Throws TypeError
    end.
Proof.
  intros this.
  assert (Hthis : consistent this) by apply consistent_performAll, consistent_fresh.
  unfold IssueService.hasTeamResponse.
  destruct (IssueService.issues this) as [store|] eqn:Hstore; [|done].
  destruct (store !! issueId) as [issue|] eqn:Hissue; [|done].
  destruct Hthis as (_ & Hconstructed & _).
  by destruct (Hconstructed store issueId issue Hstore Hissue) as [githubIssue ->].
Qed.
End service_invariant.

Section poll_lifecycle.
Context `{Templates}.
Implicit Types (this : IssueService.t) (r : IssueService.Run) (e : IssueService.Event)
  (events : list IssueService.Event).

(** X10. [reset] leaves the store undefined, so that [getIssue] asks the
    remote again for every id; it forgets the session id exactly when asked
    to; resetting twice is resetting once; and a poll started after a reset
    is undone by the next reset, loading flag included. *)
Theorem reset_forgets_store_and_poll (resetSessionId : bool) (this : IssueService.t) :
  let this' := IssueService.reset resetSessionId this in
  (∀ id, IssueService.getIssue this' id = IssueService.getLatestIssue id)
  ∧ IssueService.issues_ this' = []
  ∧ IssueService.issuesPollSubscription this' = None
  ∧ IssueService.isLoading this' = false
  ∧ IssueService.sessionId this'
    = (if resetSessionId then None else IssueService.sessionId this)
  ∧ IssueService.reset resetSessionId this' = this'
  ∧ IssueService.isLoading (IssueService.startPollIssues this') = true
  ∧ IssueService.reset resetSessionId (IssueService.startPollIssues this') = this'.
Proof.
  destruct this as [issues values sessionId filterValue [[[cycle|] closed]|] loading
                      users phases],
    resetSessionId; repeat split.
Qed.

(** X11. [startPollIssues] subscribes once: a second call changes nothing,
    so no second timer runs. It raises the loading flag only when it
    subscribes and [issues$] holds the empty list, and it touches neither the
    store nor [issues$]. [stopPollIssues] always leaves the subscription
    undefined, a second call changes nothing, and a start after a stop
    subscribes afresh: no cycle in flight, not ended. *)
Theorem startPollIssues_subscribes_once (this : IssueService.t) :
  IssueService.startPollIssues (IssueService.startPollIssues this)
    = IssueService.startPollIssues this
  ∧ IssueService.issues (IssueService.startPollIssues this) = IssueService.issues this
  ∧ IssueService.issues_ (IssueService.startPollIssues this) = IssueService.issues_ this
  ∧ IssueService.isLoading (IssueService.startPollIssues this)
    = (IssueService.isLoading this
       || bool_decide (IssueService.issuesPollSubscription this = None
                       ∧ IssueService.issues_ this = []))
  ∧ IssueService.stopPollIssues (IssueService.stopPollIssues this)
    = IssueService.stopPollIssues this
  ∧ IssueService.issuesPollSubscription (IssueService.stopPollIssues this) = None
  ∧ IssueService.issuesPollSubscription
      (IssueService.startPollIssues (IssueService.stopPollIssues this))
    = Some {| Subscription.inner := None; Subscription.closed := false |}.
Proof.
  destruct this as [issues [|issue values] sessionId filterValue [[[cycle|] closed]|] loading
                      users phases];
    repeat split; simpl; by rewrite ?orb_false_r, ?orb_true_r.
Qed.

Lemma closed_step e r :
  IssueService.issuesPollSubscription (IssueService.service r)
    = Some {| Subscription.inner := None; Subscription.closed := true |} →
  e ≠ IssueService.Stop → (∀ resetSessionId, e ≠ IssueService.Reset resetSessionId) →
  IssueService.service (IssueService.step e r) = IssueService.service r
  ∧ IssueService.started (IssueService.step e r) = IssueService.started r
  ∧ IssueService.merged (IssueService.step e r) = IssueService.merged r.
Proof.
  intros Hsub Hstop Hreset. destruct e as [| |resetSessionId| |notification]; simpl.
  - unfold IssueService.startPollIssues. by rewrite Hsub.
  - done.
  - by destruct (Hreset resetSessionId).
  - unfold IssueService.onTick. by rewrite Hsub.
  - unfold IssueService.onAnswer. by rewrite Hsub.
Qed.

Lemma closed_run events r :
  IssueService.issuesPollSubscription (IssueService.service r)
    = Some {| Subscription.inner := None; Subscription.closed := true |} →
  Forall (λ e, e ≠ IssueService.Stop ∧ ∀ resetSessionId, e ≠ IssueService.Reset resetSessionId)
    events →
  IssueService.service (IssueService.run events r) = IssueService.service r
  ∧ IssueService.started (IssueService.run events r) = IssueService.started r
  ∧ IssueService.merged (IssueService.run events r) = IssueService.merged r.
Proof.
  intros Hsub Hevents. revert r Hsub.
  induction Hevents as [|e events [Hstop Hreset] _ IH]; intros r Hsub; [done|].
  destruct (closed_step e r Hsub Hstop Hreset) as (Hservice & Hstarted & Hmerged).
  simpl. destruct (IH (IssueService.step e r)) as (Hservice' & Hstarted' & Hmerged').
  - by rewrite Hservice.
  - by rewrite Hservice', Hstarted', Hmerged'.
Qed.

(** X12. When [reloadAllIssues] throws inside the projection of
    [exhaustMap], the poll is over: the subscription the service keeps has
    ended, so no later tick starts a cycle, no answer merges anything, and a
    further [startPollIssues] subscribes to nothing, because the field still
    holds the ended subscription. Until [stopPollIssues] or [reset] the
    service stays exactly as that tick left it; in particular the loading
    flag keeps the value it had, since [finalize] belongs to the inner
    observable that was never made. *)
Theorem poll_ends_when_reloadAllIssues_throws
    (r : IssueService.Run) (sub : Subscription.t) (err : JsError)
    (events : list IssueService.Event) :
  IssueService.issuesPollSubscription (IssueService.service r) = Some sub →
  Subscription.closed sub = false →
  Subscription.inner sub = None →
  IssueService.reloadAllIssues (IssueService.service r) = Throws err →
  Forall (λ e, e ≠ IssueService.Stop ∧ ∀ resetSessionId, e ≠ IssueService.Reset resetSessionId)
    events →
  let r' := IssueService.step IssueService.Tick r in
  IssueService.service r'
    = IssueService.set_issuesPollSubscription
        (Some {| Subscription.inner := None; Subscription.closed := true |})
        (IssueService.service r)
  ∧ IssueService.service (IssueService.run events r') = IssueService.service r'
  ∧ IssueService.started (IssueService.run events r') = IssueService.started r
  ∧ IssueService.merged (IssueService.run events r') = IssueService.merged r
  ∧ IssueService.isLoading (IssueService.service (IssueService.run events r'))
    = IssueService.isLoading (IssueService.service r).
Proof.
  intros Hsub Hclosed Hinner Hthrows Hevents r'.
  assert (Hr' : r' = {| IssueService.service :=
                          IssueService.set_issuesPollSubscription
                            (Some {| Subscription.inner := None;
                                     Subscription.closed := true |})
                            (IssueService.service r);
                        IssueService.clock := S (IssueService.clock r);
                        IssueService.started := IssueService.started r;
                        IssueService.inFlight := IssueService.inFlight r;
                        IssueService.merged := IssueService.merged r |}).
  { subst r'. simpl. unfold IssueService.onTick.
    by rewrite Hsub, Hclosed, Hinner, Hthrows. }
  destruct (closed_run events r') as (Hservice & Hstarted & Hmerged);
    [by rewrite Hr' | exact Hevents |].
  rewrite Hservice, Hstarted, Hmerged, Hr'. done.
Qed.

(** X13. A cycle of the poll that fails is swallowed: the answer of the
    remote being an error, the store and [issues$] stay as they were, nothing
    is merged, the loading flag is lowered and the cycle is over; the
    subscription lives on, so that the next tick starts a new cycle whenever
    [reloadAllIssues] has requests to send. *)
Theorem failed_cycle_is_swallowed
    (r : IssueService.Run) (sub : Subscription.t) (cycle : nat) (err : JsError) :
  IssueService.issuesPollSubscription (IssueService.service r) = Some sub →
  Subscription.inner sub = Some cycle →
  let r' := IssueService.step (IssueService.Answer (Throws err)) r in
  IssueService.issues (IssueService.service r') = IssueService.issues (IssueService.service r)
  ∧ IssueService.issues_ (IssueService.service r')
    = IssueService.issues_ (IssueService.service r)
  ∧ IssueService.merged r' = IssueService.merged r
  ∧ IssueService.isLoading (IssueService.service r') = false
  ∧ activeCycle (IssueService.service r') = None
  ∧ (Subscription.closed sub = false →
     ∀ call calls,
       IssueService.reloadAllIssues (IssueService.service r) = Returns (Some (call :: calls)) →
       activeCycle (IssueService.service (IssueService.step IssueService.Tick r'))
         = Some (IssueService.clock r)
       ∧ IssueService.started (IssueService.step IssueService.Tick r')
         = IssueService.clock r :: IssueService.started r).
Proof.
  intros Hsub Hinner r'. subst r'. simpl. unfold IssueService.onAnswer.
  rewrite Hsub, Hinner. simpl. do 5 (split; [reflexivity|]).
  intros Hclosed call calls Hcalls.
  unfold IssueService.onTick. simpl. rewrite Hclosed. simpl.
  unfold IssueService.reloadAllIssues, IssueService.initializeData_calls in *. simpl.
  by rewrite Hcalls.
Qed.

(** X14. Of the five cases of the switch in [initializeData] only two can be
    reached, because [IssuesFilter] has the one phase issuesViewer and gives
    its three roles NO_FILTER: whenever requests are collected, they are the
    single unfiltered [fetchIssuesGraphql], never a request by creator or by
    team. That is what a Student, a Tutor and an Admin get in the phase
    issuesViewer; any other role there gets the early [of([])]; and with no
    current user or no phase set the switch expression throws a TypeError. *)
Theorem initializeData_sends_one_unfiltered_request (this : IssueService.t) :
  (∀ calls, IssueService.initializeData_calls this = Returns (Some calls) →
            calls = [fetchIssuesGraphql {| creator := None |}])
  ∧ (∀ user,
       UserService.currentUser (IssueService.userService this) = Some user →
       PhaseService.currentPhase (IssueService.phaseService this) = Some issuesViewer →
       IssueService.initializeData_calls this
       = if decide (User.role user = "Student" ∨ User.role user = "Tutor"
                    ∨ User.role user = "Admin")
         then Returns (Some [fetchIssuesGraphql {| creator := None |}])
         else Returns None)
  ∧ (UserService.currentUser (IssueService.userService this) = None
     ∨ PhaseService.currentPhase (IssueService.phaseService this) = None →
     IssueService.initializeData_calls this = Throws TypeError).
Proof.
  unfold IssueService.initializeData_calls, IssuesFilter. split; [|split].
  - intros calls.
    destruct (UserService.currentUser (IssueService.userService this)) as [user|];
      [|done].
    destruct (PhaseService.currentPhase (IssueService.phaseService this)) as [[|name]|];
      [|done|done].
    case_decide; [|done]. by intros [= <-].
  - intros user -> ->. by case_decide.
  - intros [->| ->]; [done|].
    by destruct (UserService.currentUser (IssueService.userService this)).
Qed.
End poll_lifecycle.

Section eviction_edges.
Context `{Templates}.
Implicit Types (this : IssueService.t) (store : gmap N Issue.t) (ids : list N).

Lemma evicted_missing store ids :
  Forall (λ id, store !! id = None) ids →
  foldl (λ store id, delete id store) store ids = store.
Proof.
  induction 1 as [|id ids Hid _ IH]; [done|]. simpl. by rewrite delete_id.
Qed.

Lemma deleteIssuesFromLocalStore_defined this store ids :
  IssueService.issues this = Some store →
  map_Forall (λ k issue, Issue.id issue = k) store →
  ∃ this',
    IssueService.deleteIssuesFromLocalStore ids this = (Returns [], this')
    ∧ IssueService.issues this' = Some (foldl (λ store id, delete id store) store ids)
    ∧ (this' = this ∨ this' = published (foldl (λ store id, delete id store) store ids) this).
Proof.
  revert this store. induction ids as [|id ids IH]; intros this store Hstore Hkeyed.
  { exists this. auto. }
  simpl. unfold IssueService.getIssue. run_monad. rewrite Hstore.
  destruct (store !! id) as [issue|] eqn:Hissue.
  - pose proof (Hkeyed id issue Hissue) as Hkey. simpl in Hkey.
    unfold IssueService.deleteFromLocalStore. run_monad. rewrite Hstore. simpl.
    rewrite Hkey. fold (published (delete id store) this).
    destruct (IH (published (delete id store) this) (delete id store))
      as (this' & Hrun & Hissues & Hthis'); [done | by apply map_Forall_delete |].
    exists this'. rewrite Hrun. split; [done|]. split; [done|]. right.
    destruct Hthis' as [->| ->]; [|apply published_published].
    rewrite issues_published in Hissues. injection Hissues as <-. reflexivity.
  - unfold IssueService.deleteFromLocalStore. run_monad. rewrite Hstore. simpl.
    rewrite delete_id by done. apply IH; done.
Qed.

(** X15. [deleteIssuesFromLocalStore(ids)] never throws, whatever the ids.
    While the store is undefined it changes nothing and leaves one request
    per id to the remote, in the order of the ids. With a store keyed by id
    no request is sent, every id of the list is gone afterwards and every
    other entry is kept; an id the store does not hold is passed over (its
    subscriber's TypeError is not the loop's), and when [issues$] is
    notified at all it is with the values of the final store. *)
Theorem deleteIssuesFromLocalStore_never_throws (this : IssueService.t) (ids : list N) :
  (IssueService.issues this = None →
   IssueService.deleteIssuesFromLocalStore ids this = (Returns ids, this))
  ∧ (∀ store,
       IssueService.issues this = Some store →
       map_Forall (λ k issue, Issue.id issue = k) store →
       ∃ this',
         IssueService.deleteIssuesFromLocalStore ids this = (Returns [], this')
         ∧ (∀ k, default ∅ (IssueService.issues this') !! k
                 = if decide (k ∈ ids) then None else store !! k)
         ∧ (this' = this
            ∨ this' = published (foldl (λ store id, delete id store) store ids) this)).
Proof.
  split.
  - intros Hundefined. induction ids as [|id ids IH]; [done|].
    simpl. unfold IssueService.getIssue. run_monad. rewrite Hundefined. simpl.
    by rewrite IH.
  - intros store Hstore Hkeyed.
    destruct (deleteIssuesFromLocalStore_defined this store ids Hstore Hkeyed)
      as (this' & Hrun & Hissues & Hthis').
    exists this'. split; [done|]. split; [|done].
    intros k. rewrite Hissues. apply evicted_lookup.
Qed.

(** X16. [getOutdatedIssueIds(fetchedIssueIds)] returns each id at most
    once; an id is returned exactly when some id was fetched, the store holds
    the id, and the id was not fetched. So nothing is outdated after a fetch
    that brought nothing, nor before the first save, and a fetched id is never
    outdated. *)
Theorem getOutdatedIssueIds_selects_stored_unfetched
    (this : IssueService.t) (fetchedIssueIds : list N) :
  NoDup (IssueService.getOutdatedIssueIds this fetchedIssueIds)
  ∧ (∀ k, k ∈ IssueService.getOutdatedIssueIds this fetchedIssueIds
          ↔ fetchedIssueIds ≠ []
            ∧ is_Some (default ∅ (IssueService.issues this) !! k)
            ∧ k ∉ fetchedIssueIds)
  ∧ IssueService.getOutdatedIssueIds this [] = []
  ∧ (IssueService.issues this = None →
     IssueService.getOutdatedIssueIds this fetchedIssueIds = []).
Proof.
  split; [apply NoDup_getOutdatedIssueIds|].
  split; [intros k; apply elem_of_getOutdatedIssueIds|].
  split; [apply getOutdatedIssueIds_nil | apply getOutdatedIssueIds_undefined].
Qed.
End eviction_edges.

Section label_edges.
Context `{Templates}.

(** X17. Outside the phase issuesViewer [createLabelsForIssue] reads the
    team of the Issue: with no team assigned it throws a TypeError, and a
    team identifier with fewer than two hyphens puts the text undefined into
    the labels, [tutorial.<id>-undefined] and [team.undefined] for an
    identifier without hyphen, [tutorial.<a>-<b>] and [team.undefined] for
    [<a>-<b>]; the labels of the attributes follow as in any phase. *)
Theorem createLabelsForIssue_short_team_identifier
    (this : IssueService.t) (issue : Issue.t) :
  PhaseService.currentPhase (IssueService.phaseService this) ≠ Some issuesViewer →
  (Issue.teamAssigned issue = None →
   IssueService.createLabelsForIssue this issue = Throws TypeError)
  ∧ (∀ teamAssigned,
       Issue.teamAssigned issue = Some teamAssigned →
       freeOf isHyphen (Team.id teamAssigned) →
       ∃ result,
         IssueService.createLabelsForIssue this issue
         = Returns ([label "tutorial" (Team.id teamAssigned +:+ "-undefined");
                     label "team" "undefined"] ++ result)
         ∧ ∀ l, l ∈ result ↔ attributeLabel issue l)
  ∧ (∀ teamAssigned a b,
       Issue.teamAssigned issue = Some teamAssigned →
       Team.id teamAssigned = a +:+ "-" +:+ b →
       freeOf isHyphen a → freeOf isHyphen b →
       ∃ result,
         IssueService.createLabelsForIssue this issue
         = Returns ([label "tutorial" (a +:+ "-" +:+ b); label "team" "undefined"] ++ result)
         ∧ ∀ l, l ∈ result ↔ attributeLabel issue l).
Proof.
  intros Hphase. split; [|split].
  - intros Hteam. unfold IssueService.createLabelsForIssue.
    rewrite decide_True by done. by rewrite Hteam.
  - intros teamAssigned Hteam Hfree. apply attribute_labels_pushed.
    rewrite decide_True by done. rewrite Hteam. cbv zeta.
    by rewrite (split_free _ _ Hfree).
  - intros teamAssigned a b Hteam Hid Ha Hb. apply attribute_labels_pushed.
    rewrite decide_True by done. rewrite Hteam. cbv zeta. rewrite Hid.
    change (a +:+ "-" +:+ b) with (a +:+ String "-" b).
    rewrite (split_separator isHyphen a "-" _ Ha eq_refl).
    by rewrite (split_free _ _ Hb).
Qed.
End label_edges.

Section response_properties.
Context `{Templates} `{!Responses}.

Lemma filter_filter_same {A} (P : A → Prop) `{!∀ x, Decision (P x)} (l : list A) :
  filter P (filter P l) = filter P l.
Proof.
  induction l as [|x l IH]; [done|].
  destruct (decide (P x)) as [Hx|Hx].
  - rewrite (filter_cons_True _ _ _ Hx), (filter_cons_True _ _ _ Hx). by rewrite IH.
  - by rewrite (filter_cons_False _ _ _ Hx).
Qed.

(** X18. The assignment that [updateIssueWithComment] and
    [createTeamResponse] make once the remote has answered puts the new
    comment first and keeps, in their order, exactly the comments of the Issue
    that have another id; making it again with the same comment changes
    nothing. It throws a TypeError when the Issue has no list of comments,
    which is the case of every Issue as the constructor leaves it. *)
Theorem withComment_puts_the_comment_first (comment : GithubComment.t) (issue : Issue.t) :
  match IssueService.withComment comment issue with
  | Returns issue' =>
      ∃ githubComments,
        Issue.githubComments issue = Some githubComments
        ∧ issue' = Issue.set_githubComments
                     (Some (comment
                            :: filter (λ c, GithubComment.id c ≠ GithubComment.id comment)
                                 githubComments)) issue
        ∧ IssueService.withComment comment issue' = Returns issue'
  | Throws e => e = TypeError ∧ Issue.githubComments issue = None
  end
  ∧ (constructed issue → IssueService.withComment comment issue = Throws TypeError).
Proof.
  unfold IssueService.withComment. split.
  - destruct (Issue.githubComments issue) as [githubComments|] eqn:Hcomments; [|done].
    exists githubComments. split; [done|]. split; [done|]. simpl.
    rewrite filter_cons_False by (intros Hne; by apply Hne).
    by rewrite filter_filter_same.
  - by intros [githubIssue ->].
Qed.

(** X19. [updateTesterResponse(issue, issueComment)] never gets as far as
    [forkJoin] for an Issue whose [githubIssue] is undefined, which is every
    Issue the constructor has built: whatever the store holds it throws a
    TypeError, at the latest in [issue.clone]. *)
Theorem updateTesterResponse_throws
    (this : IssueService.t) (issue : Issue.t) (issueComment : IssueComment) :
  Issue.githubIssue issue = None →
  IssueService.updateTesterResponse_calls this issue issueComment = Throws TypeError.
Proof.
  intros Hrecord. unfold IssueService.updateTesterResponse_calls.
  rewrite (clone_undefined_record _ _ Hrecord). by repeat case_match.
Qed.

(** X20. [createPhaseTeamResponseIssue] always returns an Issue; it has the
    base fields of the constructor; its flag [duplicated] says whether the
    team's response names an issue as the original, whatever the labels of
    the record say; and its team response, when the comment has one, is never
    the empty string. *)
Theorem createPhaseTeamResponseIssue_duplicated_follows_response
    (githubIssue : GithubIssue.t) (teamData : option Team.t) :
  ∃ issue,
    Issue.createPhaseTeamResponseIssue githubIssue teamData = Returns issue
    ∧ Issue.id issue = GithubIssue.number githubIssue
    ∧ Issue.description issue = Issue.description (Issue.construct githubIssue)
    ∧ Issue.githubIssue issue = None
    ∧ Issue.duplicateOf issue
      = TeamResponseTemplate.duplicateOf
          (TeamResponseTemplate_new (GithubIssue.comments githubIssue))
        ≫= TeamResponseTemplate.issueNumber
    ∧ Issue.duplicated issue = Some (bool_decide (is_Some (Issue.duplicateOf issue)))
    ∧ ∀ text, Issue.teamResponse issue = Some text → text ≠ "".
Proof.
  set (template := TeamResponseTemplate_new (GithubIssue.comments githubIssue)).
  eexists. split; [reflexivity|]. simpl. fold template.
  do 3 (split; [reflexivity|]). split; [|split; [reflexivity|]].
  - by destruct (TeamResponseTemplate.duplicateOf template).
  - intros text.
    destruct (TeamResponseTemplate.teamResponse template) as [section|]; simpl; [|done].
    intros [= <-]. unfold Issue.updateTeamResponse.
    rewrite orDefaultString_formatText. by apply cleaned_not_empty.
Qed.

Lemma count_unresolved (disputes : list IssueDispute.t) (n : nat) :
  fold_left (λ prev current, (prev + Nat.b2n (negb (IssueDispute_isDone current)))%nat)
    disputes n
  = (n + length (filter (λ d, IssueDispute_isDone d = false) disputes))%nat.
Proof.
  revert n. induction disputes as [|d disputes IH]; intros n; simpl; [lia|].
  rewrite IH. destruct (IssueDispute_isDone d) eqn:Hd.
  - rewrite filter_cons_False by (by rewrite Hd). simpl. lia.
  - rewrite filter_cons_True by done. simpl. lia.
Qed.

(** X21. [numOfUnresolvedDisputes] is the number of disputes of the Issue
    that are not done: at most the number of its disputes, and zero for an
    Issue without a list of disputes, as the constructor leaves it. *)
Theorem numOfUnresolvedDisputes_counts_the_undone (issue : Issue.t) :
  Issue.numOfUnresolvedDisputes issue
  = length (filter (λ d, IssueDispute_isDone d = false)
              (default [] (Issue.issueDisputes issue)))
  ∧ (Issue.numOfUnresolvedDisputes issue ≤ length (default [] (Issue.issueDisputes issue)))%nat
  ∧ (constructed issue → Issue.numOfUnresolvedDisputes issue = 0%nat).
Proof.
  assert (Hcount : Issue.numOfUnresolvedDisputes issue
                   = length (filter (λ d, IssueDispute_isDone d = false)
                               (default [] (Issue.issueDisputes issue)))).
  { unfold Issue.numOfUnresolvedDisputes.
    destruct (Issue.issueDisputes issue) as [disputes|]; [|done].
    by rewrite count_unresolved. }
  split; [exact Hcount|]. split.
  - rewrite Hcount. apply length_filter.
  - by intros [githubIssue ->].
Qed.
End response_properties.

Section dispute_edges.
Context `{Templates}.

Lemma mapi_from_copyDescription_short (originals resolutions : list IssueDispute.t) (i : nat) :
  (i ≤ length originals)%nat →
  (length originals < i + length resolutions)%nat →
  Js.mapi_from (Issue.copyDescription originals) i resolutions = Throws TypeError.
Proof.
  revert i. induction resolutions as [|r resolutions IH]; intros i Hi Hlen; simpl in *;
    [lia|].
  unfold Issue.copyDescription at 1.
  destruct (originals !! i) as [original|] eqn:Horiginal; [|done].
  apply lookup_lt_Some in Horiginal. rewrite IH; [done | lia | lia].
Qed.

(** X22. [updateDispute(githubComment)] fails half way: when the comment has
    no moderation section, or has more resolutions than the Issue has
    disputes, it throws a TypeError after it has replaced [issueComment] and
    before it assigns [issueDisputes], so the Issue is left with the new
    comment and the old disputes. In every other case it returns. *)
Theorem updateDispute_fails_after_the_comment
    (githubComment : GithubComment.t) (this : Issue.t) :
  let todoTemplate := TutorModerationTodoTemplate_new [githubComment] in
  let commented :=
    Issue.set_issueComment (TutorModerationTodoTemplate.comment todoTemplate) this in
  Issue.issueDisputes commented = Issue.issueDisputes this
  ∧ match TutorModerationTodoTemplate.moderation todoTemplate with
    | Some moderation =>
        if decide (length (TutorModerationTodoTemplate.disputesToResolve moderation)
                   ≤ length (default [] (Issue.issueDisputes this)))%nat
        then ∃ resolved,
               Issue.updateDispute githubComment this
               = (Returns tt, Issue.set_issueDisputes (Some resolved) commented)
               ∧ length resolved
                 = length (TutorModerationTodoTemplate.disputesToResolve moderation)
        else Issue.updateDispute githubComment this = (Throws TypeError, commented)
    | None => Issue.updateDispute githubComment this = (Throws TypeError, commented)
    end.
Proof.
  intros todoTemplate commented. split; [reflexivity|].
  unfold Issue.updateDispute. fold todoTemplate. run_monad. fold commented.
  destruct (TutorModerationTodoTemplate.moderation todoTemplate) as [moderation|];
    [|done].
  case_decide as Hlen.
  - destruct (mapi_from_copyDescription (default [] (Issue.issueDisputes this))
                (TutorModerationTodoTemplate.disputesToResolve moderation) 0)
      as (resolved & Hresolved & Hlength & _); [simpl; lia|].
    exists resolved. split; [|done].
    unfold Js.mapi. change (Issue.issueDisputes commented) with (Issue.issueDisputes this).
    by rewrite Hresolved.
  - unfold Js.mapi. change (Issue.issueDisputes commented) with (Issue.issueDisputes this).
    rewrite mapi_from_copyDescription_short; [done | lia | simpl; lia].
Qed.
End dispute_edges.

Section closed_extras.
#[local] Existing Instance Sample.collaborators.
#[local] Existing Instance Sample.templates.
#[local] Existing Instance Sample.responses.

Lemma getLatestIssue_never_ends_with_remote_error_witness :
  snd (IssueService.getLatestIssue_notified 2 (Throws RemoteError)
         (Sample.serviceWith (Some issuesViewer) (Some Sample.store123)))
  = Sample.serviceWith (Some issuesViewer) (Some Sample.store123).
Proof.
  exact (proj1 (proj2 (getLatestIssue_never_ends_with_remote_error 2 (Throws RemoteError)
                         (Sample.serviceWith (Some issuesViewer) (Some Sample.store123))))
           RemoteError eq_refl).
Defined.

Lemma pollIssue_falls_back_to_getIssue_witness :
  IssueService.pollIssue_notified 2 (Throws RemoteError)
    (Sample.serviceWith (Some issuesViewer) None)
  = (Returns (IssueService.getLatestIssue 2), Sample.serviceWith (Some issuesViewer) None)
  ∧ IssueService.getLatestIssue_notified 2 (Throws RemoteError)
      (Sample.serviceWith (Some issuesViewer) None)
    = (Throws TypeError, Sample.serviceWith (Some issuesViewer) None).
Proof.
  destruct (proj2 (pollIssue_falls_back_to_getIssue 2 (Throws RemoteError)
                     (Sample.serviceWith (Some issuesViewer) None))
              (or_introl (ex_intro _ RemoteError eq_refl)))
    as (Hrun & _ & Hundefined).
  destruct (Hundefined eq_refl) as (_ & _ & Hthrows & _).
  split; [exact Hrun|].
  exact (Hthrows (Throws RemoteError) (or_introl (ex_intro _ RemoteError eq_refl))).
Defined.

Lemma deleteIssue_removes_the_closed_issue_witness :
  ∃ this',
    IssueService.deleteIssue_notified (Sample.record 2 "text" [])
      (Sample.serviceWith (Some issuesViewer) (Some Sample.store123))
    = (Returns (Some (Sample.issue 2)), this')
    ∧ IssueService.getIssue this' 2 = IssueService.of_ None.
Proof.
  destruct (proj1 (deleteIssue_removes_the_closed_issue (Sample.record 2 "text" [])
                     (Sample.serviceWith (Some issuesViewer) (Some Sample.store123)))
              Sample.store123 eq_refl eq_refl)
    as (this' & Hrun & _ & _ & _ & Hgone).
  exists this'. split; [exact Hrun | exact Hgone].
Defined.

Lemma updateLocalStore_then_read_and_delete_witness :
  IssueService.issues
    (snd (IssueService.deleteFromLocalStore (Some (Sample.issue 4))
            (snd (IssueService.updateLocalStore (Some (Sample.issue 4))
                    (Sample.serviceWith (Some issuesViewer) (Some Sample.store123))))))
  = Some Sample.store123.
Proof.
  refine (proj2 (proj2 (proj2 (proj2
            (updateLocalStore_then_read_and_delete (Sample.issue 4)
               (Sample.serviceWith (Some issuesViewer) (Some Sample.store123))))))
            Sample.store123 eq_refl _).
  vm_compute. reflexivity.
Defined.

Lemma poll_ends_when_reloadAllIssues_throws_witness :
  IssueService.service
    (IssueService.run [IssueService.Tick; IssueService.Start; IssueService.Answer (Returns [])]
       (IssueService.step IssueService.Tick Sample.unconfigured))
  = IssueService.service (IssueService.step IssueService.Tick Sample.unconfigured)
  ∧ IssueService.started
      (IssueService.run [IssueService.Tick; IssueService.Start; IssueService.Answer (Returns [])]
         (IssueService.step IssueService.Tick Sample.unconfigured))
    = []
  ∧ IssueService.isLoading
      (IssueService.service
         (IssueService.run
            [IssueService.Tick; IssueService.Start; IssueService.Answer (Returns [])]
            (IssueService.step IssueService.Tick Sample.unconfigured)))
    = true.
Proof.
  assert (Hevents :
    Forall (λ e, e ≠ IssueService.Stop
                 ∧ ∀ resetSessionId, e ≠ IssueService.Reset resetSessionId)
      [IssueService.Tick; IssueService.Start; IssueService.Answer (Returns [])]).
  { repeat constructor; discriminate. }
  destruct (poll_ends_when_reloadAllIssues_throws Sample.unconfigured
              {| Subscription.inner := None; Subscription.closed := false |} TypeError
              [IssueService.Tick; IssueService.Start; IssueService.Answer (Returns [])]
              eq_refl eq_refl eq_refl eq_refl Hevents)
    as (_ & Hservice & Hstarted & _ & Hloading).
  split; [exact Hservice|]. split; [exact Hstarted | exact Hloading].
Defined.

Lemma failed_cycle_is_swallowed_witness :
  IssueService.isLoading
    (IssueService.service
       (IssueService.step (IssueService.Answer (Throws RemoteError)) Sample.polling))
  = false
  ∧ activeCycle
      (IssueService.service
         (IssueService.step IssueService.Tick
            (IssueService.step (IssueService.Answer (Throws RemoteError)) Sample.polling)))
    = Some 1%nat.
Proof.
  destruct (failed_cycle_is_swallowed Sample.polling
              {| Subscription.inner := Some 0%nat; Subscription.closed := false |}
              0%nat RemoteError eq_refl eq_refl)
    as (_ & _ & _ & Hloading & _ & Hnext).
  split; [exact Hloading|].
  exact (proj1 (Hnext eq_refl (fetchIssuesGraphql {| creator := None |}) [] eq_refl)).
Defined.

Lemma initializeData_sends_one_unfiltered_request_witness :
  IssueService.initializeData_calls
    (Sample.serviceWith (Some issuesViewer) (Some Sample.store123))
  = Returns (Some [fetchIssuesGraphql {| creator := None |}]).
Proof.
  exact (proj1 (proj2 (initializeData_sends_one_unfiltered_request
                         (Sample.serviceWith (Some issuesViewer) (Some Sample.store123))))
           Sample.student eq_refl eq_refl).
Defined.

Lemma deleteIssuesFromLocalStore_never_throws_witness :
  ∃ this',
    IssueService.deleteIssuesFromLocalStore [2%N; 7%N]
      (Sample.serviceWith (Some issuesViewer) (Some Sample.store123))
    = (Returns [], this')
    ∧ default ∅ (IssueService.issues this') !! 2%N = None
    ∧ default ∅ (IssueService.issues this') !! 3%N = Some (Sample.issue 3).
Proof.
  assert (Hkeyed : map_Forall (λ k issue, Issue.id issue = k) Sample.store123).
  { apply (bool_decide_unpack _). vm_compute. exact I. }
  destruct (proj2 (deleteIssuesFromLocalStore_never_throws
                     (Sample.serviceWith (Some issuesViewer) (Some Sample.store123))
                     [2%N; 7%N]) Sample.store123 eq_refl Hkeyed)
    as (this' & Hrun & Hlookup & _).
  exists this'. split; [exact Hrun|]. split.
  - exact (Hlookup 2%N).
  - rewrite (Hlookup 3%N). vm_compute. reflexivity.
Defined.

Lemma createLabelsForIssue_short_team_identifier_witness :
  IssueService.createLabelsForIssue (Sample.serviceWith None None) (Sample.issue 1)
  = Throws TypeError.
Proof.
  refine (proj1 (createLabelsForIssue_short_team_identifier
                   (Sample.serviceWith None None) (Sample.issue 1) _) eq_refl).
  discriminate.
Defined.

Lemma updateTesterResponse_throws_witness :
  IssueService.updateTesterResponse_calls
    (Sample.serviceWith (Some issuesViewer) (Some Sample.store123))
    (Sample.issue 1) Sample.resolution
  = Throws TypeError.
Proof.
  exact (updateTesterResponse_throws
           (Sample.serviceWith (Some issuesViewer) (Some Sample.store123))
           (Sample.issue 1) Sample.resolution eq_refl).
Defined.

(** The methods of this part on the sample data. *)
Example more_samples :
  Issue.formatText (value "a") = value ("a" +:+ lineFeeds)
  ∧ Issue.formatText (value "  ") = value "  "
  ∧ Issue.updateDescription (value "") = "No details provided by bug reporter."
  ∧ IssueService.deleteIssuesFromLocalStore [2%N; 7%N] (Sample.serviceWith None None)
    = (Returns [2%N; 7%N], Sample.serviceWith None None)
  ∧ Issue.numOfUnresolvedDisputes
      (Issue.set_issueDisputes
         (Some [Sample.dispute "Team says" "Done"; Sample.dispute "Tester says" ""])
         (Sample.issue 1))
    = 1%nat
  ∧ IssueService.getIssueTeamFilter
      (IssueService.setIssueTeamFilter (Some "")
         (Sample.serviceWith (Some issuesViewer) None))
    = "All Teams".
Proof. vm_compute. repeat split. Qed.
End closed_extras.
